(** * NATS client: document parser, reply templates and session manager

    A shallow embedding of the script parser (nats-document-parser), of
    [interpolateTemplate] and of the [NatsSession] class (nats-session),
    together with the properties the specification states about them.

    Conventions of the embedding.
    - A JavaScript string is a [string]; one character stands for one
      code unit, so the model covers texts whose code units are below
      256.  White space is the part of ECMAScript's [\s] in that range.
    - [undefined] is [None]; a thrown exception is an explicit outcome.
    - Functions of the platform ([URL], [decodeURIComponent],
      [randomUUID]) are parameters of the definitions that call them. *)

From Stdlib Require Import String Ascii List ZArith Lia Bool Arith DecimalString Sorted.
Import ListNotations.
Set Warnings "-register-all".
Open Scope string_scope.

(* ================================================================== *)
(** ** JavaScript strings *)
(* ================================================================== *)

(** A thrown value: an [Error] instance with its name and message, or
    any other value, kept as [String(value)] renders it. *)
Inductive JsError :=
  | ErrorObject (name message : string)
  | ThrownValue (rendered : string).

(** The completion of a call: a value, or a thrown exception (a rejected
    promise, for an asynchronous call). *)
Inductive Result (A : Type) :=
  | Ok (value : A)
  | Raise (error : JsError).
Arguments Ok {A} value.
Arguments Raise {A} error.

(** [xs.push(x)] on an array. *)
Definition push {A : Type} (xs : list A) (x : A) : list A := (xs ++ [x])%list.

Module JsString.

Definition LF : ascii := "010"%char.
Definition CR : ascii := "013"%char.
Definition DQUOTE : ascii := "034"%char.

(** ECMAScript [WhiteSpace] and [LineTerminator] code units below 256:
    TAB, LF, VT, FF, CR, SP and NBSP. This is what [\s] matches and what
    [String.prototype.trim] removes. *)
Definition isWhiteSpace (c : ascii) : bool :=
  let n := nat_of_ascii c in
  (((9 <=? n) && (n <=? 13)) || (n =? 32) || (n =? 160))%nat.

Definition isUpper (c : ascii) : bool :=
  let n := nat_of_ascii c in ((65 <=? n) && (n <=? 90))%nat.
Definition isLower (c : ascii) : bool :=
  let n := nat_of_ascii c in ((97 <=? n) && (n <=? 122))%nat.
Definition isDigit (c : ascii) : bool :=
  let n := nat_of_ascii c in ((48 <=? n) && (n <=? 57))%nat.

Definition upperChar (c : ascii) : ascii :=
  if isLower c then ascii_of_nat (nat_of_ascii c - 32) else c.
Definition lowerChar (c : ascii) : ascii :=
  if isUpper c then ascii_of_nat (nat_of_ascii c + 32) else c.

Fixpoint mapChars (f : ascii -> ascii) (s : string) : string :=
  match s with
  | EmptyString => EmptyString
  | String c rest => String (f c) (mapChars f rest)
  end.

(** [toUpperCase] and [toLowerCase] on the letters a-z and A-Z. The
    source only compares their results with ASCII words. *)
Definition toUpperCase : string -> string := mapChars upperChar.
Definition toLowerCase : string -> string := mapChars lowerChar.

Fixpoint dropWhile (p : ascii -> bool) (s : string) : string :=
  match s with
  | EmptyString => EmptyString
  | String c rest => if p c then dropWhile p rest else s
  end.

Fixpoint takeWhile (p : ascii -> bool) (s : string) : string :=
  match s with
  | EmptyString => EmptyString
  | String c rest => if p c then String c (takeWhile p rest) else EmptyString
  end.

Fixpoint forallChars (p : ascii -> bool) (s : string) : bool :=
  match s with
  | EmptyString => true
  | String c rest => p c && forallChars p rest
  end.

Definition trimStart : string -> string := dropWhile isWhiteSpace.

(** Removes trailing white space: a character is kept when something
    other than white space follows it or it is not white space itself. *)
Fixpoint trimEnd (s : string) : string :=
  match s with
  | EmptyString => EmptyString
  | String c rest =>
      match trimEnd rest with
      | EmptyString => if isWhiteSpace c then EmptyString else String c EmptyString
      | kept => String c kept
      end
  end.

Definition trim (s : string) : string := trimEnd (trimStart s).

Definition isEmpty (s : string) : bool :=
  match s with EmptyString => true | _ => false end.

(** [s.startsWith(p)]. *)
Fixpoint startsWith (s p : string) {struct p} : bool :=
  match p with
  | EmptyString => true
  | String a p1 =>
      match s with
      | EmptyString => false
      | String b s1 => Ascii.eqb a b && startsWith s1 p1
      end
  end.

(** [s.slice(n)] for [0 <= n]. *)
Fixpoint sliceFrom (n : nat) (s : string) : string :=
  match n, s with
  | O, _ => s
  | S _, EmptyString => EmptyString
  | S k, String _ rest => sliceFrom k rest
  end.

(** [s.slice(0, n)]. *)
Fixpoint sliceTo (n : nat) (s : string) : string :=
  match n, s with
  | O, _ => EmptyString
  | S _, EmptyString => EmptyString
  | S k, String c rest => String c (sliceTo k rest)
  end.

(** [s.indexOf(c)] for a one-character needle; [None] stands for -1. *)
Fixpoint indexOfChar (c : ascii) (s : string) : option nat :=
  match s with
  | EmptyString => None
  | String d rest =>
      if Ascii.eqb c d then Some 0
      else option_map S (indexOfChar c rest)
  end.

(** [s.split(/\r?\n/)]: never empty, one more piece than line breaks. *)
Fixpoint splitLines (s : string) : list string :=
  match s with
  | EmptyString => [EmptyString]
  | String c rest =>
      if Ascii.eqb c LF then EmptyString :: splitLines rest
      else if Ascii.eqb c CR && startsWith rest (String LF EmptyString)
           then splitLines rest
      else match splitLines rest with
           | line :: more => String c line :: more
           | [] => [String c EmptyString]
           end
  end.

(** [s.split(/\s+/, 1)[0]]: for a string that does not start with white
    space, the text before the first run of white space. *)
Definition firstToken (s : string) : string :=
  if isWhiteSpace (match s with String c _ => c | EmptyString => "000"%char end)
  then EmptyString
  else takeWhile (fun c => negb (isWhiteSpace c)) s.

(** [lines.join(sep)]. *)
Fixpoint join (sep : string) (parts : list string) : string :=
  match parts with
  | [] => EmptyString
  | [p] => p
  | p :: rest => p ++ sep ++ join sep rest
  end.

Definition truthy (s : string) : bool := negb (isEmpty s).

(** Truthiness of a [string | undefined]. *)
Definition truthyOpt (o : option string) : bool :=
  match o with Some s => truthy s | None => false end.

End JsString.

(* ================================================================== *)
(** ** JavaScript [Map] with string keys *)
(* ================================================================== *)

(** Entries are kept in insertion order, as [Map] iterates them: [set]
    on a present key replaces the value in place, on a new key appends. *)
Module JsMap.

Definition t (V : Type) : Type := list (string * V).

Definition empty {V : Type} : t V := [].

Fixpoint get {V : Type} (m : t V) (key : string) : option V :=
  match m with
  | [] => None
  | (k, v) :: rest => if String.eqb k key then Some v else get rest key
  end.

Definition has {V : Type} (m : t V) (key : string) : bool :=
  match get m key with Some _ => true | None => false end.

Fixpoint set {V : Type} (m : t V) (key : string) (value : V) : t V :=
  match m with
  | [] => [(key, value)]
  | (k, v) :: rest =>
      if String.eqb k key then (k, value) :: rest
      else (k, v) :: set rest key value
  end.

Fixpoint delete {V : Type} (m : t V) (key : string) : t V :=
  match m with
  | [] => []
  | (k, v) :: rest =>
      if String.eqb k key then rest else (k, v) :: delete rest key
  end.

Definition keys {V : Type} (m : t V) : list string := map fst m.
Definition entries {V : Type} (m : t V) : list (string * V) := m.
Definition size {V : Type} (m : t V) : nat := List.length m.

(** Keys occur once: what [set] and [delete] preserve from [empty]. *)
Definition wf {V : Type} (m : t V) : Prop := NoDup (keys m).

End JsMap.

(* ================================================================== *)
(** ** The script parser (nats-document-parser) *)
(* ================================================================== *)

Module Parser.
Import JsString.

(** *** Action model (core/nats-actions) *)

Inductive NatsActionType :=
  | subscribe | request | publish | reply | jetstreamPull.

Record NatsAction := {
  type : NatsActionType;
  subject : string;
  lineNumber : nat;
  server : option string;
  data : option string;
  template : option string;
  stream : option string;
  durable : option string;
  batchSize : option Z;
  timeoutMs : option Z;
  headers : option (list (string * string))
}.

Record RawLine := { text : string; rawLineNumber : nat }.

Inductive NatsDocumentSegment :=
  | delimiter (line : RawLine)
  | block (lines : list RawLine).

(** *** Document segmenter *)

(** [BLOCK_DELIMITER = /^\s*#{3,}\s*$/]. *)
Definition BLOCK_DELIMITER (raw : string) : bool :=
  let afterSpace := dropWhile isWhiteSpace raw in
  let hashes := takeWhile (Ascii.eqb "#") afterSpace in
  let afterHashes := dropWhile (Ascii.eqb "#") afterSpace in
  (3 <=? String.length hashes)%nat && isEmpty (dropWhile isWhiteSpace afterHashes).

Definition flushBlock (segments : list NatsDocumentSegment) (current : list RawLine)
  : list NatsDocumentSegment * list RawLine :=
  if (0 <? List.length current)%nat
  then (push segments (block current), [])
  else (segments, current).

(** The [for] loop of [segmentNatsDocument] from position [index]. *)
Fixpoint segmentLoop (lines : list string) (index : nat)
    (segments : list NatsDocumentSegment) (current : list RawLine)
  : list NatsDocumentSegment * list RawLine :=
  match lines with
  | [] => (segments, current)
  | raw :: rest =>
      if BLOCK_DELIMITER raw then
        let '(segments1, current1) := flushBlock segments current in
        segmentLoop rest (S index)
          (push segments1 (delimiter {| text := raw; rawLineNumber := index |}))
          current1
      else
        segmentLoop rest (S index) segments
          (push current {| text := raw; rawLineNumber := index |})
  end.

Definition segmentLines (lines : list string) : list NatsDocumentSegment :=
  let '(segments, current) := segmentLoop lines 0 [] [] in
  let '(segments1, _) := flushBlock segments current in
  if (List.length segments1 =? 0)%nat then [block []] else segments1.

Definition segmentNatsDocument (text : string) : list NatsDocumentSegment :=
  segmentLines (splitLines text).

(** The lines of a segment, and of a sequence of segments in order. *)
Definition segmentRawLines (segment : NatsDocumentSegment) : list RawLine :=
  match segment with
  | delimiter line => [line]
  | block lines => lines
  end.

Definition rejoin (segments : list NatsDocumentSegment) : list RawLine :=
  flat_map segmentRawLines segments.

Definition rejoinTexts (segments : list NatsDocumentSegment) : list string :=
  map text (rejoin segments).

(** The lines of a document with their zero-based positions. *)
Fixpoint numbered (index : nat) (lines : list string) : list RawLine :=
  match lines with
  | [] => []
  | raw :: rest => {| text := raw; rawLineNumber := index |} :: numbered (S index) rest
  end.

(** *** Block parser *)

(** What the parser reads of a [URL] object. *)
Record URL := {
  protocol : string;
  username : string;
  password : string;
  hostname : string;
  port : string;
  pathname : string
}.

Record HeaderEntry := { key : string; value : string }.

Record Connection := { connSubject : option string; connServer : string }.

(** A computation that draws identifiers from [randomUUID] and may
    throw: it takes the number of identifiers drawn so far and returns
    its value with the new count. *)
Definition M (A : Type) : Type := nat -> Result (A * nat).

Definition ret {A : Type} (a : A) : M A := fun calls => Ok (a, calls).

Definition throw {A : Type} (e : JsError) : M A := fun _ => Raise e.

Definition bind {A B : Type} (m : M A) (k : A -> M B) : M B :=
  fun calls =>
    match m calls with
    | Ok (a, calls1) => k a calls1
    | Raise e => Raise e
    end.

Notation "x <- m ;; k" := (bind m (fun x => k))
  (at level 61, m at next level, right associativity).

Definition lift {A : Type} (r : Result A) : M A :=
  fun calls => match r with Ok a => Ok (a, calls) | Raise e => Raise e end.

(** [COMMENT_PATTERN = /^\s*(#|\/\/)/]. *)
Definition COMMENT_PATTERN (s : string) : bool :=
  let rest := dropWhile isWhiteSpace s in
  startsWith rest "#" || startsWith rest "//".

Definition META_HEADERS : list string :=
  ["nats-server"; "nats-timeout"; "nats-stream"; "nats-durable";
   "nats-batch"; "nats-reply-mode"; "nats-subject"].

Definition SUPPORTED_PROTOCOLS : list string := ["nats:"; "tls:"; "ws:"; "wss:"].

Definition setHas (members : list string) (x : string) : bool :=
  existsb (String.eqb x) members.

Definition isHeaderKeyChar (c : ascii) : bool :=
  isUpper c || isLower c || isDigit c || Ascii.eqb c "-".

(** [HEADER_KEY_PATTERN = /^[A-Za-z0-9-]+$/]. *)
Definition HEADER_KEY_PATTERN (s : string) : bool :=
  negb (isEmpty s) && forallChars isHeaderKeyChar s.

Definition mapKeyword (keyword : string) : option NatsActionType :=
  let upper := toUpperCase keyword in
  if String.eqb upper "SUBSCRIBE" then Some subscribe
  else if String.eqb upper "REQUEST" then Some request
  else if String.eqb upper "PUBLISH" then Some publish
  else if String.eqb upper "REPLY" then Some reply
  else if String.eqb upper "JETSTREAM" then Some jetstreamPull
  else None.

Definition looksLikeJson (value : option string) : bool :=
  match value with
  | None => false
  | Some v =>
      if isEmpty v then false
      else
        let trimmed := trim v in
        startsWith trimmed "{" || startsWith trimmed "["
        || startsWith trimmed (String DQUOTE EmptyString)
        || startsWith trimmed "'"
  end.

Fixpoint digitsValue (s : string) (acc : Z) : Z :=
  match s with
  | EmptyString => acc
  | String c rest =>
      digitsValue rest (10 * acc + Z.of_nat (nat_of_ascii c - 48))%Z
  end.

(** The integer that [Number.parseInt(s, 10)] reads: leading white
    space, an optional sign, then the longest run of digits; [None] is
    NaN. *)
Definition parseInt10 (s : string) : option Z :=
  let t := dropWhile isWhiteSpace s in
  let '(negative, body) :=
    match t with
    | String "-" rest => (true, rest)
    | String "+" rest => (false, rest)
    | _ => (false, t)
    end in
  let digits := takeWhile isDigit body in
  if isEmpty digits then None
  else let n := digitsValue digits 0 in
       Some (if negative then (- n)%Z else n).

(** The Number that stands for an integer: the nearest double, ties to
    the even significand; [None] is an infinity. An integer below 2^53
    in magnitude is its own double. *)
Definition toDouble (n : Z) : option Z :=
  let magnitude := Z.abs n in
  let rounded :=
    if (magnitude <? 2 ^ 53)%Z then magnitude
    else
      let unit := (2 ^ (Z.log2 magnitude - 52))%Z in
      let significand := (magnitude / unit)%Z in
      let remainder := (magnitude mod unit)%Z in
      let half := (unit / 2)%Z in
      let up :=
        (half <? remainder)%Z || ((remainder =? half)%Z && Z.odd significand) in
      ((if up then significand + 1 else significand) * unit)%Z in
  if (rounded <? 2 ^ 1024)%Z then Some (Z.sgn n * rounded)%Z else None.

(** [Number.isFinite] fails for NaN and for the infinities. *)
Definition parseInteger (value : option string) : option Z :=
  match value with
  | None => None
  | Some v =>
      if isEmpty v then None
      else match parseInt10 v with
           | Some numeric => toDouble numeric
           | None => None
           end
  end.

Definition beginsWithKeyword (trimmed : string) : bool :=
  match mapKeyword (firstToken trimmed) with Some _ => true | None => false end.

(** The loop of [findRequestLineIndex] from position [index]; [None] is
    the result -1. *)
Fixpoint findRequestLineLoop (lines : list RawLine) (index : nat) : option nat :=
  match lines with
  | [] => None
  | line :: rest =>
      let trimmed := trim (text line) in
      if (String.length trimmed =? 0)%nat then findRequestLineLoop rest (S index)
      else if COMMENT_PATTERN trimmed || startsWith trimmed "@"
           then findRequestLineLoop rest (S index)
      else if beginsWithKeyword trimmed then Some index
      else None
  end.

Definition findRequestLineIndex (lines : list RawLine) : option nat :=
  findRequestLineLoop lines 0.

(** Removes blank lines at the front ([shift]) and at the back ([pop]). *)
Fixpoint shiftBlank (bodyLines : list string) : list string :=
  match bodyLines with
  | [] => []
  | l :: rest =>
      if (String.length (trim l) =? 0)%nat then shiftBlank rest else bodyLines
  end.

Fixpoint popBlank (bodyLines : list string) : list string :=
  match bodyLines with
  | [] => []
  | l :: rest =>
      match popBlank rest with
      | [] => if (String.length (trim l) =? 0)%nat then [] else [l]
      | kept => l :: kept
      end
  end.

Definition buildServerUrl (url : URL) : string :=
  let auth :=
    if truthy (username url)
    then username url
         ++ (if truthy (password url) then ":" ++ password url else "")
         ++ "@"
    else "" in
  let portText := if truthy (port url) then ":" ++ port url else "" in
  protocol url ++ "//" ++ auth ++ hostname url ++ portText.

Definition partitionStep (acc : JsMap.t string * JsMap.t string) (entry : HeaderEntry)
  : JsMap.t string * JsMap.t string :=
  let '(headers, meta) := acc in
  let lower := toLowerCase (key entry) in
  if setHas META_HEADERS lower
  then (headers, JsMap.set meta lower (value entry))
  else (JsMap.set headers (key entry) (value entry), meta).

(** The forwarded headers (a plain object whose key order is not read,
    [None] when it has no key) and the metadata map. *)
Definition partitionHeaders (entries : list HeaderEntry)
  : option (JsMap.t string) * JsMap.t string :=
  if (List.length entries =? 0)%nat then (None, JsMap.empty)
  else
    let '(headers, meta) := fold_left partitionStep entries (JsMap.empty, JsMap.empty) in
    (if (0 <? JsMap.size headers)%nat then Some headers else None, meta).

Section Platform.

(** [new URL(value)]; [Raise] when the constructor throws. *)
Variable newURL : string -> Result URL.
(** [decodeURIComponent(text)]; [Raise] is its [URIError]. *)
Variable decodeURIComponent : string -> Result string.
(** [randomUUID()]: the identifier returned by the call number [n]. *)
Variable randomUUID : nat -> string.

Definition matchesRandomId (s : string) : bool :=
  startsWith (toLowerCase s) "randomid()".

(** [value.replace(/randomId\(\)/gi, () => quoted randomUUID())]: [skip]
    is the number of characters of a match still to pass over. *)
Fixpoint sanitizeLoop (s : string) (skip : nat) (calls : nat) : string * nat :=
  match s with
  | EmptyString => (EmptyString, calls)
  | String c rest =>
      match skip with
      | S k => sanitizeLoop rest k calls
      | O =>
          if matchesRandomId s then
            let '(out, calls1) := sanitizeLoop rest 9 (S calls) in
            (String DQUOTE (randomUUID calls ++ String DQUOTE out), calls1)
          else
            let '(out, calls1) := sanitizeLoop rest 0 calls in
            (String c out, calls1)
      end
  end.

Definition sanitizeRandomIds (value : string) : M string :=
  fun calls => Ok (sanitizeLoop value 0 calls).

(** The [while] loop of [parseHeaders]: [rest] is [lines] from [index]. *)
Fixpoint parseHeadersLoop (rest : list RawLine) (index : nat)
    (headers : list HeaderEntry) : M (list HeaderEntry * nat) :=
  match rest with
  | [] => ret (headers, index)
  | line :: rest1 =>
      let raw := text line in
      let trimmed := trim raw in
      if (String.length trimmed =? 0)%nat then ret (headers, S index)
      else if COMMENT_PATTERN trimmed then parseHeadersLoop rest1 (S index) headers
      else
        match indexOfChar ":" raw with
        | None => ret (headers, index)
        | Some separator =>
            let key := trim (sliceTo separator raw) in
            if negb (HEADER_KEY_PATTERN key) then ret (headers, index)
            else
              let value := trim (sliceFrom (S separator) raw) in
              sanitized <- sanitizeRandomIds value ;;
              parseHeadersLoop rest1 (S index)
                (push headers {| key := key; value := sanitized |})
        end
  end.

Definition parseHeaders (lines : list RawLine) (startIndex : nat)
  : M (list HeaderEntry * nat) :=
  parseHeadersLoop (skipn startIndex lines) startIndex [].

Definition collectBody (lines : list RawLine) (startIndex : nat) : M (option string) :=
  if (List.length lines <=? startIndex)%nat then ret None
  else
    let bodyLines := popBlank (shiftBlank (map text (skipn startIndex lines))) in
    if (List.length bodyLines =? 0)%nat then ret None
    else
      body <- sanitizeRandomIds (join (String LF EmptyString) bodyLines) ;;
      ret (Some body).

Definition tryParseUrl (value : string) : option URL :=
  match newURL value with
  | Ok url => if setHas SUPPORTED_PROTOCOLS (protocol url) then Some url else None
  | Raise _ => None
  end.

Definition decodeSubject (pathname : string) : Result (option string) :=
  let trimmed := if startsWith pathname "/" then sliceFrom 1 pathname else pathname in
  match decodeURIComponent trimmed with
  | Ok decoded =>
      Ok (if (0 <? String.length decoded)%nat then Some decoded else None)
  | Raise e => Raise e
  end.

Definition orElse {A : Type} (a b : option A) : option A :=
  match a with Some _ => a | None => b end.

Definition resolveConnection (target : string) (meta : JsMap.t string)
  : Result (option Connection) :=
  let trimmedTarget := trim target in
  let candidateSubject :=
    if (0 <? String.length trimmedTarget)%nat then trimmedTarget
    else match JsMap.get meta "nats-subject" with Some s => s | None => "" end in
  match tryParseUrl candidateSubject with
  | Some url =>
      let server := buildServerUrl url in
      match decodeSubject (pathname url) with
      | Raise e => Raise e
      | Ok decoded =>
          let subject := orElse decoded (JsMap.get meta "nats-subject") in
          if negb (truthyOpt subject) then Ok None
          else Ok (Some {| connSubject := subject; connServer := server |})
      end
  | None =>
      let serverHeader := JsMap.get meta "nats-server" in
      match serverHeader with
      | None => Ok None
      | Some serverText =>
          if negb (truthy serverText) then Ok None
          else
            let subject :=
              if truthy candidateSubject then Some candidateSubject
              else JsMap.get meta "nats-subject" in
            if negb (truthyOpt subject) then Ok None
            else Ok (Some {| connSubject := subject; connServer := serverText |})
      end
  end.

Definition parseActionFromBlock (lines : list RawLine) : M (option NatsAction) :=
  if (List.length lines =? 0)%nat then ret None
  else
    match findRequestLineIndex lines with
    | None => ret None
    | Some requestIndex =>
        match nth_error lines requestIndex with
        | None => throw (ErrorObject "TypeError" "Cannot read properties of undefined")
        | Some commandLine =>
            let requestLine := trim (text commandLine) in
            let keyword := firstToken requestLine in
            match mapKeyword keyword with
            | None => ret None
            | Some type =>
                let target := trim (sliceFrom (String.length keyword) requestLine) in
                headerResult <- parseHeaders lines (S requestIndex) ;;
                let '(headers, meta) := partitionHeaders (fst headerResult) in
                body <- collectBody lines (snd headerResult) ;;
                connection <- lift (resolveConnection target meta) ;;
                match connection with
                | None => ret None
                | Some connection =>
                    let timeoutMs := parseInteger (JsMap.get meta "nats-timeout") in
                    match type with
                    | jetstreamPull =>
                        if negb (truthyOpt (JsMap.get meta "nats-stream"))
                           || negb (truthyOpt (JsMap.get meta "nats-durable"))
                        then ret None
                        else
                          let batchCandidate :=
                            match parseInteger (JsMap.get meta "nats-batch") with
                            | Some n => n
                            | None => 1%Z
                            end in
                          ret (Some {|
                            type := type;
                            lineNumber := rawLineNumber commandLine;
                            subject := match JsMap.get meta "nats-stream" with
                                       | Some s => s | None => "" end;
                            server := Some (connServer connection);
                            data := None;
                            template := None;
                            stream := JsMap.get meta "nats-stream";
                            durable := JsMap.get meta "nats-durable";
                            batchSize := Some (Z.max 1 batchCandidate);
                            timeoutMs := timeoutMs;
                            headers := headers |})
                    | _ =>
                        match connSubject connection with
                        | None => ret None
                        | Some subjectText =>
                            if negb (truthy subjectText) then ret None
                            else
                              match type with
                              | reply =>
                                  let replyMode :=
                                    toLowerCase
                                      (match JsMap.get meta "nats-reply-mode" with
                                       | Some m => m | None => "" end) in
                                  let templateMode :=
                                    String.eqb replyMode "template"
                                    || (negb (truthy replyMode) && negb (looksLikeJson body)) in
                                  ret (Some {|
                                    type := type;
                                    lineNumber := rawLineNumber commandLine;
                                    subject := subjectText;
                                    server := Some (connServer connection);
                                    data := if negb templateMode then body else None;
                                    template := if templateMode then body else None;
                                    stream := None;
                                    durable := None;
                                    batchSize := None;
                                    timeoutMs := None;
                                    headers := headers |})
                              | _ =>
                                  ret (Some {|
                                    type := type;
                                    lineNumber := rawLineNumber commandLine;
                                    subject := subjectText;
                                    server := Some (connServer connection);
                                    data := body;
                                    template := None;
                                    stream := None;
                                    durable := None;
                                    batchSize := None;
                                    timeoutMs := timeoutMs;
                                    headers := headers |})
                              end
                        end
                    end
                end
            end
        end
    end.

(** The [for] loop of [parseNatsDocument] over the segments. *)
Fixpoint parseSegments (segments : list NatsDocumentSegment)
    (actions : list NatsAction) : M (list NatsAction) :=
  match segments with
  | [] => ret actions
  | delimiter _ :: rest => parseSegments rest actions
  | block lines :: rest =>
      action <- parseActionFromBlock lines ;;
      match action with
      | Some a => parseSegments rest (push actions a)
      | None => parseSegments rest actions
      end
  end.

Definition parseNatsDocument (text : string) : M (list NatsAction) :=
  parseSegments (segmentNatsDocument text) [].

End Platform.

End Parser.

(* ================================================================== *)
(** ** A reference platform for running the parser *)
(* ================================================================== *)

(** Small stand-ins for [new URL] and [decodeURIComponent], used only
    to run the parser on the concrete texts of the examples: every
    theorem about the parser takes the two functions as parameters. They
    cover URLs of the shape [scheme://[user[:password]@]host[:port][/path]]
    over unreserved characters, and escapes of code points up to U+00FF.
    Elsewhere they answer [Raise], also where the platform accepts or
    rewrites the text: URLs of the special schemes ([ws], [wss]), URLs
    without the two slashes after the scheme, paths with dot segments. *)
Module Reference.
Import JsString.

Definition URIError : JsError := ErrorObject "URIError" "URI malformed".
Definition InvalidURL : JsError := ErrorObject "TypeError" "Invalid URL".

Definition hexValue (c : ascii) : option nat :=
  let n := nat_of_ascii c in
  if isDigit c then Some (n - 48)
  else if ((65 <=? n) && (n <=? 70))%nat then Some (n - 55)
  else if ((97 <=? n) && (n <=? 102))%nat then Some (n - 87)
  else None.

Definition hexByte (h1 h2 : ascii) : option nat :=
  match hexValue h1, hexValue h2 with
  | Some a, Some b => Some (16 * a + b)
  | _, _ => None
  end.

Definition consResult (c : ascii) (r : Result string) : Result string :=
  match r with Ok s => Ok (String c s) | Raise e => Raise e end.

(** ECMA-262 Decode with an empty reserved set. One escaped octet below
    0x80 is its character; a lead octet C2 or C3 with a continuation
    octet is the code point U+0080..U+00FF; an escape that is cut short,
    is not hexadecimal or is no UTF-8 is a [URIError]. Longer sequences
    encode code points the model's alphabet lacks and are not covered. *)
Fixpoint decodeURIComponent (s : string) : Result string :=
  match s with
  | EmptyString => Ok EmptyString
  | String "%" (String h1 (String h2 rest)) =>
      match hexByte h1 h2 with
      | None => Raise URIError
      | Some b =>
          if (b <? 128)%nat then consResult (ascii_of_nat b) (decodeURIComponent rest)
          else if ((194 <=? b) && (b <=? 195))%nat then
            match rest with
            | String "%" (String g1 (String g2 rest2)) =>
                match hexByte g1 g2 with
                | Some b2 =>
                    if ((128 <=? b2) && (b2 <? 192))%nat
                    then consResult (ascii_of_nat ((b - 192) * 64 + (b2 - 128)))
                           (decodeURIComponent rest2)
                    else Raise URIError
                | None => Raise URIError
                end
            | _ => Raise URIError
            end
          else Raise URIError
      end
  | String "%" _ => Raise URIError
  | String c rest => consResult c (decodeURIComponent rest)
  end.

Definition isSchemeChar (c : ascii) : bool := isLower c.
Definition isHostChar (c : ascii) : bool :=
  isLower c || isDigit c || Ascii.eqb c "." || Ascii.eqb c "-".
Definition isUserChar (c : ascii) : bool :=
  isLower c || isUpper c || isDigit c || Ascii.eqb c "." || Ascii.eqb c "-"
  || Ascii.eqb c "_" || Ascii.eqb c "~".
Definition isPathChar (c : ascii) : bool :=
  isUserChar c || Ascii.eqb c "/" || Ascii.eqb c "%".

Definition notChar (d : ascii) (c : ascii) : bool := negb (Ascii.eqb c d).

(** A full stop follows a slash somewhere in the path: the path may
    hold a dot segment, which the URL parser removes. *)
Fixpoint hasDotSegment (path : string) : bool :=
  match path with
  | EmptyString => false
  | String _ rest => startsWith path "/." || hasDotSegment rest
  end.

(** [scheme://authority/path] for the schemes that are not special
    ([nats], [tls]): lower-case scheme and host, a port of at most four
    digits without leading zero, a path without characters that the
    URL parser would escape and without dot segments. The authority ends
    at the first slash. *)
Definition newURL (value : string) : Result Parser.URL :=
  let scheme := takeWhile (notChar ":") value in
  let afterScheme := sliceFrom (String.length scheme) value in
  if negb (startsWith afterScheme "://") || isEmpty scheme
     || negb (forallChars isSchemeChar scheme)
  then Raise InvalidURL
  else
    let rest := sliceFrom 3 afterScheme in
    let authority := takeWhile (notChar "/") rest in
    let path := sliceFrom (String.length authority) rest in
    let '(userinfo, hostport) :=
      match indexOfChar "@" authority with
      | Some at_ => (sliceTo at_ authority, sliceFrom (S at_) authority)
      | None => ("", authority)
      end in
    let user := takeWhile (notChar ":") userinfo in
    let pass := sliceFrom (S (String.length user)) userinfo in
    let host := takeWhile (notChar ":") hostport in
    let portText := sliceFrom (S (String.length host)) hostport in
    if isEmpty host || negb (forallChars isHostChar host)
       || negb (forallChars isUserChar user) || negb (forallChars isUserChar pass)
       || negb (forallChars isDigit portText) || startsWith portText "0"
       || (4 <? String.length portText)%nat
       || negb (forallChars isPathChar path) || hasDotSegment path
       || startsWith scheme "ws"
    then Raise InvalidURL
    else Ok {| Parser.protocol := scheme ++ ":";
               Parser.username := user;
               Parser.password := pass;
               Parser.hostname := host;
               Parser.port := portText;
               Parser.pathname := path |}.

(** Identifiers of the canonical shape, one per call number. *)
Definition randomUUID (n : nat) : string :=
  "00000000-0000-4000-8000-00000000000" ++ String (ascii_of_nat (48 + Nat.modulo n 10)) "".

Definition parseNatsDocument (text : string) : Result (list Parser.NatsAction * nat) :=
  Parser.parseNatsDocument newURL decodeURIComponent randomUUID text 0.

End Reference.

(* ================================================================== *)
(** ** Messages and JSON values (services/nats-types) *)
(* ================================================================== *)

(** The interfaces of services/nats-types, as nats-session uses them. *)
Module NatsTypes.
Import JsString.

Section Numbers.

(** The numbers of the platform (IEEE doubles) are kept abstract. *)
Variable number : Type.

(** What [JSON.parse] returns. The fields of [JObject] are the own
    properties of the object, in property order, each key once. *)
Inductive JsonValue :=
  | JNull
  | JBool (b : bool)
  | JNumber (n : number)
  | JString (s : string)
  | JArray (items : list JsonValue)
  | JObject (fields : list (string * JsonValue)).

(** Headers of a message: [get(name)] and the iteration over entries. *)
Record HeadersLike := {
  get : string -> option string;
  headerEntries : list (string * string)
}.

(** A message of the broker client, field by field: [msg.subject],
    [msg.reply], [msg.headers], the outcome of [msg.json()] (it throws
    when the body is no JSON), [msg.string()], and [msg.ack], absent or
    with the outcome of calling it. *)
Record MsgLike := {
  msgSubject : string;
  msgReply : option string;
  msgHeaders : option HeadersLike;
  msgJson : Result JsonValue;
  msgString : string;
  msgAck : option (Result unit)
}.

End Numbers.

Arguments JNull {number}.
Arguments JBool {number} b.
Arguments JNumber {number} n.
Arguments JString {number} s.
Arguments JArray {number} items.
Arguments JObject {number} fields.
Arguments msgSubject {number} _.
Arguments msgReply {number} _.
Arguments msgHeaders {number} _.
Arguments msgJson {number} _.
Arguments msgString {number} _.
Arguments msgAck {number} _.

Definition HeaderMap : Type := list (string * string).

End NatsTypes.

(* ================================================================== *)
(** ** Reply templates (interpolateTemplate of nats-session) *)
(* ================================================================== *)

Module Template.
Import JsString NatsTypes.

(** *** [String.prototype.replace] with a global pattern *)

(** GetSubstitution for a pattern without capture groups: [$$] is a
    dollar, [$&] the match, [$`] the text before it, [$'] the text
    after it; every other character stands for itself. *)
Fixpoint getSubstitution (replacement before matched after : string) : string :=
  match replacement with
  | EmptyString => EmptyString
  | String "$" (String "$" rest) =>
      String "$" (getSubstitution rest before matched after)
  | String "$" (String "&" rest) =>
      matched ++ getSubstitution rest before matched after
  | String "$" (String "`" rest) =>
      before ++ getSubstitution rest before matched after
  | String "$" (String "'" rest) =>
      after ++ getSubstitution rest before matched after
  | String c rest => String c (getSubstitution rest before matched after)
  end.

(** The match of [/prefix/] or [/prefix([class]+)/] at the start of [s]:
    the text captured by the group ([""] for a pattern without group). *)
Definition matchAt (prefix : string) (keyChar : option (ascii -> bool)) (s : string)
  : option string :=
  if startsWith s prefix then
    match keyChar with
    | None => Some EmptyString
    | Some inClass =>
        let key := takeWhile inClass (sliceFrom (String.length prefix) s) in
        if isEmpty key then None else Some key
    end
  else None.

(** [s.replace(pattern, replacer)] for a global pattern of the shape
    above. [replacer before matched key after] is the text put in place
    of a match; [before] is the text read so far and [skip] the number
    of characters of the last match still to pass over. *)
Fixpoint replaceLoop (prefix : string) (keyChar : option (ascii -> bool))
    (replacer : string -> string -> string -> string -> string)
    (before : string) (s : string) (skip : nat) : string :=
  match s with
  | EmptyString => EmptyString
  | String c rest =>
      match skip with
      | S k => replaceLoop prefix keyChar replacer (before ++ String c "") rest k
      | O =>
          match matchAt prefix keyChar s with
          | Some key =>
              let matched := prefix ++ key in
              let after := sliceFrom (String.length matched) s in
              replacer before matched key after
              ++ replaceLoop prefix keyChar replacer (before ++ String c "") rest
                   (String.length matched - 1)
          | None =>
              String c (replaceLoop prefix keyChar replacer (before ++ String c "") rest 0)
          end
      end
  end.

Definition replaceAll (prefix : string) (keyChar : option (ascii -> bool))
    (replacer : string -> string -> string -> string -> string) (s : string) : string :=
  replaceLoop prefix keyChar replacer "" s 0.

(** A replacement given as a string goes through GetSubstitution. *)
Definition replaceAllWithString (prefix replacement s : string) : string :=
  replaceAll prefix None
    (fun before matched _ after => getSubstitution replacement before matched after) s.

(** A replacement given as a function of the captured group. *)
Definition replaceAllWithFunction (prefix : string) (inClass : ascii -> bool)
    (callback : string -> string) (s : string) : string :=
  replaceAll prefix (Some inClass) (fun _ _ key _ => callback key) s.

(** [[a-zA-Z0-9_-]] and [[a-zA-Z0-9_]]. *)
Definition isHeaderNameChar (c : ascii) : bool :=
  isLower c || isUpper c || isDigit c || Ascii.eqb c "_" || Ascii.eqb c "-".
Definition isFieldNameChar (c : ascii) : bool :=
  isLower c || isUpper c || isDigit c || Ascii.eqb c "_".

Section Json.

Variable number : Type.
(** [Number::toString] of a finite number, as [JSON.stringify] writes it. *)
Variable numberToString : number -> string.
(** The number that is the length of a string or an array. *)
Variable numberOfNat : nat -> number.
(** For a decoded value and a key that is no own property of it: [None]
    when the prototype chain has no such member either; otherwise what
    [JSON.stringify] returns for the inherited member, [Some None] being
    [undefined] (the member is a function). *)
Variable inheritedJson : JsonValue number -> string -> option (option string).

Definition hexDigit (n : nat) : ascii :=
  if (n <? 10)%nat then ascii_of_nat (48 + n) else ascii_of_nat (87 + n).

(** QuoteJSONString, character by character. *)
Definition quoteJsonChar (c : ascii) : string :=
  let n := nat_of_ascii c in
  if Ascii.eqb c DQUOTE then String "\" (String DQUOTE "")
  else if Ascii.eqb c "\" then "\\"
  else if (n =? 8)%nat then "\b"
  else if (n =? 12)%nat then "\f"
  else if (n =? 10)%nat then "\n"
  else if (n =? 13)%nat then "\r"
  else if (n =? 9)%nat then "\t"
  else if (n <? 32)%nat
       then "\u00" ++ String (hexDigit (n / 16)) (String (hexDigit (Nat.modulo n 16)) "")
  else String c "".

Fixpoint quoteJsonBody (s : string) : string :=
  match s with
  | EmptyString => EmptyString
  | String c rest => quoteJsonChar c ++ quoteJsonBody rest
  end.

Definition quoteJsonString (s : string) : string :=
  String DQUOTE (quoteJsonBody s ++ String DQUOTE "").

(** [JSON.stringify(value)] without indentation. *)
Fixpoint stringify (value : JsonValue number) : string :=
  match value with
  | JNull => "null"
  | JBool true => "true"
  | JBool false => "false"
  | JNumber n => numberToString n
  | JString s => quoteJsonString s
  | JArray items => "[" ++ join "," (map stringify items) ++ "]"
  | JObject fields =>
      "{" ++ join ","
               (map (fun field => quoteJsonString (fst field) ++ ":" ++ stringify (snd field))
                    fields)
          ++ "}"
  end.

Fixpoint lookupField (fields : list (string * JsonValue number)) (key : string)
  : option (JsonValue number) :=
  match fields with
  | [] => None
  | (k, v) :: rest => if String.eqb k key then Some v else lookupField rest key
  end.

(** A canonical array index: [0], or digits that do not start with 0. *)
Definition arrayIndex (key : string) : option nat :=
  if isEmpty key || negb (forallChars isDigit key)
     || (startsWith key "0" && negb (String.eqb key "0"))
  then None
  else Some (Z.to_nat (Parser.digitsValue key 0)).

(** The own property [key] of a decoded value. *)
Definition ownProperty (data : JsonValue number) (key : string)
  : option (JsonValue number) :=
  match data with
  | JObject fields => lookupField fields key
  | JArray items =>
      if String.eqb key "length" then Some (JNumber (numberOfNat (List.length items)))
      else match arrayIndex key with
           | Some i => nth_error items i
           | None => None
           end
  | JString s =>
      if String.eqb key "length" then Some (JNumber (numberOfNat (String.length s)))
      else match arrayIndex key with
           | Some i => option_map (fun c => JString (String c "")) (String.get i s)
           | None => None
           end
  | _ => None
  end.

(** [safeStringResponse]. *)
Definition safeStringResponse (msg : MsgLike number) : string :=
  match msgJson msg with
  | Ok value => stringify value
  | Raise _ => msgString msg
  end.

(** The callback of the [$json] pass, for the captured field name. *)
Definition jsonCallback (msg : MsgLike number) (key : string) : string :=
  match msgJson msg with
  | Raise _ => ""
  | Ok JNull => stringify (JString "")
  | Ok data =>
      match ownProperty data key with
      | Some (JString s) => s
      | Some JNull => stringify (JString "")
      | Some value => stringify value
      | None =>
          match inheritedJson data key with
          | None => stringify (JString "")
          | Some (Some text) => text
          | Some None => "undefined"
          end
      end
  end.

(** The callback of the [$msg.headers] pass. *)
Definition headerCallback (msg : MsgLike number) (header : string) : string :=
  match msgHeaders msg with
  | None => ""
  | Some h => match get h header with Some v => v | None => "" end
  end.

(** The three [$msg] passes, in the order of the source. *)
Definition msgPasses (template : string) (msg : MsgLike number) : string :=
  let result := template in
  let result := replaceAllWithString "$msg.data" (safeStringResponse msg) result in
  let result := replaceAllWithString "$msg.subject" (msgSubject msg) result in
  replaceAllWithFunction "$msg.headers." isHeaderNameChar (headerCallback msg) result.

Definition jsonPass (msg : MsgLike number) (s : string) : string :=
  replaceAllWithFunction "$json." isFieldNameChar (jsonCallback msg) s.

Definition interpolateTemplate (template : string) (msg : MsgLike number) : string :=
  jsonPass msg (msgPasses template msg).

End Json.

End Template.

(* ================================================================== *)
(** ** A reference platform for rendering templates *)
(* ================================================================== *)

(** Stand-ins used only to run the examples: every theorem about
    templates takes them as parameters. The numbers are integers, printed
    in digits as the platform prints an integer below 10^21. The
    inherited members are those of [Object.prototype]; the members that
    [Array.prototype], [String.prototype] and the like add for a body
    that is no object are not listed. *)
Module TemplateReference.
Import JsString NatsTypes.

Definition numberToString (n : Z) : string :=
  DecimalString.NilZero.string_of_int (Z.to_int n).

Definition numberOfNat (n : nat) : Z := Z.of_nat n.

Definition objectPrototypeMethods : list string :=
  ["constructor"; "hasOwnProperty"; "isPrototypeOf"; "propertyIsEnumerable";
   "toLocaleString"; "toString"; "valueOf"; "__defineGetter__";
   "__defineSetter__"; "__lookupGetter__"; "__lookupSetter__"].

Definition inheritedJson (data : JsonValue Z) (key : string) : option (option string) :=
  if Parser.setHas objectPrototypeMethods key then Some None
  else if String.eqb key "__proto__" then
    match data with
    | JObject _ => Some (Some "{}")
    | JArray _ => Some (Some "[]")
    | JString _ => Some (Some (String DQUOTE (String DQUOTE "")))
    | JNumber _ => Some (Some "0")
    | JBool _ => Some (Some "false")
    | JNull => None
    end
  else None.

Definition interpolateTemplate (template : string) (msg : MsgLike Z) : string :=
  Template.interpolateTemplate Z numberToString numberOfNat inheritedJson template msg.

Definition headersOf (entries : list (string * string)) : HeadersLike :=
  {| get := fun name => JsMap.get entries name; headerEntries := entries |}.

(** The message of the test of [interpolateTemplate]: body [{"value":5}],
    subject [lab.value], header [requestId: 123], reply address [inbox]. *)
Definition valueMessage : MsgLike Z :=
  {| msgSubject := "lab.value";
     msgReply := Some "inbox";
     msgHeaders := Some (headersOf [("requestId", "123")]);
     msgJson := Ok (JObject [("value", JNumber 5%Z)]);
     msgString := "{" ++ String DQUOTE ("value" ++ String DQUOTE ":5}");
     msgAck := None |}.

(** A message whose body is the empty object [{}]. *)
Definition emptyObjectMessage : MsgLike Z :=
  {| msgSubject := "lab.echo";
     msgReply := Some "inbox";
     msgHeaders := None;
     msgJson := Ok (JObject []);
     msgString := "{}";
     msgAck := None |}.

End TemplateReference.


(* ================================================================== *)
(** ** The session manager (NatsSession of nats-session) *)
(* ================================================================== *)

(** The class is embedded as state passing. A state is the five maps of
    the session together with the world around it: the trace of calls
    made on collaborators (the connector, connections, subscriptions,
    sinks), and the counters that number those calls. The trace also
    records each write of the connection table, so that the order of
    calls and writes can be stated.

    An asynchronous call that may be rejected returns a [Result]; a
    rejection propagates like an exception of the awaiting method.
    Synchronous calls on collaborators ([subscribe], [unsubscribe],
    [jetstream()], [appendLine], [now]) are taken to return. A method
    runs from its call to its completion without another method of the
    session running at its await points. The consume loop started for a
    context runs when the broker delivers messages and is not part of
    the embedding. *)
Module Session.
Import JsString NatsTypes.

Record NatsConnectOptions := {
  servers : list string;
  user : option string;
  pass : option string
}.

(** [connection.info], each part as a template literal prints it. *)
Record ServerInfo := {
  client_id : option string;
  host : option string;
  infoPort : option string
}.

Record LogItem := {
  title : string;
  body : option string;
  itemHeaders : option HeaderMap
}.

Record LogBlock := {
  meta : list (string * string);
  items : list LogItem
}.

(** A sink and a subscription are known by their identity. *)
Definition LogSink : Type := nat.

Record SubscriptionLike := { subscriptionId : nat }.

Record JetStreamPullOptions := { batchSize : Z; timeoutMs : Z }.

Record FetchOptions := { max_messages : Z; expires : Z }.

(** Calls on collaborators and writes of the connection table. *)
Inductive Event :=
  | EConnect (options : NatsConnectOptions)
  | ESubscribe (connection : nat) (subject : string) (subscription : nat)
  | EUnsubscribe (subscription : nat)
  | EClose (connection : nat)
  | EInstall (serverKey : string) (connection : nat)
  | EAppendLog (sink : LogSink) (block : LogBlock) (separator : option string).

Record SubscriptionContext := {
  subject : string;
  server : string;
  subscription : SubscriptionLike;
  sink : LogSink;
  template : option string;
  payload : option string;
  headers : option HeaderMap
}.

Inductive StoreKind := subscriptionStore | replyStore.

Definition subjectKey (server subject : string) : string :=
  server ++ "|" ++ subject.

Definition orZero (count : option Z) : Z :=
  match count with Some n => n | None => 0%Z end.

Definition incrementCount (store : JsMap.t Z) (server subject : string) : JsMap.t Z :=
  let key := subjectKey server subject in
  JsMap.set store key (orZero (JsMap.get store key) + 1)%Z.

Definition decrementCount (store : JsMap.t Z) (server subject : string) : JsMap.t Z :=
  let key := subjectKey server subject in
  let current := orZero (JsMap.get store key) in
  if (current <=? 1)%Z then JsMap.delete store key
  else JsMap.set store key (current - 1)%Z.

(** [s.endsWith(suffix)]. *)
Definition endsWith (s suffix : string) : bool :=
  (String.length suffix <=? String.length s)%nat
  && String.eqb (sliceFrom (String.length s - String.length suffix) s) suffix.

(** [s.includes(part)]. *)
Fixpoint includes (s part : string) : bool :=
  startsWith s part
  || match s with
     | EmptyString => false
     | String _ rest => includes rest part
     end.

(** The [forEach] of [collectCount], entry by entry. *)
Fixpoint collectCount (store : JsMap.t Z) (subject : string) : Z :=
  match store with
  | [] => 0%Z
  | (key, value) :: rest =>
      ((if endsWith key ("|" ++ subject) then value else 0)
       + collectCount rest subject)%Z
  end.

Definition formatError (error : JsError) : string :=
  match error with
  | ErrorObject _ message => message
  | ThrownValue rendered => rendered
  end.

Section Collaborators.

Variable number : Type.

(** The messages a fetch delivers, and the error that ends the
    iteration when it fails. *)
Record MessageIterator := {
  delivered : list (MsgLike number);
  failure : option JsError
}.

Record Consumer := { fetch : FetchOptions -> Result MessageIterator }.

Record JetStreamClient := { consumersGet : string -> string -> Result Consumer }.

(** A connection of the broker client: [jetstream] is absent on a
    connection without the capability; [close] is the outcome of
    awaiting [close()]. *)
Record NatsConnectionLike := {
  connectionId : nat;
  info : option ServerInfo;
  jetstream : option JetStreamClient;
  close : Result unit
}.

Record ManagedConnection := {
  serverKey : string;
  rawUrl : string;
  connection : NatsConnectionLike;
  markedClosed : bool
}.

Record NatsSession := {
  connections : JsMap.t ManagedConnection;
  subscriptions : JsMap.t SubscriptionContext;
  replies : JsMap.t SubscriptionContext;
  subscriptionCounts : JsMap.t Z;
  replyCounts : JsMap.t Z
}.

Record World := {
  trace : list Event;
  connectorCalls : nat;
  clock : nat;
  subscribeCalls : nat
}.

Record State := { session : NatsSession; world : World }.

Definition emptySession : NatsSession :=
  {| connections := JsMap.empty; subscriptions := JsMap.empty;
     replies := JsMap.empty; subscriptionCounts := JsMap.empty;
     replyCounts := JsMap.empty |}.

Definition initialState : State :=
  {| session := emptySession;
     world := {| trace := []; connectorCalls := 0; clock := 0; subscribeCalls := 0 |} |}.

(** [new URL(url)]. *)
Variable newURL : string -> Result Parser.URL.
(** The connector given to the constructor: the outcome of its call
    number [n] with the given options. *)
Variable connector : nat -> NatsConnectOptions -> Result NatsConnectionLike.
(** [now().toISOString()] at the call number [n]. *)
Variable now : nat -> string.
(** [readMsgHeaders] of services/header-utils. *)
Variable readMsgHeaders : option HeadersLike -> option HeaderMap.

(** *** Methods as state transformers *)

Definition Op (A : Type) : Type := State -> Result A * State.

Definition ret {A : Type} (a : A) : Op A := fun st => (Ok a, st).

Definition throw {A : Type} (error : JsError) : Op A := fun st => (Raise error, st).

Definition bind {A B : Type} (m : Op A) (k : A -> Op B) : Op B :=
  fun st =>
    match m st with
    | (Ok a, st1) => k a st1
    | (Raise error, st1) => (Raise error, st1)
    end.

Notation "x <- m ;; k" := (bind m (fun x => k))
  (at level 61, m at next level, right associativity).
Notation "m ;; k" := (bind m (fun _ => k))
  (at level 61, right associativity).

(** [try { body } catch (error) { handler }]. *)
Definition tryCatch {A : Type} (body : Op A) (handler : JsError -> Op A) : Op A :=
  fun st =>
    match body st with
    | (Ok a, st1) => (Ok a, st1)
    | (Raise error, st1) => handler error st1
    end.

(** Awaiting a promise with a known outcome. *)
Definition await {A : Type} (outcome : Result A) : Op A := fun st => (outcome, st).

Definition gets {A : Type} (read : NatsSession -> A) : Op A :=
  fun st => (Ok (read (session st)), st).

Definition modify (update : NatsSession -> NatsSession) : Op unit :=
  fun st => (Ok tt, {| session := update (session st); world := world st |}).

Definition emit (event : Event) : Op unit :=
  fun st =>
    let w := world st in
    (Ok tt,
     {| session := session st;
        world := {| trace := push (trace w) event;
                    connectorCalls := connectorCalls w;
                    clock := clock w;
                    subscribeCalls := subscribeCalls w |} |}).

Fixpoint forEach {A : Type} (items : list A) (step : A -> Op unit) : Op unit :=
  match items with
  | [] => ret tt
  | item :: rest => step item ;; forEach rest step
  end.

(** *** Access to the two stores and their counters *)

Definition getStore (kind : StoreKind) (s : NatsSession) : JsMap.t SubscriptionContext :=
  match kind with
  | subscriptionStore => subscriptions s
  | replyStore => replies s
  end.

Definition getCounts (kind : StoreKind) (s : NatsSession) : JsMap.t Z :=
  match kind with
  | subscriptionStore => subscriptionCounts s
  | replyStore => replyCounts s
  end.

Definition setStore (kind : StoreKind) (store : JsMap.t SubscriptionContext)
    (s : NatsSession) : NatsSession :=
  match kind with
  | subscriptionStore =>
      {| connections := connections s; subscriptions := store; replies := replies s;
         subscriptionCounts := subscriptionCounts s; replyCounts := replyCounts s |}
  | replyStore =>
      {| connections := connections s; subscriptions := subscriptions s; replies := store;
         subscriptionCounts := subscriptionCounts s; replyCounts := replyCounts s |}
  end.

Definition setCounts (kind : StoreKind) (counts : JsMap.t Z)
    (s : NatsSession) : NatsSession :=
  match kind with
  | subscriptionStore =>
      {| connections := connections s; subscriptions := subscriptions s;
         replies := replies s;
         subscriptionCounts := counts; replyCounts := replyCounts s |}
  | replyStore =>
      {| connections := connections s; subscriptions := subscriptions s;
         replies := replies s;
         subscriptionCounts := subscriptionCounts s; replyCounts := counts |}
  end.

Definition setConnections (table : JsMap.t ManagedConnection)
    (s : NatsSession) : NatsSession :=
  {| connections := table; subscriptions := subscriptions s; replies := replies s;
     subscriptionCounts := subscriptionCounts s; replyCounts := replyCounts s |}.

(** *** Private helpers *)

Definition timestamp : Op string :=
  fun st =>
    let w := world st in
    (Ok (now (clock w)),
     {| session := session st;
        world := {| trace := trace w;
                    connectorCalls := connectorCalls w;
                    clock := S (clock w);
                    subscribeCalls := subscribeCalls w |} |}).

Definition connectionInfo (nc : NatsConnectionLike) : string :=
  let part (read : ServerInfo -> option string) (fallback : string) :=
    match info nc with
    | Some i => match read i with Some text => text | None => fallback end
    | None => fallback
    end in
  "[" ++ part client_id "client" ++ "@" ++ part host "host" ++ ":"
      ++ part infoPort "port" ++ "]".

Definition appendLogBlock (sink : LogSink) (block : LogBlock)
    (separator : option string) : Op unit :=
  emit (EAppendLog sink block separator).

(** What [buildConnectOptions] makes of the parsed URL. *)
Definition optionsOfUrl (parsed : Parser.URL) : NatsConnectOptions :=
  let hostText :=
    Parser.protocol parsed ++ "//" ++ Parser.hostname parsed
    ++ (if truthy (Parser.port parsed) then ":" ++ Parser.port parsed else "") in
  {| servers := [hostText];
     user := if truthy (Parser.username parsed)
             then Some (Parser.username parsed) else None;
     pass := if truthy (Parser.password parsed)
             then Some (Parser.password parsed) else None |}.

Definition buildConnectOptions (url : string) : Op NatsConnectOptions :=
  parsed <- await (newURL url) ;;
  ret (optionsOfUrl parsed).

(** What [normalizeServerUrl] makes of the parsed URL. *)
Definition serverKeyOfUrl (parsed : Parser.URL) : string :=
  let auth :=
    if truthy (Parser.username parsed)
    then Parser.username parsed
         ++ (if truthy (Parser.password parsed)
             then ":" ++ Parser.password parsed else "")
         ++ "@"
    else "" in
  let portText :=
    if truthy (Parser.port parsed) then ":" ++ Parser.port parsed else "" in
  Parser.protocol parsed ++ "//" ++ auth ++ Parser.hostname parsed ++ portText.

Definition normalizeServerUrl (url : string) : Op string :=
  parsed <- await (newURL url) ;;
  ret (serverKeyOfUrl parsed).

(** [await this.connector(options)]. *)
Definition callConnector (options : NatsConnectOptions) : Op NatsConnectionLike :=
  fun st =>
    let w := world st in
    (connector (connectorCalls w) options,
     {| session := session st;
        world := {| trace := push (trace w) (EConnect options);
                    connectorCalls := S (connectorCalls w);
                    clock := clock w;
                    subscribeCalls := subscribeCalls w |} |}).

(** [nc.subscribe(subject)]: a fresh subscription. *)
Definition subscribe (nc : NatsConnectionLike) (subject : string) : Op SubscriptionLike :=
  fun st =>
    let w := world st in
    let id := subscribeCalls w in
    (Ok {| subscriptionId := id |},
     {| session := session st;
        world := {| trace := push (trace w) (ESubscribe (connectionId nc) subject id);
                    connectorCalls := connectorCalls w;
                    clock := clock w;
                    subscribeCalls := S id |} |}).

Definition installConnection (managed : ManagedConnection) : Op unit :=
  modify (fun s => setConnections (JsMap.set (connections s) (serverKey managed) managed) s) ;;
  emit (EInstall (serverKey managed) (connectionId (connection managed))).

Definition getConnection (url : string) : Op ManagedConnection :=
  key <- normalizeServerUrl url ;;
  existing <- gets (fun s => JsMap.get (connections s) key) ;;
  match existing with
  | Some managed => ret managed
  | None =>
      options <- buildConnectOptions url ;;
      nc <- callConnector options ;;
      let managed :=
        {| serverKey := key; rawUrl := url; connection := nc; markedClosed := false |} in
      installConnection managed ;;
      ret managed
  end.

Definition stopContext (kind : StoreKind) (key : string) : Op unit :=
  context <- gets (fun s => JsMap.get (getStore kind s) key) ;;
  match context with
  | None => ret tt
  | Some context =>
      emit (EUnsubscribe (subscriptionId (subscription context))) ;;
      modify (fun s => setStore kind (JsMap.delete (getStore kind s) key) s) ;;
      modify (fun s =>
        setCounts kind
          (decrementCount (getCounts kind s) (server context) (subject context)) s)
  end.

Definition stopAll (kind : StoreKind) : Op unit :=
  keys <- gets (fun s => JsMap.keys (getStore kind s)) ;;
  forEach keys (stopContext kind).

(** *** Public methods *)

Definition startSubscription (serverUrl subjectText : string) (sinkId : LogSink)
    (key : string) : Op unit :=
  active <- gets (fun s => JsMap.has (subscriptions s) key) ;;
  if active then ret tt
  else
    managed <- getConnection serverUrl ;;
    sub <- subscribe (connection managed) subjectText ;;
    modify (fun s =>
      setStore subscriptionStore
        (JsMap.set (subscriptions s) key
           {| subject := subjectText; server := serverKey managed;
              subscription := sub; sink := sinkId;
              template := None; payload := None; headers := None |}) s) ;;
    modify (fun s =>
      setCounts subscriptionStore
        (incrementCount (subscriptionCounts s) (serverKey managed) subjectText) s).

Definition stopSubscription (key : string) : Op unit :=
  stopContext subscriptionStore key.

Definition startReplyHandler (serverUrl subjectText : string)
    (templateText payloadText : option string) (sinkId : LogSink) (key : string)
    (replyHeaders : option HeaderMap) : Op unit :=
  active <- gets (fun s => JsMap.has (replies s) key) ;;
  if active then ret tt
  else
    managed <- getConnection serverUrl ;;
    sub <- subscribe (connection managed) subjectText ;;
    modify (fun s =>
      setStore replyStore
        (JsMap.set (replies s) key
           {| subject := subjectText; server := serverKey managed;
              subscription := sub; sink := sinkId;
              template := templateText; payload := payloadText;
              headers := replyHeaders |}) s) ;;
    modify (fun s =>
      setCounts replyStore
        (incrementCount (replyCounts s) (serverKey managed) subjectText) s).

Definition stopReplyHandler (key : string) : Op unit :=
  stopContext replyStore key.

Definition isSubscribed (key : string) (s : NatsSession) : bool :=
  JsMap.has (subscriptions s) key.

Definition isReplyHandlerActive (key : string) (s : NatsSession) : bool :=
  JsMap.has (replies s) key.

Definition getSubscriptionCount (subjectText : string) (s : NatsSession) : Z :=
  collectCount (subscriptionCounts s) subjectText.

Definition getReplyHandlerCount (subjectText : string) (s : NatsSession) : Z :=
  collectCount (replyCounts s) subjectText.

Definition connectionCount (s : NatsSession) : nat := JsMap.size (connections s).

Definition markConnectionClosed (key : string) : Op unit :=
  existing <- gets (fun s => JsMap.get (connections s) key) ;;
  match existing with
  | None => ret tt
  | Some managed =>
      modify (fun s =>
        setConnections
          (JsMap.set (connections s) key
             {| serverKey := serverKey managed; rawUrl := rawUrl managed;
                connection := connection managed; markedClosed := true |}) s)
  end.

Definition reset : Op unit :=
  stopAll subscriptionStore ;;
  stopAll replyStore ;;
  table <- gets connections ;;
  forEach (map snd table)
    (fun entry => emit (EClose (connectionId (connection entry)))) ;;
  modify (setConnections JsMap.empty).

(** The body of the [for await] loop of [pullJetStream] for one message. *)
Definition pullMessage (managed : ManagedConnection) (prefix streamName durableName : string)
    (sinkId : LogSink) (msg : MsgLike number) : Op unit :=
  stamp <- timestamp ;;
  appendLogBlock sinkId
    {| meta := [("timestamp", stamp); ("connection", prefix);
                ("stream", streamName); ("durable", durableName)];
       items := [{| title := "Received"; body := Some (msgString msg);
                    itemHeaders := readMsgHeaders (msgHeaders msg) |}] |}
    (Some "") ;;
  match msgAck msg with
  | None => ret tt
  | Some (Ok _) => ret tt
  | Some (Raise error) =>
      let errorMsg := formatError error in
      (if includes errorMsg "DISCONNECT" || includes errorMsg "CONNECTION"
       then markConnectionClosed (serverKey managed)
       else ret tt) ;;
      stamp1 <- timestamp ;;
      appendLogBlock sinkId
        {| meta := [("timestamp", stamp1); ("connection", prefix);
                    ("stream", streamName); ("durable", durableName)];
           items := [{| title := "Ack error"; body := Some (formatError error);
                        itemHeaders := None |}] |}
        (Some "")
  end.

(** The statements inside the [try] of [pullJetStream]. *)
Definition pullBody (managed : ManagedConnection) (js : JetStreamClient)
    (prefix streamName durableName : string) (batch deadline : Z)
    (sinkId : LogSink) : Op unit :=
  consumer <- await (consumersGet js streamName durableName) ;;
  iterator <- await (fetch consumer {| max_messages := batch; expires := deadline |}) ;;
  forEach (delivered iterator)
    (pullMessage managed prefix streamName durableName sinkId) ;;
  match failure iterator with
  | Some error => throw error
  | None =>
      if (List.length (delivered iterator) =? 0)%nat then
        stamp <- timestamp ;;
        appendLogBlock sinkId
          {| meta := [("timestamp", stamp); ("connection", prefix);
                      ("stream", streamName); ("durable", durableName)];
             items := [{| title := "No messages available"; body := None;
                          itemHeaders := None |}] |}
          None
      else ret tt
  end.

(** The record the [catch] of [pullJetStream] appends. *)
Definition pullErrorBlock (stamp prefix streamName durableName : string)
    (error : JsError) : LogBlock :=
  {| meta := [("timestamp", stamp); ("connection", prefix);
              ("stream", streamName); ("durable", durableName)];
     items := [{| title := "Pull error"; body := Some (formatError error);
                  itemHeaders := None |}] |}.

Definition jetStreamUnavailable : JsError :=
  ErrorObject "Error" "JetStream is not available on this connection".

Definition pullJetStream (serverUrl streamName durableName : string)
    (options : JetStreamPullOptions) (sinkId : LogSink) : Op unit :=
  managed <- getConnection serverUrl ;;
  let nc := connection managed in
  match jetstream nc with
  | None => throw jetStreamUnavailable
  | Some js =>
      let batch := Z.max 1 (batchSize options) in
      let deadline := Z.max 1000 (timeoutMs options) in
      let prefix := connectionInfo nc in
      tryCatch
        (pullBody managed js prefix streamName durableName batch deadline sinkId)
        (fun error =>
           stamp <- timestamp ;;
           appendLogBlock sinkId
             (pullErrorBlock stamp prefix streamName durableName error) None)
  end.

(** The contexts of a store bound to [key], as [reconnectConnection]
    collects them: the entries in order, with their keys. *)
Definition contextsOf (key : string) (store : JsMap.t SubscriptionContext)
  : list (string * SubscriptionContext) :=
  filter (fun entry => String.eqb (server (snd entry)) key) (JsMap.entries store).

Definition noConnectionFound (key : string) : JsError :=
  ErrorObject "Error" ("No connection found for server: " ++ key).

Definition reconnectConnection (key : string) : Op nat :=
  existing <- gets (fun s => JsMap.get (connections s) key) ;;
  match existing with
  | None => throw (noConnectionFound key)
  | Some existing =>
      subsToReconnect <- gets (fun s => contextsOf key (subscriptions s)) ;;
      repliesToReconnect <- gets (fun s => contextsOf key (replies s)) ;;
      options <- buildConnectOptions (rawUrl existing) ;;
      newConnection <- callConnector options ;;
      forEach subsToReconnect
        (fun sub => stopContext subscriptionStore (fst sub)) ;;
      forEach repliesToReconnect
        (fun reply => stopContext replyStore (fst reply)) ;;
      emit (EClose (connectionId (connection existing))) ;;
      await (close (connection existing)) ;;
      installConnection
        {| serverKey := key; rawUrl := rawUrl existing;
           connection := newConnection; markedClosed := false |} ;;
      forEach subsToReconnect
        (fun sub =>
           startSubscription (rawUrl existing) (subject (snd sub)) (sink (snd sub))
             (fst sub)) ;;
      forEach repliesToReconnect
        (fun reply =>
           startReplyHandler (rawUrl existing) (subject (snd reply))
             (template (snd reply)) (payload (snd reply)) (sink (snd reply))
             (fst reply) (headers (snd reply))) ;;
      ret (List.length subsToReconnect + List.length repliesToReconnect)
  end.

End Collaborators.

Arguments delivered {number} _.
Arguments failure {number} _.
Arguments fetch {number} _ _.
Arguments consumersGet {number} _ _ _.
Arguments connectionId {number} _.
Arguments info {number} _.
Arguments jetstream {number} _.
Arguments close {number} _.
Arguments serverKey {number} _.
Arguments rawUrl {number} _.
Arguments connection {number} _.
Arguments markedClosed {number} _.
Arguments connections {number} _.
Arguments subscriptions {number} _.
Arguments replies {number} _.
Arguments subscriptionCounts {number} _.
Arguments replyCounts {number} _.
Arguments session {number} _.
Arguments world {number} _.
Arguments ret {number A} a _.
Arguments throw {number A} error _.
Arguments bind {number A B} m k _.
Arguments tryCatch {number A} body handler _.
Arguments await {number A} outcome _.
Arguments gets {number A} read _.
Arguments modify {number} update _.
Arguments emit {number} event _.
Arguments forEach {number A} items step.
Arguments getStore {number} kind s.
Arguments getCounts {number} kind s.
Arguments setStore {number} kind store s.
Arguments setCounts {number} kind counts s.
Arguments setConnections {number} table s.

End Session.

(* ================================================================== *)
(** ** Reference collaborators for running the session *)
(* ================================================================== *)

Module SessionReference.
Import JsString NatsTypes Session.

Definition now (n : nat) : string := "2024-01-01T00:00:00.000Z".

Definition readMsgHeaders (h : option HeadersLike) : option HeaderMap :=
  option_map headerEntries h.

Definition boom : JsError := ErrorObject "Error" "boom".
Definition refused : JsError := ErrorObject "Error" "connection refused".

Definition textMessage (text : string) : MsgLike Z :=
  {| msgSubject := "lab.metrics"; msgReply := None; msgHeaders := None;
     msgJson := Raise (ErrorObject "SyntaxError" "Unexpected token");
     msgString := text; msgAck := Some (Ok tt) |}.

(** A JetStream client whose consumer lookup succeeds and whose fetch
    is rejected. *)
Definition failingFetch : JetStreamClient Z :=
  {| consumersGet := fun _ _ => Ok {| fetch := fun _ => Raise boom |} |}.

Definition plainConnection (id : nat) : NatsConnectionLike Z :=
  {| connectionId := id;
     info := Some {| client_id := Some "client"; host := Some "localhost";
                     infoPort := Some "4222" |};
     jetstream := None;
     close := Ok tt |}.

Definition jetStreamConnection (id : nat) : NatsConnectionLike Z :=
  {| connectionId := id;
     info := info (plainConnection id);
     jetstream := Some failingFetch;
     close := Ok tt |}.

(** Every call of the connector succeeds with a new connection. *)
Definition connector (n : nat) (options : NatsConnectOptions) : Result (NatsConnectionLike Z) :=
  Ok (plainConnection n).

(** The first call succeeds, every later call is rejected. *)
Definition connectorOnce (n : nat) (options : NatsConnectOptions)
  : Result (NatsConnectionLike Z) :=
  match n with
  | O => Ok (plainConnection 0)
  | S _ => Raise refused
  end.

Definition connectorJetStream (n : nat) (options : NatsConnectOptions)
  : Result (NatsConnectionLike Z) :=
  Ok (jetStreamConnection n).

Definition run {A : Type} (op : Op Z A) (st : State Z) : State Z := snd (op st).

Definition start (connect : nat -> NatsConnectOptions -> Result (NatsConnectionLike Z))
    (key : string) : Op Z unit :=
  startSubscription Z Reference.newURL connect "nats://demo" "lab.metrics" 7 key.

(** The state after one subscription under key [k1]. *)
Definition oneSubscription : State Z := run (start connector "k1") (initialState Z).
Definition oneSubscriptionOnce : State Z := run (start connectorOnce "k1") (initialState Z).

End SessionReference.


(* ================================================================== *)
(** ** Action types and lookup by line (core/nats-actions) *)
(* ================================================================== *)

Module Actions.
Import JsString Parser.

(** The string a [NatsActionType] is at run time. *)
Definition typeName (kind : NatsActionType) : string :=
  match kind with
  | subscribe => "subscribe"
  | request => "request"
  | publish => "publish"
  | reply => "reply"
  | jetstreamPull => "jetstreamPull"
  end.

Definition actionKeywords (kind : NatsActionType) : string :=
  match kind with
  | subscribe => "SUBSCRIBE"
  | request => "REQUEST"
  | publish => "PUBLISH"
  | reply => "REPLY"
  | jetstreamPull => "JETSTREAM"
  end.

Definition isActionType (name : string) : bool :=
  String.eqb name "subscribe" || String.eqb name "request"
  || String.eqb name "publish" || String.eqb name "reply"
  || String.eqb name "jetstreamPull".

(** [actions.find(a => a.lineNumber === line && (!type || a.type === type))];
    a type name is a non-empty string, so [!type] holds of [undefined] only. *)
Definition findActionNearestLine (actions : list NatsAction) (line : nat)
    (kind : option NatsActionType) : option NatsAction :=
  find (fun action =>
          (lineNumber action =? line)%nat
          && match kind with
             | None => true
             | Some wanted => String.eqb (typeName (type action)) (typeName wanted)
             end)
       actions.

End Actions.

(* ================================================================== *)
(** ** The consume loop of a context (NatsSession of nats-session) *)
(* ================================================================== *)

(** What the loop started for a subscription or a reply handler does with
    the messages the broker delivers: the responses it sends and the
    records it appends, in order. A subscription is the list of messages
    it yields and the error that ends the iteration, when it fails.
    [msg.respond] and [appendLogBlock] are taken to return. *)
Module Consumer.
Import JsString NatsTypes Session.

Section Collaborators.

Variable number : Type.
Variable numberToString : number -> string.
Variable numberOfNat : nat -> number.
Variable inheritedJson : JsonValue number -> string -> option (option string).
(** [now().toISOString()] at the call number [n]. *)
Variable now : nat -> string.
(** [readMsgHeaders] and [buildMsgHeaders] of services/header-utils, the
    second with the type of the headers object it builds. *)
Variable readMsgHeaders : option HeadersLike -> option HeaderMap.
Variable MsgHdrs : Type.
Variable buildMsgHeaders : option HeaderMap -> option MsgHdrs.

Inductive Effect :=
  | Respond (msg : MsgLike number) (data : string) (headers : option MsgHdrs)
  | Append (sinkId : LogSink) (block : LogBlock) (separator : option string).

Definition subjectMeta (stamp prefix subjectText : string) : list (string * string) :=
  [("timestamp", stamp); ("connection", prefix); ("subject", subjectText)].

Definition note (text : string) : LogItem :=
  {| title := text; body := None; itemHeaders := None |}.

(** The record of a request and the reply sent for it. *)
Definition exchange (msg : MsgLike number) (response : string)
    (replyHeaders : option HeaderMap) : list LogItem :=
  [ {| title := "Request"; body := Some (msgString msg);
       itemHeaders := readMsgHeaders (msgHeaders msg) |};
    {| title := "Reply"; body := Some response; itemHeaders := replyHeaders |} ].

Definition handleReply (msg : MsgLike number) (subjectText : string) (sinkId : LogSink)
    (stamp prefix : string) (templateText payloadText : option string)
    (replyHeaders : option HeaderMap) : list Effect :=
  if negb (truthyOpt (msgReply msg)) then
    [Append sinkId
       {| meta := subjectMeta stamp prefix subjectText;
          items := [note "Publish received (no reply)"] |}
       None]
  else
    let headers := buildMsgHeaders replyHeaders in
    match templateText with
    | Some templateBody =>
        if truthy templateBody then
          let response :=
            Template.interpolateTemplate number numberToString numberOfNat
              inheritedJson templateBody msg in
          [Respond msg response headers;
           Append sinkId
             {| meta := subjectMeta stamp prefix subjectText;
                items := exchange msg response replyHeaders |}
             (Some "")]
        else
          match payloadText with
          | Some payloadBody =>
              if truthy payloadBody then
                [Respond msg payloadBody headers;
                 Append sinkId
                   {| meta := subjectMeta stamp prefix subjectText;
                      items := exchange msg payloadBody replyHeaders |}
                   (Some "")]
              else
                [Append sinkId
                   {| meta := subjectMeta stamp prefix subjectText;
                      items := [note "Request received without template or payload"] |}
                   None]
          | None =>
              [Append sinkId
                 {| meta := subjectMeta stamp prefix subjectText;
                    items := [note "Request received without template or payload"] |}
                 None]
          end
    | None =>
        match payloadText with
        | Some payloadBody =>
            if truthy payloadBody then
              [Respond msg payloadBody headers;
               Append sinkId
                 {| meta := subjectMeta stamp prefix subjectText;
                    items := exchange msg payloadBody replyHeaders |}
                 (Some "")]
            else
              [Append sinkId
                 {| meta := subjectMeta stamp prefix subjectText;
                    items := [note "Request received without template or payload"] |}
                 None]
        | None =>
            [Append sinkId
               {| meta := subjectMeta stamp prefix subjectText;
                  items := [note "Request received without template or payload"] |}
               None]
        end
    end.

(** The body of the [for await] loop for one message; [clock] numbers
    the calls of [now]. *)
Definition consumeMessage (prefix subjectText : string) (sinkId : LogSink)
    (isReply : bool) (templateText payloadText : option string)
    (replyHeaders : option HeaderMap) (clock : nat) (msg : MsgLike number)
  : list Effect :=
  let stamp := now clock in
  if isReply then
    handleReply msg subjectText sinkId stamp prefix templateText payloadText replyHeaders
  else
    [Append sinkId
       {| meta := subjectMeta stamp prefix subjectText;
          items := [{| title := "Received"; body := Some (msgString msg);
                       itemHeaders := readMsgHeaders (msgHeaders msg) |}] |}
       (Some "")].

Fixpoint consumeLoop (prefix subjectText : string) (sinkId : LogSink)
    (isReply : bool) (templateText payloadText : option string)
    (replyHeaders : option HeaderMap) (msgs : list (MsgLike number)) (clock : nat)
  : list Effect * nat :=
  match msgs with
  | [] => ([], clock)
  | msg :: rest =>
      let here :=
        consumeMessage prefix subjectText sinkId isReply templateText payloadText
          replyHeaders clock msg in
      let '(later, clock1) :=
        consumeLoop prefix subjectText sinkId isReply templateText payloadText
          replyHeaders rest (S clock) in
      ((here ++ later)%list, clock1)
  end.

Definition consumeSubscription (nc : NatsConnectionLike number)
    (subscription : MessageIterator number) (subjectText : string) (sinkId : LogSink)
    (isReply : bool) (templateText payloadText : option string)
    (replyHeaders : option HeaderMap) (clock : nat) : list Effect * nat :=
  let prefix := connectionInfo number nc in
  let '(effects, clock1) :=
    consumeLoop prefix subjectText sinkId isReply templateText payloadText
      replyHeaders (delivered subscription) clock in
  match failure subscription with
  | Some error =>
      (push effects
         (Append sinkId
            {| meta := subjectMeta (now clock1) prefix subjectText;
               items := [{| title := "Error"; body := Some (formatError error);
                            itemHeaders := None |}] |}
            None),
       S clock1)
  | None => (effects, clock1)
  end.

End Collaborators.

Arguments Respond {number MsgHdrs} msg data headers.
Arguments Append {number MsgHdrs} sinkId block separator.

End Consumer.

(* ================================================================== *)
(** ** Properties of the string functions *)
(* ================================================================== *)

Module JsStringFacts.
Import JsString.

Lemma append_assoc (a b c : string) : (a ++ b) ++ c = a ++ (b ++ c).
Proof. induction a as [|x a IH]; simpl; [reflexivity | now rewrite IH]. Qed.

Lemma append_nil_r (a : string) : a ++ "" = a.
Proof. induction a as [|x a IH]; simpl; [reflexivity | now rewrite IH]. Qed.

Lemma length_append (a b : string) :
  String.length (a ++ b) = String.length a + String.length b.
Proof. induction a as [|x a IH]; simpl; [reflexivity | now rewrite IH]. Qed.

Lemma length_takeWhile p s : String.length (takeWhile p s) <= String.length s.
Proof.
  induction s as [|c s IH]; simpl; [lia|]. destruct (p c); simpl; lia.
Qed.

Lemma length_sliceFrom n : forall s, String.length (sliceFrom n s) = String.length s - n.
Proof.
  induction n as [|n IH]; intros s; simpl; [lia|].
  destruct s as [|c s]; simpl; [reflexivity | apply IH].
Qed.

Lemma sliceFrom_append (a b : string) : sliceFrom (String.length a) (a ++ b) = b.
Proof. induction a as [|x a IH]; simpl; [reflexivity | exact IH]. Qed.

Lemma startsWith_length s p : startsWith s p = true -> String.length p <= String.length s.
Proof.
  revert p. induction s as [|c s IH]; intros [|d p] H; cbn [startsWith String.length] in *;
    try lia; try discriminate.
  apply andb_prop in H as [_ H]. apply IH in H. lia.
Qed.

End JsStringFacts.

(* ================================================================== *)
(** ** Properties of [Map] *)
(* ================================================================== *)

Module JsMapFacts.

Section Entries.

Context {V : Type}.
Implicit Types (m : JsMap.t V) (key : string) (value : V).

Lemma get_set_eq m key value : JsMap.get (JsMap.set m key value) key = Some value.
Proof.
  induction m as [|[k v] rest IH]; simpl.
  - now rewrite String.eqb_refl.
  - destruct (String.eqb k key) eqn:Hk; simpl; rewrite Hk; [reflexivity | exact IH].
Qed.

Lemma get_set_ne m key other value :
  key <> other -> JsMap.get (JsMap.set m key value) other = JsMap.get m other.
Proof.
  intros Hne. induction m as [|[k v] rest IH]; simpl.
  - destruct (String.eqb_spec key other); [contradiction | reflexivity].
  - destruct (String.eqb_spec k key) as [->|Hk]; simpl.
    + destruct (String.eqb_spec key other); [contradiction | reflexivity].
    + now rewrite IH.
Qed.

Lemma get_delete_ne m key other :
  key <> other -> JsMap.get (JsMap.delete m key) other = JsMap.get m other.
Proof.
  intros Hne. induction m as [|[k v] rest IH]; simpl; [reflexivity|].
  destruct (String.eqb_spec k key) as [->|Hk]; simpl.
  - destruct (String.eqb_spec key other); [contradiction | reflexivity].
  - now rewrite IH.
Qed.

Lemma get_none_keys m key : ~ In key (JsMap.keys m) -> JsMap.get m key = None.
Proof.
  induction m as [|[k v] rest IH]; simpl; intros Hnot; [reflexivity|].
  destruct (String.eqb_spec k key) as [->|Hk]; [tauto|]. apply IH. tauto.
Qed.

Lemma get_some_keys m key value : JsMap.get m key = Some value -> In key (JsMap.keys m).
Proof.
  induction m as [|[k v] rest IH]; simpl; [discriminate|].
  destruct (String.eqb_spec k key) as [->|Hk]; [now left | right; now apply IH].
Qed.

Lemma keys_delete_subset m key other :
  In other (JsMap.keys (JsMap.delete m key)) -> In other (JsMap.keys m).
Proof.
  induction m as [|[k v] rest IH]; simpl; [tauto|].
  destruct (String.eqb k key); simpl; [tauto|]. intros [H|H]; [now left | right; now apply IH].
Qed.

(** Keys occur once in every Map that [set] and [delete] build from the
    empty one. *)
Lemma wf_empty : JsMap.wf (@JsMap.empty V).
Proof. constructor. Qed.

Lemma wf_delete m key : JsMap.wf m -> JsMap.wf (JsMap.delete m key).
Proof.
  unfold JsMap.wf. induction m as [|[k v] rest IH]; simpl; intros Hwf; [constructor|].
  inversion Hwf as [|? ? Hnot Hrest]; subst.
  destruct (String.eqb k key); simpl; [exact Hrest|].
  constructor; [|now apply IH].
  intros Hin. apply Hnot. now apply keys_delete_subset in Hin.
Qed.

(** On a map whose keys occur once, a deleted key is gone. *)
Lemma get_delete_eq m key : JsMap.wf m -> JsMap.get (JsMap.delete m key) key = None.
Proof.
  unfold JsMap.wf. induction m as [|[k v] rest IH]; simpl; intros Hwf; [reflexivity|].
  inversion Hwf as [|? ? Hnot Hrest]; subst.
  destruct (String.eqb_spec k key) as [->|Hk]; simpl.
  - now apply get_none_keys.
  - destruct (String.eqb_spec k key); [contradiction|]. now apply IH.
Qed.

Lemma keys_set m key value other :
  In other (JsMap.keys (JsMap.set m key value)) <-> other = key \/ In other (JsMap.keys m).
Proof.
  induction m as [|[k v] rest IH]; simpl.
  - intuition congruence.
  - destruct (String.eqb_spec k key) as [->|Hk]; simpl.
    + intuition congruence.
    + rewrite IH. intuition congruence.
Qed.

Lemma wf_set m key value : JsMap.wf m -> JsMap.wf (JsMap.set m key value).
Proof.
  unfold JsMap.wf. induction m as [|[k v] rest IH]; simpl; intros Hwf.
  - constructor; [tauto | constructor].
  - inversion Hwf as [|? ? Hnot Hrest]; subst.
    destruct (String.eqb_spec k key) as [->|Hk]; simpl.
    + now constructor.
    + constructor; [|now apply IH].
      rewrite keys_set. intros [->|Hin]; [congruence | contradiction].
Qed.

Lemma has_get m key : JsMap.has m key = true <-> exists value, JsMap.get m key = Some value.
Proof.
  unfold JsMap.has. destruct (JsMap.get m key) as [v|].
  - split; [now exists v | reflexivity].
  - split; [discriminate | now intros [v Hv]].
Qed.

End Entries.

End JsMapFacts.

(* ================================================================== *)
(** ** Properties of the document segmenter *)
(* ================================================================== *)

Module SegmenterFacts.
Import JsString Parser.

Lemma rejoin_push_block segments current :
  rejoin (push segments (block current)) = (rejoin segments ++ current)%list.
Proof.
  unfold rejoin, push. rewrite flat_map_app. simpl. now rewrite app_nil_r.
Qed.

Lemma rejoin_push_delimiter segments line :
  rejoin (push segments (delimiter line)) = (rejoin segments ++ [line])%list.
Proof.
  unfold rejoin, push. rewrite flat_map_app. reflexivity.
Qed.

(** Flushing moves the pending lines into a block and loses none. *)
Lemma flushBlock_keeps segments current :
  rejoin (fst (flushBlock segments current)) = (rejoin segments ++ current)%list
  /\ snd (flushBlock segments current) = [].
Proof.
  unfold flushBlock. destruct current as [|line more]; simpl.
  - now rewrite app_nil_r.
  - split; [apply rejoin_push_block | reflexivity].
Qed.

(** Invariant of the loop: the segments closed so far, then the pending
    lines, then the lines still to read, are the numbered document. *)
Lemma segmentLoop_keeps lines :
  forall index segments current,
    let out := segmentLoop lines index segments current in
    (rejoin (fst out) ++ snd out)%list
    = (rejoin segments ++ current ++ numbered index lines)%list.
Proof.
  induction lines as [|raw rest IH]; intros index segments current; simpl.
  - now rewrite app_nil_r.
  - destruct (BLOCK_DELIMITER raw).
    + destruct (flushBlock_keeps segments current) as [Hsegs Hcur].
      destruct (flushBlock segments current) as [segments1 current1].
      simpl in Hsegs, Hcur. subst current1.
      specialize (IH (S index)
        (push segments1 (delimiter {| text := raw; rawLineNumber := index |})) []).
      simpl in IH. rewrite IH, rejoin_push_delimiter, Hsegs.
      now rewrite <- !app_assoc.
    + specialize (IH (S index) segments
        (push current {| text := raw; rawLineNumber := index |})).
      simpl in IH. rewrite IH. unfold push. now rewrite <- !app_assoc.
Qed.

Lemma segmentLines_rejoin lines :
  rejoin (segmentLines lines) = numbered 0 lines.
Proof.
  unfold segmentLines.
  pose proof (segmentLoop_keeps lines 0 [] []) as Hloop. simpl in Hloop.
  destruct (segmentLoop lines 0 [] []) as [segments current]. simpl in Hloop.
  destruct (flushBlock_keeps segments current) as [Hsegs Hcur].
  destruct (flushBlock segments current) as [segments1 current1].
  simpl in Hsegs, Hcur.
  rewrite <- Hloop, <- Hsegs.
  destruct segments1; reflexivity.
Qed.

Lemma numbered_texts lines : forall index, map text (numbered index lines) = lines.
Proof.
  induction lines as [|raw rest IH]; intros index; simpl; [reflexivity|].
  now rewrite IH.
Qed.

Lemma splitLines_nonempty s : splitLines s <> [].
Proof.
  induction s as [|c rest IH]; cbn [splitLines]; [discriminate|].
  destruct (Ascii.eqb c LF); [discriminate|].
  destruct (Ascii.eqb c CR && startsWith rest (String LF EmptyString)); [exact IH|].
  destruct (splitLines rest); discriminate.
Qed.

(** The segments carry every line with its zero-based position. *)
Lemma segmentNatsDocument_lines text :
  rejoin (segmentNatsDocument text) = numbered 0 (splitLines text).
Proof. apply segmentLines_rejoin. Qed.

(** C6: the line texts of the segments of a document, block lines and
    delimiter lines taken in order, are the lines of the document. The
    block without lines that stands in for an empty list of segments adds
    no line, so the equation holds there too. *)
Theorem segment_rejoin_reconstructs_lines (text : string) :
  rejoinTexts (segmentNatsDocument text) = splitLines text.
Proof.
  unfold rejoinTexts. rewrite segmentNatsDocument_lines. apply numbered_texts.
Qed.

(** A document always has a line, so its segments are never the
    stand-in block without lines. *)
Lemma segmentNatsDocument_not_synthetic text :
  segmentNatsDocument text <> [block []].
Proof.
  intros Heq. pose proof (segmentNatsDocument_lines text) as H.
  rewrite Heq in H. simpl in H.
  destruct (splitLines text) eqn:Hs; [now apply (splitLines_nonempty text)|].
  discriminate.
Qed.

End SegmenterFacts.

(* ================================================================== *)
(** ** Properties of the block parser *)
(* ================================================================== *)

Module ParserFacts.
Import JsString Parser.

(** Case analysis on the scrutinee of the first [match] in [H]. *)
Ltac split_match H :=
  match type of H with
  | context [match ?scrutinee with _ => _ end] => destruct scrutinee eqn:?
  end.

Ltac run_parser H :=
  unfold bind, ret, lift, throw in H;
  repeat (split_match H; try discriminate).

Section AnyPlatform.

Variable newURL : string -> Result URL.
Variable decodeURIComponent : string -> Result string.
Variable randomUUID : nat -> string.

Abbreviation parseBlock := (parseActionFromBlock newURL decodeURIComponent randomUUID).
Abbreviation parseDocument := (parseNatsDocument newURL decodeURIComponent randomUUID).
Abbreviation parseSegs := (parseSegments newURL decodeURIComponent randomUUID).

(** A Reply action never carries both a template and a payload. *)
Definition replyFieldsExclusive (action : NatsAction) : Prop :=
  type action = reply -> template action = None \/ data action = None.

Lemma parseActionFromBlock_reply lines calls action calls1 :
  parseBlock lines calls = Ok (Some action, calls1) ->
  replyFieldsExclusive action.
Proof.
  intros Hparse Hreply. unfold parseActionFromBlock in Hparse.
  run_parser Hparse;
    injection Hparse as Haction _; subst action; simpl in *;
    try discriminate; auto.
Qed.

Lemma parseSegments_reply segments :
  forall actions calls result calls1,
    Forall replyFieldsExclusive actions ->
    parseSegs segments actions calls = Ok (result, calls1) ->
    Forall replyFieldsExclusive result.
Proof.
  induction segments as [|segment rest IH]; intros actions calls result calls1 Hacc Hrun.
  - simpl in Hrun. unfold ret in Hrun. now injection Hrun as <- _.
  - destruct segment as [line|lines]; simpl in Hrun.
    + eapply IH; eauto.
    + unfold bind in Hrun.
      destruct (parseBlock lines calls) as [[[action|] calls2]|e] eqn:Hblock;
        try discriminate.
      * eapply IH; [|exact Hrun].
        unfold push. apply Forall_app. split; [exact Hacc|].
        constructor; [|constructor].
        eapply parseActionFromBlock_reply; eauto.
      * eapply IH; eauto.
Qed.

(** Every Reply action of a parsed document has at most one of its
    template and payload set. *)
Lemma parseNatsDocument_reply text calls result calls1 :
  parseDocument text calls = Ok (result, calls1) ->
  Forall replyFieldsExclusive result.
Proof.
  unfold parseNatsDocument. apply parseSegments_reply. constructor.
Qed.

(** *** Where the parser can throw *)

Lemma findRequestLineLoop_ge lines :
  forall index found, findRequestLineLoop lines index = Some found -> index <= found.
Proof.
  induction lines as [|line rest IH]; intros index found Hfind; simpl in Hfind.
  - discriminate.
  - repeat split_match Hfind; try discriminate;
      try (apply IH in Hfind; lia).
    injection Hfind as <-. lia.
Qed.

(** The index found is a position of the block. *)
Lemma findRequestLineLoop_in_range lines :
  forall index found,
    findRequestLineLoop lines index = Some found ->
    exists line, nth_error lines (found - index) = Some line.
Proof.
  induction lines as [|line rest IH]; intros index found Hfind; simpl in Hfind.
  - discriminate.
  - repeat split_match Hfind; try discriminate;
      try (pose proof (findRequestLineLoop_ge _ _ _ Hfind) as Hge;
           apply IH in Hfind; destruct Hfind as [l Hl]; exists l;
           replace (found - index) with (S (found - S index)) by lia; exact Hl).
    injection Hfind as <-. rewrite Nat.sub_diag. now exists line.
Qed.

Lemma parseHeadersLoop_returns rest :
  forall index headers calls,
    exists out, parseHeadersLoop randomUUID rest index headers calls = Ok out.
Proof.
  induction rest as [|line rest1 IH]; intros index headers calls; simpl.
  - eexists; reflexivity.
  - destruct (String.length (trim (text line)) =? 0)%nat; [eexists; reflexivity|].
    destruct (COMMENT_PATTERN (trim (text line))); [apply IH|].
    destruct (indexOfChar ":" (text line)); [|eexists; reflexivity].
    destruct (negb (HEADER_KEY_PATTERN _)); [eexists; reflexivity|].
    unfold bind, sanitizeRandomIds.
    destruct (sanitizeLoop _ _ _ _) as [sanitized calls1]. apply IH.
Qed.

Lemma collectBody_returns lines startIndex calls :
  exists out, collectBody randomUUID lines startIndex calls = Ok out.
Proof.
  unfold collectBody.
  destruct (List.length lines <=? startIndex)%nat; [eexists; reflexivity|].
  destruct (List.length _ =? 0)%nat; [eexists; reflexivity|].
  unfold bind, sanitizeRandomIds, ret.
  destruct (sanitizeLoop _ _ _ _). eexists; reflexivity.
Qed.

(** Whether [decodeURIComponent] accepts every text. It does not on the
    platform: a malformed escape makes it throw. *)
Definition decodeNeverThrows : Prop :=
  forall s, exists decoded, decodeURIComponent s = Ok decoded.

Lemma resolveConnection_returns target meta :
  decodeNeverThrows ->
  exists out, resolveConnection newURL decodeURIComponent target meta = Ok out.
Proof.
  intros Hdecode. unfold resolveConnection, decodeSubject.
  destruct (tryParseUrl _ _) as [url|].
  - match goal with |- context [decodeURIComponent ?s] =>
      destruct (Hdecode s) as [decoded ->] end.
    destruct (negb _); eexists; reflexivity.
  - destruct (JsMap.get meta "nats-server") as [serverText|]; [|eexists; reflexivity].
    destruct (negb (truthy serverText)); [eexists; reflexivity|].
    destruct (negb _); eexists; reflexivity.
Qed.

(** The one way for a block to throw is [decodeURIComponent]. *)
Lemma parseActionFromBlock_returns lines calls :
  decodeNeverThrows ->
  exists out, parseBlock lines calls = Ok out.
Proof.
  intros Hdecode. unfold parseActionFromBlock.
  destruct (List.length lines =? 0)%nat; [eexists; reflexivity|].
  destruct (findRequestLineIndex lines) as [requestIndex|] eqn:Hfind;
    [|eexists; reflexivity].
  apply findRequestLineLoop_in_range in Hfind. destruct Hfind as [line Hline].
  rewrite Nat.sub_0_r in Hline. rewrite Hline.
  destruct (mapKeyword _) as [kind|]; [|eexists; reflexivity].
  unfold bind, parseHeaders.
  destruct (parseHeadersLoop_returns (skipn (S requestIndex) lines) (S requestIndex) [] calls)
    as [[headerResult calls1] ->].
  destruct (partitionHeaders (fst headerResult)) as [headers meta].
  destruct (collectBody_returns lines (snd headerResult) calls1) as [[body calls2] ->].
  unfold lift.
  destruct (resolveConnection_returns
              (trim (sliceFrom (String.length (firstToken (trim (text line))))
                       (trim (text line)))) meta Hdecode) as [connection ->].
  unfold ret.
  destruct connection as [connection|]; [|eexists; reflexivity].
  destruct kind;
    repeat match goal with
           | |- context [match ?x with _ => _ end] => destruct x
           end; eexists; reflexivity.
Qed.

Lemma parseSegments_returns segments :
  decodeNeverThrows ->
  forall actions calls, exists out, parseSegs segments actions calls = Ok out.
Proof.
  intros Hdecode.
  induction segments as [|segment rest IH]; intros actions calls; simpl.
  - eexists; reflexivity.
  - destruct segment as [line|lines]; [apply IH|].
    unfold bind.
    destruct (parseActionFromBlock_returns lines calls Hdecode) as [[action calls1] ->].
    destruct action; apply IH.
Qed.

End AnyPlatform.

(** With a [decodeURIComponent] that never throws, parsing returns for
    every text. *)
Lemma parseNatsDocument_returns newURL decodeURIComponent randomUUID text calls :
  decodeNeverThrows decodeURIComponent ->
  exists out, parseNatsDocument newURL decodeURIComponent randomUUID text calls = Ok out.
Proof.
  intros Hdecode. unfold parseNatsDocument. now apply parseSegments_returns.
Qed.

(** C5: a block that parses into a Reply action has its template or its
    payload unset: never both set. *)
Theorem reply_template_data_exclusive
    newURL decodeURIComponent randomUUID lines calls action calls1 :
  parseActionFromBlock newURL decodeURIComponent randomUUID lines calls
    = Ok (Some action, calls1) ->
  type action = reply ->
  template action = None \/ data action = None.
Proof.
  intros Hparse Hreply.
  now apply (parseActionFromBlock_reply _ _ _ _ _ _ _ Hparse).
Qed.

(** The block [REPLY nats://demo/lab.echo], a blank line, then a template. *)
Definition replyBlock : list RawLine :=
  [ {| text := "REPLY nats://demo/lab.echo"; rawLineNumber := 0 |};
    {| text := ""; rawLineNumber := 1 |};
    {| text := "Hello, $json.name!"; rawLineNumber := 2 |} ].

Definition replyAction : NatsAction :=
  {| type := reply; subject := "lab.echo"; lineNumber := 0;
     server := Some "nats://demo"; data := None;
     template := Some "Hello, $json.name!";
     stream := None; durable := None; batchSize := None; timeoutMs := None;
     headers := None |}.

Lemma reply_template_data_exclusive_witness :
  parseActionFromBlock Reference.newURL Reference.decodeURIComponent
      Reference.randomUUID replyBlock 0 = Ok (Some replyAction, 0)
  /\ type replyAction = reply
  /\ (template replyAction = None \/ data replyAction = None).
Proof.
  split; [reflexivity|]. split; [reflexivity|].
  apply (reply_template_data_exclusive Reference.newURL Reference.decodeURIComponent
           Reference.randomUUID replyBlock 0 replyAction 0); reflexivity.
Defined.

(** C1: the text [SUBSCRIBE nats://demo/%zz] makes [parseNatsDocument]
    throw. Its target is a URL of a supported protocol, so the path goes
    to [decodeURIComponent], which throws on the malformed escape, and
    nothing between that call and the caller catches the exception. *)
Theorem parseNatsDocument_throws_on_malformed_escape
    newURL decodeURIComponent randomUUID url error calls :
  newURL "nats://demo/%zz" = Ok url ->
  protocol url = "nats:" ->
  pathname url = "/%zz" ->
  decodeURIComponent "%zz" = Raise error ->
  parseNatsDocument newURL decodeURIComponent randomUUID
    "SUBSCRIBE nats://demo/%zz" calls = Raise error.
Proof.
  intros Hurl Hprotocol Hpath Hdecode.
  unfold parseNatsDocument.
  replace (segmentNatsDocument "SUBSCRIBE nats://demo/%zz")
    with [block [{| text := "SUBSCRIBE nats://demo/%zz"; rawLineNumber := 0 |}]]
    by reflexivity.
  cbn [parseSegments]. unfold bind at 1.
  assert (Hblock :
    parseActionFromBlock newURL decodeURIComponent randomUUID
      [{| text := "SUBSCRIBE nats://demo/%zz"; rawLineNumber := 0 |}] calls
    = Raise error).
  { unfold parseActionFromBlock.
    change (findRequestLineIndex
              [{| text := "SUBSCRIBE nats://demo/%zz"; rawLineNumber := 0 |}])
      with (Some 0).
    cbn [List.length Nat.eqb nth_error text].
    change (trim "SUBSCRIBE nats://demo/%zz") with "SUBSCRIBE nats://demo/%zz".
    change (firstToken "SUBSCRIBE nats://demo/%zz") with "SUBSCRIBE".
    change (mapKeyword "SUBSCRIBE") with (Some subscribe).
    change (trim (sliceFrom (String.length "SUBSCRIBE") "SUBSCRIBE nats://demo/%zz"))
      with "nats://demo/%zz".
    unfold bind, parseHeaders, collectBody, lift, ret.
    cbn [skipn parseHeadersLoop ret fst snd partitionHeaders List.length Nat.eqb
         Nat.leb JsMap.empty].
    unfold resolveConnection, tryParseUrl.
    change (trim "nats://demo/%zz") with "nats://demo/%zz".
    cbn [String.length Nat.ltb Nat.leb].
    rewrite Hurl, Hprotocol.
    change (setHas SUPPORTED_PROTOCOLS "nats:") with true. cbv iota.
    unfold decodeSubject. rewrite Hpath.
    change (startsWith "/%zz" "/") with true. cbv iota.
    change (sliceFrom 1 "/%zz") with "%zz".
    now rewrite Hdecode. }
  now rewrite Hblock.
Qed.

Lemma parseNatsDocument_throws_on_malformed_escape_witness :
  Reference.parseNatsDocument "SUBSCRIBE nats://demo/%zz" = Raise Reference.URIError.
Proof.
  apply (parseNatsDocument_throws_on_malformed_escape
           Reference.newURL Reference.decodeURIComponent Reference.randomUUID
           {| protocol := "nats:"; username := ""; password := "";
              hostname := "demo"; port := ""; pathname := "/%zz" |});
    reflexivity.
Defined.

End ParserFacts.

(* ================================================================== *)
(** ** Properties of the template interpolator *)
(* ================================================================== *)

Module TemplateFacts.
Import JsString JsStringFacts NatsTypes Template.

(** The first character of [s] is outside the class (or [s] is empty). *)
Definition stopsClass (inClass : ascii -> bool) (s : string) : bool :=
  match s with
  | EmptyString => true
  | String c _ => negb (inClass c)
  end.

Lemma takeWhile_append_stop p key post :
  forallChars p key = true -> stopsClass p post = true ->
  takeWhile p (key ++ post) = key.
Proof.
  intros Hkey Hpost. induction key as [|c key IH]; simpl in *.
  - destruct post as [|d post]; [reflexivity|]. simpl in Hpost |- *.
    now destruct (p d).
  - apply andb_prop in Hkey as [Hc Hkey]. rewrite Hc. now rewrite IH.
Qed.

Lemma takeWhile_append_outside p a d rest :
  p d = false -> takeWhile p (a ++ String d rest) = takeWhile p a.
Proof.
  intros Hd. induction a as [|c a IH]; simpl.
  - now rewrite Hd.
  - destruct (p c); [now rewrite IH | reflexivity].
Qed.

(** A match of the [$json] pattern that starts inside [pre] is the same
    whether or not a dollar follows [pre]: no character of the pattern
    after its first one and no character of the class is a dollar. *)
Lemma matchAt_append_dollar pre rest :
  pre <> "" ->
  matchAt "$json." (Some isFieldNameChar) (pre ++ String "$" rest)
  = matchAt "$json." (Some isFieldNameChar) pre.
Proof.
  intros Hpre. unfold matchAt.
  destruct pre as [|c1 pre]; [contradiction|]. clear Hpre.
  cbn [append startsWith]. destruct (Ascii.eqb "$" c1); [|reflexivity].
  do 5 (destruct pre as [|? pre]; cbn [append startsWith andb];
        [reflexivity|]; destruct (Ascii.eqb _ _); [|reflexivity]).
  cbn [startsWith andb String.length sliceFrom].
  now rewrite takeWhile_append_outside.
Qed.

Lemma matchAt_token key post :
  key <> "" -> forallChars isFieldNameChar key = true ->
  stopsClass isFieldNameChar post = true ->
  matchAt "$json." (Some isFieldNameChar) ("$json." ++ key ++ post) = Some key.
Proof.
  intros Hne Hkey Hpost. unfold matchAt. simpl.
  rewrite takeWhile_append_stop by assumption.
  destruct key; [contradiction | reflexivity].
Qed.

Lemma matchAt_length s key :
  matchAt "$json." (Some isFieldNameChar) s = Some key ->
  String.length "$json." + String.length key <= String.length s.
Proof.
  unfold matchAt. destruct (startsWith s "$json.") eqn:Hstart; [|discriminate].
  apply startsWith_length in Hstart.
  pose proof (length_takeWhile isFieldNameChar (sliceFrom (String.length "$json.") s)) as Hkey.
  rewrite length_sliceFrom in Hkey.
  remember (takeWhile isFieldNameChar (sliceFrom (String.length "$json.") s)) as found.
  destruct (isEmpty found); [discriminate|]. intros Hsome.
  injection Hsome as <-.
  change (String.length "$json.") with 6 in *. lia.
Qed.

Section TokenPass.

Variable callback : string -> string.

(** The [$json] pass with any callback. *)
Definition pass (before s : string) (skip : nat) : string :=
  replaceLoop "$json." (Some isFieldNameChar) (fun _ _ key _ => callback key)
    before s skip.

Lemma pass_before s : forall b1 b2 skip, pass b1 s skip = pass b2 s skip.
Proof.
  unfold pass. induction s as [|c s IH]; intros b1 b2 skip; [reflexivity|].
  cbn [replaceLoop]. destruct skip as [|k]; [|apply IH].
  destruct (matchAt _ _ _); [f_equal; apply IH | f_equal; apply IH].
Qed.

Lemma pass_skip s1 : forall s2 b, pass b (s1 ++ s2) (String.length s1) = pass b s2 0.
Proof.
  induction s1 as [|c s1 IH]; intros s2 b; [reflexivity|].
  unfold pass in *. cbn [replaceLoop String.length append].
  rewrite IH. apply pass_before.
Qed.

(** Text in front of a token is rewritten on its own. *)
Lemma pass_append pre rest :
  forall b b1 skip,
    skip <= String.length pre ->
    pass b (pre ++ String "$" rest) skip = pass b pre skip ++ pass b1 (String "$" rest) 0.
Proof.
  induction pre as [|c pre IH]; intros b b1 skip Hskip.
  - simpl in Hskip. replace skip with 0 by lia. simpl. apply pass_before.
  - change (String c pre ++ String "$" rest) with (String c (pre ++ String "$" rest)).
    unfold pass. cbn [replaceLoop]. fold (pass (b ++ String c "")).
    destruct skip as [|k].
    + pose proof (matchAt_append_dollar (String c pre) rest) as Hmatch.
      change (String c pre ++ String "$" rest)
        with (String c (pre ++ String "$" rest)) in Hmatch.
      rewrite Hmatch by discriminate.
      destruct (matchAt "$json." (Some isFieldNameChar) (String c pre)) as [key|] eqn:Hm.
      * apply matchAt_length in Hm.
        rewrite length_append. rewrite append_assoc. f_equal.
        fold (pass (b ++ String c "")).
        apply IH. simpl in Hm |- *. lia.
      * simpl. f_equal. fold (pass (b ++ String c "")). apply IH. lia.
    + fold (pass (b ++ String c "")). apply IH. simpl in Hskip. lia.
Qed.

Lemma pass_match c rest before key :
  matchAt "$json." (Some isFieldNameChar) (String c rest) = Some key ->
  pass before (String c rest) 0
  = callback key
    ++ pass (before ++ String c "") rest (String.length ("$json." ++ key) - 1).
Proof.
  intros Hmatch. unfold pass. cbn [replaceLoop]. now rewrite Hmatch.
Qed.

(** Every token [$json.<field>] is replaced by the callback's text for
    the field, and the text around it is rewritten independently. *)
Lemma pass_token pre key post :
  key <> "" -> forallChars isFieldNameChar key = true ->
  stopsClass isFieldNameChar post = true ->
  pass "" (pre ++ "$json." ++ key ++ post) 0
  = pass "" pre 0 ++ callback key ++ pass "" post 0.
Proof.
  intros Hne Hkey Hpost.
  change ("$json." ++ key ++ post) with (String "$" ("json." ++ key ++ post)).
  rewrite (pass_append pre _ "" "" 0) by lia. f_equal.
  rewrite (pass_match "$" ("json." ++ key ++ post) "" key)
    by exact (matchAt_token key post Hne Hkey Hpost).
  f_equal.
  replace (String.length ("$json." ++ key) - 1) with (String.length ("json." ++ key))
    by (rewrite !length_append; simpl; lia).
  rewrite <- append_assoc, pass_skip. apply pass_before.
Qed.

End TokenPass.

(** The text [JSON.stringify("")] returns: two double quotes. *)
Definition quotedEmpty : string := String DQUOTE (String DQUOTE "").

Definition isStringOrNull {number : Type} (value : JsonValue number) : bool :=
  match value with
  | JString _ | JNull => true
  | _ => false
  end.

Section Rendering.

Variable number : Type.
Variable numberToString : number -> string.
Variable numberOfNat : nat -> number.
Variable inheritedJson : JsonValue number -> string -> option (option string).

Abbreviation ownProperty' := (ownProperty number numberOfNat).
Abbreviation stringify' := (stringify number numberToString).
Abbreviation jsonCallback' := (jsonCallback number numberToString numberOfNat inheritedJson).
Abbreviation jsonPass' := (jsonPass number numberToString numberOfNat inheritedJson).

(** What stands in place of [$json.<field>] for a message, case by case:
    nothing when the body does not decode; a string field as it is;
    another field JSON-encoded; the JSON encoding of the empty string
    when the field is null or is missing; and, for a name that is no
    field of the body but a member its prototype provides, the encoding
    of that member ([undefined] for a function). *)
Inductive fieldRendering (msg : MsgLike number) (key : string) : string -> Prop :=
  | render_undecodable error :
      msgJson msg = Raise error ->
      fieldRendering msg key ""
  | render_string data s :
      msgJson msg = Ok data ->
      ownProperty' data key = Some (JString s) ->
      fieldRendering msg key s
  | render_encoded data value :
      msgJson msg = Ok data ->
      ownProperty' data key = Some value ->
      isStringOrNull value = false ->
      fieldRendering msg key (stringify' value)
  | render_null data :
      msgJson msg = Ok data ->
      ownProperty' data key = Some JNull ->
      fieldRendering msg key quotedEmpty
  | render_absent data :
      msgJson msg = Ok data ->
      ownProperty' data key = None ->
      data = JNull \/ inheritedJson data key = None ->
      fieldRendering msg key quotedEmpty
  | render_inherited data text :
      msgJson msg = Ok data ->
      data <> JNull ->
      ownProperty' data key = None ->
      inheritedJson data key = Some (Some text) ->
      fieldRendering msg key text
  | render_inherited_function data :
      msgJson msg = Ok data ->
      data <> JNull ->
      ownProperty' data key = None ->
      inheritedJson data key = Some None ->
      fieldRendering msg key "undefined".

Lemma jsonCallback_rendering msg key : fieldRendering msg key (jsonCallback' msg key).
Proof.
  unfold jsonCallback.
  destruct (msgJson msg) as [data|error] eqn:Hjson; [|eapply render_undecodable; eauto].
  assert (Hgeneral :
    data <> JNull ->
    fieldRendering msg key
      match ownProperty' data key with
      | Some (JString s) => s
      | Some JNull => stringify' (JString "")
      | Some value => stringify' value
      | None =>
          match inheritedJson data key with
          | None => stringify' (JString "")
          | Some (Some text) => text
          | Some None => "undefined"
          end
      end).
  { intros Hdata.
    destruct (ownProperty' data key) as [value|] eqn:Hown.
    - destruct value;
        first [ now eapply render_string; eauto
              | now eapply render_null; eauto
              | now eapply render_encoded; eauto ].
    - destruct (inheritedJson data key) as [[text|]|] eqn:Hinherited.
      + eapply render_inherited; eauto.
      + eapply render_inherited_function; eauto.
      + eapply render_absent; eauto. }
  destruct data; try (apply Hgeneral; discriminate).
  eapply render_absent; eauto.
Qed.

Lemma interpolateTemplate_token template msg pre key post :
  msgPasses number numberToString template msg = pre ++ "$json." ++ key ++ post ->
  key <> "" ->
  forallChars isFieldNameChar key = true ->
  stopsClass isFieldNameChar post = true ->
  interpolateTemplate number numberToString numberOfNat inheritedJson template msg
  = jsonPass' msg pre ++ jsonCallback' msg key ++ jsonPass' msg post.
Proof.
  intros Hpasses Hne Hkey Hpost. unfold interpolateTemplate. rewrite Hpasses.
  exact (pass_token (jsonCallback' msg) pre key post Hne Hkey Hpost).
Qed.

End Rendering.

(** C4: a token [$json.<field>] whose field the decoded body does not
    have is not replaced by the empty string. The callback returns
    [JSON.stringify(value ?? "")] for every value that is no string, so
    a missing field is rendered as the JSON encoding of the empty string:
    two double quotes. The field is missing: it is no property of the
    body, own or inherited. The text before and after the token is
    rewritten independently of it. *)
Theorem json_absent_field_renders_quotes
    number numberToString numberOfNat inheritedJson template
    (msg : MsgLike number) pre key post data :
  msgPasses number numberToString template msg = pre ++ "$json." ++ key ++ post ->
  key <> "" ->
  forallChars isFieldNameChar key = true ->
  stopsClass isFieldNameChar post = true ->
  msgJson msg = Ok data ->
  ownProperty number numberOfNat data key = None ->
  inheritedJson data key = None ->
  interpolateTemplate number numberToString numberOfNat inheritedJson template msg
  = jsonPass number numberToString numberOfNat inheritedJson msg pre
    ++ String DQUOTE (String DQUOTE "")
    ++ jsonPass number numberToString numberOfNat inheritedJson msg post.
Proof.
  intros Hpasses Hne Hkey Hpost Hjson Hown Hinherited.
  rewrite (interpolateTemplate_token number numberToString numberOfNat inheritedJson
             template msg pre key post Hpasses Hne Hkey Hpost).
  do 2 f_equal. unfold jsonCallback. rewrite Hjson.
  destruct data; try reflexivity; rewrite Hown, Hinherited; reflexivity.
Qed.

(** The failing input: the template [$json.missing] and a message whose
    body is [{}]. The reply is two double quotes, not the empty text. *)
Lemma json_absent_field_renders_quotes_witness :
  let template := "$json.missing" in
  let msg := TemplateReference.emptyObjectMessage in
  (msgPasses Z TemplateReference.numberToString template msg = "" ++ "$json." ++ "missing" ++ ""
   /\ "missing" <> ""
   /\ forallChars isFieldNameChar "missing" = true
   /\ stopsClass isFieldNameChar "" = true
   /\ msgJson msg = Ok (JObject [])
   /\ ownProperty Z TemplateReference.numberOfNat (JObject []) "missing" = None
   /\ TemplateReference.inheritedJson (JObject []) "missing" = None)
  /\ TemplateReference.interpolateTemplate template msg
     = String DQUOTE (String DQUOTE "")
  /\ TemplateReference.interpolateTemplate template msg <> "".
Proof.
  cbv zeta. split.
  - repeat split; try reflexivity; discriminate.
  - pose proof (json_absent_field_renders_quotes Z TemplateReference.numberToString
                  TemplateReference.numberOfNat TemplateReference.inheritedJson
                  "$json.missing" TemplateReference.emptyObjectMessage
                  "" "missing" "" (JObject [])) as Hrendered.
    unfold TemplateReference.interpolateTemplate.
    rewrite Hrendered;
      [ split; [reflexivity | discriminate]
      | reflexivity | discriminate | reflexivity | reflexivity | reflexivity
      | reflexivity | reflexivity ].
Defined.

(** The rendering of the test of [interpolateTemplate]. *)
Example interpolateTemplate_value :
  TemplateReference.interpolateTemplate
    "Value: $json.value ($msg.subject / $msg.headers.requestId)"
    TemplateReference.valueMessage
  = "Value: 5 (lab.value / 123)".
Proof. reflexivity. Qed.

End TemplateFacts.

(* ================================================================== *)
(** ** Properties of the session manager *)
(* ================================================================== *)

Module SessionFacts.
Import JsString NatsTypes Session.

Local Notation "x <- m ;; k" := (bind m (fun x => k))
  (at level 61, m at next level, right associativity).
Local Notation "m ;; k" := (bind m (fun _ => k))
  (at level 61, right associativity).

(** *** Counters *)

Lemma endsWith_append a b : endsWith (a ++ b) b = true.
Proof.
  unfold endsWith. rewrite JsStringFacts.length_append.
  replace (String.length a + String.length b - String.length b) with (String.length a)
    by lia.
  rewrite JsStringFacts.sliceFrom_append, String.eqb_refl.
  rewrite andb_true_r. apply Nat.leb_le. lia.
Qed.

(** The key of a pair ends with the bar and the subject, which is what
    [collectCount] looks for. *)
Lemma endsWith_subjectKey serverText subjectText :
  endsWith (subjectKey serverText subjectText) ("|" ++ subjectText) = true.
Proof. unfold subjectKey. apply endsWith_append. Qed.

(** What the entry for [key] adds to the count of [subjectText]. *)
Definition share (key subjectText : string) (value : Z) : Z :=
  if endsWith key ("|" ++ subjectText) then value else 0%Z.

Lemma collectCount_delete store key value subjectText :
  JsMap.get store key = Some value ->
  collectCount (JsMap.delete store key) subjectText
  = (collectCount store subjectText - share key subjectText value)%Z.
Proof.
  induction store as [|[k v] rest IH];
    cbn [collectCount JsMap.get JsMap.delete]; [discriminate|].
  destruct (String.eqb_spec k key) as [->|Hk].
  - intros [= ->]. unfold share. lia.
  - intros Hget. cbn [collectCount]. rewrite (IH Hget). lia.
Qed.

Lemma collectCount_set store key value updated subjectText :
  JsMap.get store key = Some value ->
  collectCount (JsMap.set store key updated) subjectText
  = (collectCount store subjectText - share key subjectText value
     + share key subjectText updated)%Z.
Proof.
  induction store as [|[k v] rest IH];
    cbn [collectCount JsMap.get JsMap.set]; [discriminate|].
  destruct (String.eqb_spec k key) as [->|Hk].
  - intros [= ->]. cbn [collectCount]. unfold share. lia.
  - intros Hget. cbn [collectCount]. rewrite (IH Hget). lia.
Qed.

Lemma collectCount_set_new store key updated subjectText :
  JsMap.get store key = None ->
  collectCount (JsMap.set store key updated) subjectText
  = (collectCount store subjectText + share key subjectText updated)%Z.
Proof.
  induction store as [|[k v] rest IH];
    cbn [collectCount JsMap.get JsMap.set]; [unfold share; lia|].
  destruct (String.eqb_spec k key) as [->|Hk]; [discriminate|].
  intros Hget. cbn [collectCount]. rewrite (IH Hget). lia.
Qed.

(** [decrementCount] on a pair counted [n] times, [n] positive. *)
Lemma decrementCount_counted counts serverText subjectText n :
  JsMap.wf counts ->
  JsMap.get counts (subjectKey serverText subjectText) = Some n ->
  (1 <= n)%Z ->
  let after := decrementCount counts serverText subjectText in
  JsMap.get after (subjectKey serverText subjectText)
  = (if (n =? 1)%Z then None else Some (n - 1)%Z)
  /\ collectCount after subjectText = (collectCount counts subjectText - 1)%Z.
Proof.
  intros Hwf Hget Hpos. unfold decrementCount. rewrite Hget. simpl orZero.
  destruct (Z.leb_spec n 1) as [Hle|Hgt].
  - assert (n = 1%Z) as -> by lia. simpl. split.
    + now apply JsMapFacts.get_delete_eq.
    + rewrite (collectCount_delete _ _ _ _ Hget). unfold share.
      now rewrite endsWith_subjectKey.
  - destruct (Z.eqb_spec n 1) as [->|_]; [lia|]. split.
    + apply JsMapFacts.get_set_eq.
    + rewrite (collectCount_set _ _ _ _ _ Hget). unfold share.
      rewrite endsWith_subjectKey. lia.
Qed.

(** The key under which a context is counted. *)
Definition pairKey (context : SubscriptionContext) : string :=
  subjectKey (server context) (subject context).

(** The number of contexts of a store counted under [pair]. *)
Definition registered (pair : string) (store : JsMap.t SubscriptionContext) : nat :=
  List.length (filter (fun entry => String.eqb (pairKey (snd entry)) pair) store).

(** A store and its counters agree: keys occur once, and the counter of
    a pair is the number of contexts registered for it, with no entry
    for a pair without contexts. *)
Definition counted (store : JsMap.t SubscriptionContext) (counts : JsMap.t Z) : Prop :=
  JsMap.wf store /\ JsMap.wf counts
  /\ forall pair,
       JsMap.get counts pair
       = if (registered pair store =? 0)%nat then None
         else Some (Z.of_nat (registered pair store)).

Lemma registered_positive store key context :
  JsMap.get store key = Some context -> 1 <= registered (pairKey context) store.
Proof.
  unfold registered. induction store as [|[k c] rest IH]; simpl; [discriminate|].
  destruct (String.eqb_spec k key) as [->|Hk].
  - intros [= ->]. rewrite String.eqb_refl. simpl. lia.
  - intros Hget. specialize (IH Hget).
    destruct (String.eqb (pairKey c) (pairKey context)); simpl; lia.
Qed.

Lemma counted_positive store counts key context :
  counted store counts ->
  JsMap.get store key = Some context ->
  exists n, JsMap.get counts (pairKey context) = Some n /\ (1 <= n)%Z.
Proof.
  intros (_ & _ & Hcount) Hget. apply registered_positive in Hget.
  rewrite Hcount. destruct (Nat.eqb_spec (registered (pairKey context) store) 0); [lia|].
  eexists. split; [reflexivity | lia].
Qed.

Lemma counted_empty : counted JsMap.empty JsMap.empty.
Proof. repeat split; constructor. Qed.

Lemma set_new {V : Type} (m : JsMap.t V) key value :
  JsMap.get m key = None -> JsMap.set m key value = (m ++ [(key, value)])%list.
Proof.
  induction m as [|[k v] rest IH]; simpl; [reflexivity|].
  destruct (String.eqb k key); [discriminate|]. intros Hget. now rewrite IH.
Qed.

Lemma delete_split {V : Type} (m : JsMap.t V) key value :
  JsMap.get m key = Some value ->
  exists front back,
    m = (front ++ (key, value) :: back)%list
    /\ JsMap.delete m key = (front ++ back)%list.
Proof.
  induction m as [|[k v] rest IH]; simpl; [discriminate|].
  destruct (String.eqb_spec k key) as [->|Hk].
  - intros [= ->]. now exists [], rest.
  - intros Hget. destruct (IH Hget) as (front & back & -> & ->).
    now exists ((k, v) :: front), back.
Qed.

Lemma registered_app pair (front back : JsMap.t SubscriptionContext) :
  registered pair (front ++ back)%list = registered pair front + registered pair back.
Proof. unfold registered. now rewrite filter_app, length_app. Qed.

Lemma registered_one pair key context :
  registered pair [(key, context)] = if String.eqb (pairKey context) pair then 1 else 0.
Proof. unfold registered. simpl. now destruct (String.eqb (pairKey context) pair). Qed.

Lemma registered_cons pair key context back :
  registered pair ((key, context) :: back)
  = (if String.eqb (pairKey context) pair then 1 else 0) + registered pair back.
Proof.
  change ((key, context) :: back) with ([(key, context)] ++ back)%list.
  now rewrite registered_app, registered_one.
Qed.

(** Registering a context under a new key and counting it keeps store
    and counters in agreement. *)
Lemma counted_register store counts key context :
  counted store counts ->
  JsMap.get store key = None ->
  counted (JsMap.set store key context)
    (incrementCount counts (server context) (subject context)).
Proof.
  intros (Hstore & Hcounts & Hagree) Hnew. unfold incrementCount.
  fold (pairKey context).
  split; [now apply JsMapFacts.wf_set|]. split; [now apply JsMapFacts.wf_set|].
  intros pair. rewrite (set_new _ _ _ Hnew), registered_app, registered_one.
  destruct (String.eqb_spec (pairKey context) pair) as [<-|Hother].
  - rewrite JsMapFacts.get_set_eq, Hagree.
    destruct (Nat.eqb_spec (registered (pairKey context) store) 0) as [->|Hpos]; simpl.
    + reflexivity.
    + destruct (Nat.eqb_spec (registered (pairKey context) store + 1) 0); [lia|].
      f_equal. lia.
  - rewrite JsMapFacts.get_set_ne by assumption.
    rewrite Nat.add_0_r. apply Hagree.
Qed.

(** Removing a context and discounting it keeps them in agreement. *)
Lemma counted_unregister store counts key context :
  counted store counts ->
  JsMap.get store key = Some context ->
  counted (JsMap.delete store key)
    (decrementCount counts (server context) (subject context)).
Proof.
  intros Hcounted Hget.
  destruct (counted_positive _ _ _ _ Hcounted Hget) as (n & Hn & Hpos).
  destruct Hcounted as (Hstore & Hcounts & Hagree).
  assert (Hvalue : n = Z.of_nat (registered (pairKey context) store)).
  { rewrite Hagree in Hn.
    destruct (registered (pairKey context) store =? 0)%nat; congruence. }
  destruct (delete_split _ _ _ Hget) as (front & back & Hsplit & Hdelete).
  assert (Hless : forall pair,
    registered pair store
    = registered pair (JsMap.delete store key)
      + if String.eqb (pairKey context) pair then 1 else 0).
  { intros pair. rewrite Hdelete, Hsplit, !registered_app, registered_cons. lia. }
  split; [now apply JsMapFacts.wf_delete|].
  unfold decrementCount. fold (pairKey context). rewrite Hn. simpl orZero.
  destruct (Z.leb_spec n 1) as [Hle|Hgt].
  - split; [now apply JsMapFacts.wf_delete|].
    intros pair. specialize (Hless pair).
    destruct (String.eqb_spec (pairKey context) pair) as [Hsame|Hother]; [subst pair|].
    + rewrite JsMapFacts.get_delete_eq by assumption.
      destruct (Nat.eqb_spec (registered (pairKey context) (JsMap.delete store key)) 0);
        [reflexivity | lia].
    + rewrite JsMapFacts.get_delete_ne by assumption.
      rewrite Hagree. now rewrite Hless, Nat.add_0_r.
  - split; [now apply JsMapFacts.wf_set|].
    intros pair. specialize (Hless pair).
    destruct (String.eqb_spec (pairKey context) pair) as [Hsame|Hother]; [subst pair|].
    + rewrite JsMapFacts.get_set_eq.
      destruct (Nat.eqb_spec (registered (pairKey context) (JsMap.delete store key)) 0);
        [lia|]. f_equal. lia.
    + rewrite JsMapFacts.get_set_ne by assumption.
      rewrite Hagree. now rewrite Hless, Nat.add_0_r.
Qed.



Section AnyCollaborators.

Variable number : Type.
Variable newURL : string -> Result Parser.URL.
Variable connector : nat -> NatsConnectOptions -> Result (NatsConnectionLike number).
Variable now : nat -> string.
Variable readMsgHeaders : option HeadersLike -> option HeaderMap.

Abbreviation startSubscription' := (startSubscription number newURL connector).
Abbreviation startReplyHandler' := (startReplyHandler number newURL connector).
Abbreviation getConnection' := (getConnection number newURL connector).
Abbreviation reconnectConnection' := (reconnectConnection number newURL connector).
Abbreviation pullJetStream' :=
  (pullJetStream number newURL connector now readMsgHeaders).

(** *** Stopping an unknown key, starting a known one *)

Lemma stopContext_absent kind key (st : State number) :
  JsMap.get (getStore kind (session st)) key = None ->
  stopContext number kind key st = (Ok tt, st).
Proof.
  intros Habsent. unfold stopContext, bind, gets. now rewrite Habsent.
Qed.

Lemma startSubscription_active serverUrl subjectText sinkId key (st : State number) :
  JsMap.has (subscriptions (session st)) key = true ->
  startSubscription' serverUrl subjectText sinkId key st = (Ok tt, st).
Proof.
  intros Hactive. unfold startSubscription, bind, gets. now rewrite Hactive.
Qed.

Lemma startReplyHandler_active serverUrl subjectText templateText payloadText
    sinkId key replyHeaders (st : State number) :
  JsMap.has (replies (session st)) key = true ->
  startReplyHandler' serverUrl subjectText templateText payloadText sinkId key
    replyHeaders st = (Ok tt, st).
Proof.
  intros Hactive. unfold startReplyHandler, bind, gets. now rewrite Hactive.
Qed.

Lemma startSubscription_registers serverUrl subjectText sinkId key (st st1 : State number) :
  startSubscription' serverUrl subjectText sinkId key st = (Ok tt, st1) ->
  JsMap.has (subscriptions (session st1)) key = true.
Proof.
  unfold startSubscription. unfold bind at 1. unfold gets at 1.
  destruct (JsMap.has (subscriptions (session st)) key) eqn:Hactive.
  - unfold ret. now intros [= <-].
  - unfold bind at 1.
    destruct (getConnection' serverUrl st) as [[managed|error] st2]; [|discriminate].
    unfold bind, subscribe, modify. intros [= <-]. simpl.
    apply JsMapFacts.has_get. eexists. apply JsMapFacts.get_set_eq.
Qed.

(** C7: for a key that has an active subscription context, a call of
    [startSubscription] with that key returns and leaves the state as it
    is: the stores and counters of the session, the connection table,
    and the trace of calls, so that no connection is asked for and no
    subscription opened. *)
Theorem startSubscription_active_key_is_noop
    serverUrl subjectText sinkId key (st : State number) :
  JsMap.has (subscriptions (session st)) key = true ->
  startSubscription' serverUrl subjectText sinkId key st = (Ok tt, st).
Proof. apply startSubscription_active. Qed.

(** C10: for a key without a registered context, [stopSubscription] and
    [stopReplyHandler] return and leave the state as it is: both context
    maps, both counter maps, the connection table, and the trace of
    calls, so that no unsubscribe is issued. *)
Theorem stop_unknown_key_is_noop key (st : State number) :
  (JsMap.get (subscriptions (session st)) key = None ->
   stopSubscription number key st = (Ok tt, st))
  /\ (JsMap.get (replies (session st)) key = None ->
      stopReplyHandler number key st = (Ok tt, st)).
Proof.
  split; intros Habsent.
  - now apply (stopContext_absent subscriptionStore).
  - now apply (stopContext_absent replyStore).
Qed.

(** *** Traces only grow *)




















(** *** Tearing contexts down *)

Definition isUnsubscribe (event : Event) : bool :=
  match event with EUnsubscribe _ => true | _ => false end.

(** From [st] to [st1] only subscriptions were cancelled: the trace
    grew by unsubscribe calls and the connection table is untouched. *)
Definition tearsDown (st st1 : State number) : Prop :=
  exists events,
    trace (world st1) = (trace (world st) ++ events)%list
    /\ forallb isUnsubscribe events = true
    /\ connections (session st1) = connections (session st).

Lemma tearsDown_refl st : tearsDown st st.
Proof. exists []. now rewrite app_nil_r. Qed.

Lemma tearsDown_trans st st1 st2 :
  tearsDown st st1 -> tearsDown st1 st2 -> tearsDown st st2.
Proof.
  intros (e1 & T1 & U1 & C1) (e2 & T2 & U2 & C2).
  exists (e1 ++ e2)%list. repeat split.
  - now rewrite T2, T1, app_assoc.
  - rewrite forallb_app. now rewrite U1, U2.
  - congruence.
Qed.

(** [stopContext] returns, and only tears down. *)
Lemma stopContext_tearsDown kind key st :
  exists st1, stopContext number kind key st = (Ok tt, st1) /\ tearsDown st st1.
Proof.
  unfold stopContext, bind, gets.
  destruct (JsMap.get (getStore kind (session st)) key) as [context|].
  - eexists. split; [reflexivity|].
    exists [EUnsubscribe (subscriptionId (subscription context))].
    repeat split. destruct kind; reflexivity.
  - eexists. split; [reflexivity | apply tearsDown_refl].
Qed.

Lemma forEach_stopContext_tearsDown kind (items : list (string * SubscriptionContext)) :
  forall st,
    exists st1,
      forEach items (fun item => stopContext number kind (fst item)) st = (Ok tt, st1)
      /\ tearsDown st st1.
Proof.
  induction items as [|item rest IH]; intros st; simpl.
  - eexists. split; [reflexivity | apply tearsDown_refl].
  - unfold bind.
    destruct (stopContext_tearsDown kind (fst item) st) as (st1 & -> & Hdown1).
    destruct (IH st1) as (st2 & -> & Hdown2).
    eexists. split; [reflexivity | eapply tearsDown_trans; eauto].
Qed.




(** *** Reconnection *)

(** The state when [reconnectConnection] has called the connector. *)
Definition afterConnect (options : NatsConnectOptions) (st : State number) : State number :=
  snd (callConnector number connector options st).

Lemma reconnect_until_connector key existing parsed st :
  JsMap.get (connections (session st)) key = Some existing ->
  newURL (rawUrl existing) = Ok parsed ->
  reconnectConnection' key st
  = match connector (connectorCalls (world st)) (optionsOfUrl parsed) with
    | Raise error => (Raise error, afterConnect (optionsOfUrl parsed) st)
    | Ok newConnection =>
        (forEach (contextsOf key (subscriptions (session st)))
           (fun sub => stopContext number subscriptionStore (fst sub)) ;;
         forEach (contextsOf key (replies (session st)))
           (fun reply => stopContext number replyStore (fst reply)) ;;
         emit (EClose (connectionId (connection existing))) ;;
         await (close (connection existing)) ;;
         installConnection number
           {| serverKey := key; rawUrl := rawUrl existing;
              connection := newConnection; markedClosed := false |} ;;
         forEach (contextsOf key (subscriptions (session st)))
           (fun sub =>
              startSubscription' (rawUrl existing) (subject (snd sub)) (sink (snd sub))
                (fst sub)) ;;
         forEach (contextsOf key (replies (session st)))
           (fun reply =>
              startReplyHandler' (rawUrl existing) (subject (snd reply))
                (template (snd reply)) (payload (snd reply)) (sink (snd reply))
                (fst reply) (headers (snd reply))) ;;
         ret (List.length (contextsOf key (subscriptions (session st)))
              + List.length (contextsOf key (replies (session st)))))
          (afterConnect (optionsOfUrl parsed) st)
    end.
Proof.
  intros Hexisting Hurl.
  unfold reconnectConnection. unfold bind at 1. unfold gets at 1.
  rewrite Hexisting.
  unfold bind at 1. unfold gets at 1.
  unfold bind at 1. unfold gets at 1.
  unfold bind at 1. unfold buildConnectOptions at 1.
  unfold bind at 1. unfold await at 1. rewrite Hurl. unfold ret at 1.
  unfold bind at 1. unfold afterConnect.
  unfold callConnector. cbn [snd fst].
  destruct (connector (connectorCalls (world st)) (optionsOfUrl parsed)); reflexivity.
Qed.

(** C2, amended: when the connector call of [reconnectConnection]
    fails, the failure reaches the caller and nothing has been torn down:
    the session is as before the call, so every context bound to the
    identity is still registered and the counters and the connection
    table are unchanged; the only call made is the one on the connector. *)
Theorem reconnect_connector_failure_keeps_contexts key existing parsed error st :
  JsMap.get (connections (session st)) key = Some existing ->
  newURL (rawUrl existing) = Ok parsed ->
  connector (connectorCalls (world st)) (optionsOfUrl parsed) = Raise error ->
  exists st1,
    reconnectConnection' key st = (Raise error, st1)
    /\ session st1 = session st
    /\ trace (world st1) = push (trace (world st)) (EConnect (optionsOfUrl parsed)).
Proof.
  intros Hexisting Hurl Hconnect.
  rewrite (reconnect_until_connector key existing parsed st Hexisting Hurl), Hconnect.
  eexists. split; [reflexivity|]. split; reflexivity.
Qed.


(** *** Pulling from JetStream *)

Lemma markConnectionClosed_returns key st :
  exists st1, markConnectionClosed number key st = (Ok tt, st1).
Proof.
  unfold markConnectionClosed, bind, gets.
  destruct (JsMap.get (connections (session st)) key); eexists; reflexivity.
Qed.

Lemma pullMessage_returns managed prefix streamName durableName sinkId msg st :
  exists st1,
    pullMessage number now readMsgHeaders managed prefix streamName durableName
      sinkId msg st = (Ok tt, st1).
Proof.
  unfold pullMessage. unfold bind at 1. unfold timestamp at 1.
  unfold bind at 1. unfold appendLogBlock at 1, emit at 1.
  destruct (msgAck msg) as [[[]|error]|]; try (eexists; reflexivity).
  unfold bind at 1.
  match goal with
  | |- context [(if ?c then _ else _) ?s] =>
      assert (Hmark : exists st1, (if c then markConnectionClosed number (serverKey managed)
                                   else ret tt) s = (Ok tt, st1))
        by (destruct c; [apply markConnectionClosed_returns | eexists; reflexivity])
  end.
  destruct Hmark as [st1 ->].
  eexists; reflexivity.
Qed.

Lemma forEach_pullMessage_returns managed prefix streamName durableName sinkId msgs :
  forall st,
    exists st1,
      forEach msgs
        (pullMessage number now readMsgHeaders managed prefix streamName durableName
           sinkId) st = (Ok tt, st1).
Proof.
  induction msgs as [|msg rest IH]; intros st; simpl.
  - eexists; reflexivity.
  - unfold bind.
    destruct (pullMessage_returns managed prefix streamName durableName sinkId msg st)
      as [st1 ->].
    apply IH.
Qed.

(** The failure of the consumer lookup, of the fetch, or of the
    iteration over the fetched messages, when there is one. *)
Definition pullFailure (js : JetStreamClient number) (streamName durableName : string)
    (batch deadline : Z) : option JsError :=
  match consumersGet js streamName durableName with
  | Raise error => Some error
  | Ok consumer =>
      match fetch consumer {| max_messages := batch; expires := deadline |} with
      | Raise error => Some error
      | Ok iterator => failure iterator
      end
  end.

(** The statements inside the [try] fail with the failure of the lookup
    or fetch, and return when there is none. *)
Lemma pullBody_outcome managed js prefix streamName durableName batch deadline sinkId st :
  exists st1,
    pullBody number now readMsgHeaders managed js prefix streamName durableName
      batch deadline sinkId st
    = (match pullFailure js streamName durableName batch deadline with
       | Some error => Raise error
       | None => Ok tt
       end, st1).
Proof.
  unfold pullBody, pullFailure. unfold bind at 1. unfold await at 1.
  destruct (consumersGet js streamName durableName) as [consumer|error];
    [|eexists; reflexivity].
  unfold bind at 1. unfold await at 1.
  destruct (fetch consumer _) as [iterator|error]; [|eexists; reflexivity].
  unfold bind at 1.
  destruct (forEach_pullMessage_returns managed prefix streamName durableName sinkId
              (delivered iterator) st) as [st1 ->].
  destruct (failure iterator) as [error|]; [eexists; reflexivity|].
  destruct (List.length (delivered iterator) =? 0)%nat; eexists; reflexivity.
Qed.

(** C9: [pullJetStream] raises when acquiring the connection fails, with
    that failure, and when the connection has no JetStream capability,
    with the error "JetStream is not available on this connection"; in
    every other case it returns. A failure of the consumer lookup, of the
    fetch or of the iteration is then the last record appended to the
    sink of the pull: one item titled "Pull error" whose body is the
    message of the failure, under the time of the record, the
    connection, the stream and the durable name. *)
Theorem pullJetStream_raises_only_before_fetch
    serverUrl streamName durableName options sinkId (st : State number) :
  match getConnection' serverUrl st with
  | (Raise error, st1) =>
      pullJetStream' serverUrl streamName durableName options sinkId st
      = (Raise error, st1)
  | (Ok managed, st1) =>
      match jetstream (connection managed) with
      | None =>
          pullJetStream' serverUrl streamName durableName options sinkId st
          = (Raise (ErrorObject "Error" "JetStream is not available on this connection"),
             st1)
      | Some js =>
          exists st2,
            pullJetStream' serverUrl streamName durableName options sinkId st
            = (Ok tt, st2)
            /\ forall error,
                 pullFailure js streamName durableName
                   (Z.max 1 (batchSize options)) (Z.max 1000 (timeoutMs options))
                 = Some error ->
                 exists earlier tick,
                   trace (world st2)
                   = push earlier
                       (EAppendLog sinkId
                          {| meta :=
                               [("timestamp", now tick);
                                ("connection", connectionInfo number (connection managed));
                                ("stream", streamName); ("durable", durableName)];
                             items :=
                               [{| title := "Pull error";
                                   body := Some (formatError error);
                                   itemHeaders := None |}] |}
                          None)
      end
  end.
Proof.
  remember (pullJetStream' serverUrl streamName durableName options sinkId st)
    as outcome eqn:Hout.
  unfold pullJetStream in Hout. unfold bind at 1 in Hout.
  destruct (getConnection' serverUrl st) as [[managed|error] st1]; [|exact Hout].
  destruct (jetstream (connection managed)) as [js|]; [|exact Hout].
  unfold tryCatch in Hout.
  destruct (pullBody_outcome managed js (connectionInfo number (connection managed))
              streamName durableName (Z.max 1 (batchSize options))
              (Z.max 1000 (timeoutMs options)) sinkId st1) as [st2 Hbody].
  rewrite Hbody in Hout.
  destruct (pullFailure js streamName durableName _ _) as [failed|].
  - eexists. split; [exact Hout|].
    intros error [= <-]. eexists. eexists. reflexivity.
  - eexists. split; [exact Hout|]. discriminate.
Qed.

(** *** Stopping a context and its counter *)



Lemma getCounts_setCounts kind counts (s : NatsSession number) :
  getCounts kind (setCounts kind counts s) = counts.
Proof. now destruct kind. Qed.

Lemma getCounts_setStore kind store (s : NatsSession number) :
  getCounts kind (setStore kind store s) = getCounts kind s.
Proof. now destruct kind. Qed.

Lemma getStore_setStore kind store (s : NatsSession number) :
  getStore kind (setStore kind store s) = store.
Proof. now destruct kind. Qed.

Lemma getStore_setCounts kind counts (s : NatsSession number) :
  getStore kind (setCounts kind counts s) = getStore kind s.
Proof. now destruct kind. Qed.

(** What [stopContext] does to the state for a registered key. *)
Lemma stopContext_registered kind key context (st : State number) :
  JsMap.get (getStore kind (session st)) key = Some context ->
  exists st1,
    stopContext number kind key st = (Ok tt, st1)
    /\ getStore kind (session st1) = JsMap.delete (getStore kind (session st)) key
    /\ getCounts kind (session st1)
       = decrementCount (getCounts kind (session st)) (server context) (subject context).
Proof.
  intros Hget. unfold stopContext, bind, gets. rewrite Hget.
  eexists. split; [reflexivity|]. simpl.
  rewrite getStore_setCounts, getStore_setStore, getCounts_setCounts, getCounts_setStore.
  now split.
Qed.





(** *** The counters agree with the stores in every state the methods
    reach *)

Definition consistent (s : NatsSession number) : Prop :=
  counted (subscriptions s) (subscriptionCounts s)
  /\ counted (replies s) (replyCounts s).

Lemma consistent_kind (s : NatsSession number) :
  consistent s <-> forall kind, counted (getStore kind s) (getCounts kind s).
Proof.
  split.
  - intros [Hs Hr] []; assumption.
  - intros H. split; [apply (H subscriptionStore) | apply (H replyStore)].
Qed.

Lemma consistent_initial : consistent (session (initialState number)).
Proof. split; apply counted_empty. Qed.

(** A method keeps the agreement. *)
Definition keeps {A : Type} (op : Op number A) : Prop :=
  forall st, consistent (session st) -> consistent (session (snd (op st))).

(** A method leaves the stores and counters as they are. *)
Definition frames {A : Type} (op : Op number A) : Prop :=
  forall st kind,
    getStore kind (session (snd (op st))) = getStore kind (session st)
    /\ getCounts kind (session (snd (op st))) = getCounts kind (session st).

Lemma frames_keeps A (op : Op number A) : frames op -> keeps op.
Proof.
  intros Hframe st Hconsistent. apply consistent_kind. intros kind.
  destruct (Hframe st kind) as [-> ->]. now apply consistent_kind.
Qed.

Lemma frames_bind A B (m : Op number A) (k : A -> Op number B) :
  frames m -> (forall a, frames (k a)) -> frames (bind m k).
Proof.
  intros Hm Hk st kind. unfold bind. specialize (Hm st kind).
  destruct (m st) as [[a|error] st1]; simpl in *; [|exact Hm].
  destruct (Hk a st1 kind) as [-> ->]. exact Hm.
Qed.

Lemma keeps_bind A B (m : Op number A) (k : A -> Op number B) :
  keeps m -> (forall a, keeps (k a)) -> keeps (bind m k).
Proof.
  intros Hm Hk st Hconsistent. unfold bind. specialize (Hm st Hconsistent).
  destruct (m st) as [[a|error] st1]; simpl in *; [|exact Hm].
  now apply Hk.
Qed.

Lemma keeps_forEach A (items : list A) (step : A -> Op number unit) :
  (forall item, keeps (step item)) -> keeps (forEach items step).
Proof.
  intros Hstep. induction items as [|item rest IH]; simpl.
  - now intros st.
  - apply keeps_bind; [apply Hstep | intros _; exact IH].
Qed.

Lemma frames_getConnection url : frames (getConnection' url).
Proof.
  unfold getConnection, normalizeServerUrl, buildConnectOptions, installConnection.
  repeat first
    [ apply frames_bind; [|intros ?]
    | match goal with
      | |- frames (match ?x with _ => _ end) => destruct x
      end
    | (intros st kind; destruct kind; split; reflexivity) ].
Qed.

Lemma frames_markConnectionClosed key : frames (markConnectionClosed number key).
Proof.
  unfold markConnectionClosed.
  apply frames_bind; [now intros st []|]. intros [managed|]; now intros st [].
Qed.

Lemma stopContext_session kind key context (st : State number) :
  JsMap.get (getStore kind (session st)) key = Some context ->
  session (snd (stopContext number kind key st))
  = setCounts kind
      (decrementCount (getCounts kind (session st)) (server context) (subject context))
      (setStore kind (JsMap.delete (getStore kind (session st)) key) (session st)).
Proof.
  intros Hget. unfold stopContext, bind, gets. rewrite Hget. simpl.
  now rewrite getCounts_setStore.
Qed.

Lemma keeps_stopContext kind key : keeps (stopContext number kind key).
Proof.
  intros st Hconsistent.
  destruct (JsMap.get (getStore kind (session st)) key) as [context|] eqn:Hget.
  - rewrite (stopContext_session kind key context st Hget).
    destruct Hconsistent as [Hsubs Hreplies].
    destruct kind; split; simpl in *; try assumption;
      now apply counted_unregister.
  - rewrite (stopContext_absent kind key st Hget). exact Hconsistent.
Qed.

(** What registering does to the session: [start] stands for the two
    last statements of [startSubscription] and [startReplyHandler]. *)
Lemma keeps_register kind key context (s : NatsSession number) :
  consistent s ->
  JsMap.has (getStore kind s) key = false ->
  consistent
    (setCounts kind
       (incrementCount (getCounts kind (setStore kind (JsMap.set (getStore kind s) key context) s))
          (server context) (subject context))
       (setStore kind (JsMap.set (getStore kind s) key context) s)).
Proof.
  intros [Hsubs Hreplies] Hnew.
  assert (Hget : JsMap.get (getStore kind s) key = None).
  { unfold JsMap.has in Hnew. now destruct (JsMap.get (getStore kind s) key). }
  destruct kind; split; simpl in *; try assumption;
    now apply counted_register.
Qed.

Lemma frames_consistent (st st1 : State number) :
  (forall kind,
     getStore kind (session st1) = getStore kind (session st)
     /\ getCounts kind (session st1) = getCounts kind (session st)) ->
  consistent (session st) -> consistent (session st1).
Proof.
  intros Hframe Hconsistent. apply consistent_kind. intros kind.
  destruct (Hframe kind) as [-> ->]. now apply consistent_kind.
Qed.

Lemma keeps_startSubscription serverUrl subjectText sinkId key :
  keeps (startSubscription' serverUrl subjectText sinkId key).
Proof.
  intros st Hconsistent. unfold startSubscription.
  unfold bind at 1. unfold gets at 1.
  destruct (JsMap.has (subscriptions (session st)) key) eqn:Hactive; [exact Hconsistent|].
  unfold bind at 1.
  pose proof (frames_getConnection serverUrl st) as Hframe.
  destruct (getConnection' serverUrl st) as [[managed|error] st1]; cbn [snd] in *.
  - pose proof (frames_consistent st st1 Hframe Hconsistent) as Hc1.
    assert (Hnew : JsMap.has (getStore subscriptionStore (session st1)) key = false)
      by (destruct (Hframe subscriptionStore) as [-> _]; exact Hactive).
    exact (keeps_register subscriptionStore key
             {| subject := subjectText; server := serverKey managed;
                subscription := {| subscriptionId := subscribeCalls (world st1) |};
                sink := sinkId; template := None; payload := None; headers := None |}
             (session st1) Hc1 Hnew).
  - exact (frames_consistent st st1 Hframe Hconsistent).
Qed.

Lemma keeps_startReplyHandler serverUrl subjectText templateText payloadText sinkId key
    replyHeaders :
  keeps (startReplyHandler' serverUrl subjectText templateText payloadText sinkId key
           replyHeaders).
Proof.
  intros st Hconsistent. unfold startReplyHandler.
  unfold bind at 1. unfold gets at 1.
  destruct (JsMap.has (replies (session st)) key) eqn:Hactive; [exact Hconsistent|].
  unfold bind at 1.
  pose proof (frames_getConnection serverUrl st) as Hframe.
  destruct (getConnection' serverUrl st) as [[managed|error] st1]; cbn [snd] in *.
  - pose proof (frames_consistent st st1 Hframe Hconsistent) as Hc1.
    assert (Hnew : JsMap.has (getStore replyStore (session st1)) key = false)
      by (destruct (Hframe replyStore) as [-> _]; exact Hactive).
    exact (keeps_register replyStore key
             {| subject := subjectText; server := serverKey managed;
                subscription := {| subscriptionId := subscribeCalls (world st1) |};
                sink := sinkId; template := templateText; payload := payloadText;
                headers := replyHeaders |}
             (session st1) Hc1 Hnew).
  - exact (frames_consistent st st1 Hframe Hconsistent).
Qed.

(** Steps that do not write the stores or the counters. *)
Ltac frames_steps :=
  repeat first
    [ apply frames_bind; [|intros ?]
    | apply frames_getConnection
    | apply frames_markConnectionClosed
    | match goal with
      | |- frames (match ?x with _ => _ end) => destruct x
      | |- frames (if ?x then _ else _) => destruct x
      end
    | (intros ? []; split; reflexivity) ].

Lemma frames_forEach A (items : list A) (step : A -> Op number unit) :
  (forall item, frames (step item)) -> frames (forEach items step).
Proof.
  intros Hstep. induction items as [|item rest IH]; simpl.
  - now intros st [].
  - apply frames_bind; [apply Hstep | intros _; exact IH].
Qed.

Lemma frames_tryCatch A (body : Op number A) (handler : JsError -> Op number A) :
  frames body -> (forall error, frames (handler error)) -> frames (tryCatch body handler).
Proof.
  intros Hbody Hhandler st kind. unfold tryCatch. specialize (Hbody st kind).
  destruct (body st) as [[a|error] st1]; simpl in *; [exact Hbody|].
  destruct (Hhandler error st1 kind) as [-> ->]. exact Hbody.
Qed.

Lemma frames_pullMessage managed prefix streamName durableName sinkId msg :
  frames (pullMessage number now readMsgHeaders managed prefix streamName durableName
            sinkId msg).
Proof. unfold pullMessage, timestamp, appendLogBlock. frames_steps. Qed.

(** [pullJetStream] touches neither the stores nor the counters. *)
Lemma frames_pullJetStream serverUrl streamName durableName options sinkId :
  frames (pullJetStream' serverUrl streamName durableName options sinkId).
Proof.
  unfold pullJetStream.
  apply frames_bind; [apply frames_getConnection | intros managed].
  destruct (jetstream (connection managed)); [|now intros st []].
  apply frames_tryCatch.
  - unfold pullBody, timestamp, appendLogBlock.
    apply frames_bind; [now intros st []|intros consumer].
    apply frames_bind; [now intros st []|intros iterator].
    apply frames_bind; [apply frames_forEach; intros; apply frames_pullMessage | intros _].
    frames_steps.
  - intros error. unfold timestamp, appendLogBlock. frames_steps.
Qed.

Lemma keeps_stopAll kind : keeps (stopAll number kind).
Proof.
  unfold stopAll. apply keeps_bind; [now intros st|].
  intros keys. apply keeps_forEach. intros key. apply keeps_stopContext.
Qed.

Lemma keeps_reset : keeps (reset number).
Proof.
  unfold reset.
  apply keeps_bind; [apply keeps_stopAll | intros _].
  apply keeps_bind; [apply keeps_stopAll | intros _].
  apply frames_keeps. frames_steps.
  apply frames_forEach. intros entry. now intros st [].
Qed.

Lemma keeps_reconnectConnection key : keeps (reconnectConnection' key).
Proof.
  unfold reconnectConnection.
  apply keeps_bind; [now intros st | intros [existing|]]; [|now intros st].
  apply keeps_bind; [now intros st | intros subs].
  apply keeps_bind; [now intros st | intros replies].
  apply keeps_bind;
    [apply frames_keeps; unfold buildConnectOptions; frames_steps | intros options].
  apply keeps_bind; [apply frames_keeps; now intros st [] | intros newConnection].
  apply keeps_bind;
    [apply keeps_forEach; intros; apply keeps_stopContext | intros _].
  apply keeps_bind;
    [apply keeps_forEach; intros; apply keeps_stopContext | intros _].
  apply keeps_bind; [apply frames_keeps; now intros st [] | intros _].
  apply keeps_bind; [apply frames_keeps; now intros st [] | intros _].
  apply keeps_bind;
    [apply frames_keeps; unfold installConnection; frames_steps | intros _].
  apply keeps_bind;
    [apply keeps_forEach; intros; apply keeps_startSubscription | intros _].
  apply keeps_bind;
    [apply keeps_forEach; intros; apply keeps_startReplyHandler | intros _].
  now intros st.
Qed.

End AnyCollaborators.

(** *** Runs with the reference collaborators *)

Lemma startSubscription_active_key_is_noop_witness :
  JsMap.has (subscriptions (session SessionReference.oneSubscription)) "k1" = true
  /\ SessionReference.start SessionReference.connector "k1" SessionReference.oneSubscription
     = (Ok tt, SessionReference.oneSubscription).
Proof.
  split; [reflexivity|].
  apply (startSubscription_active_key_is_noop Z Reference.newURL SessionReference.connector
           "nats://demo" "lab.metrics" 7 "k1" SessionReference.oneSubscription).
  reflexivity.
Defined.

Lemma stop_unknown_key_is_noop_witness :
  stopSubscription Z "k2" SessionReference.oneSubscription
    = (Ok tt, SessionReference.oneSubscription)
  /\ stopReplyHandler Z "k1" SessionReference.oneSubscription
    = (Ok tt, SessionReference.oneSubscription).
Proof.
  destruct (stop_unknown_key_is_noop Z "k2" SessionReference.oneSubscription) as [Hsub _].
  destruct (stop_unknown_key_is_noop Z "k1" SessionReference.oneSubscription) as [_ Hreply].
  split; [apply Hsub | apply Hreply]; reflexivity.
Defined.

(** Two subscriptions to [lab.metrics] on [nats://demo], under the keys
    [k1] and [k2]. *)
Definition twoSubscriptions : State Z :=
  SessionReference.run (SessionReference.start SessionReference.connector "k2")
    SessionReference.oneSubscription.

Lemma twoSubscriptions_consistent : consistent Z (session twoSubscriptions).
Proof.
  apply (keeps_startSubscription Z Reference.newURL SessionReference.connector).
  apply (keeps_startSubscription Z Reference.newURL SessionReference.connector).
  apply consistent_initial.
Qed.





(** Stopping the two subscriptions one after the other: the count of
    the subject goes from 2 to 1 to 0, and the entry of the pair is gone
    at the end. *)
Example stop_both_subscriptions :
  let st1 := snd (stopSubscription Z "k1" twoSubscriptions) in
  let st2 := snd (stopSubscription Z "k2" st1) in
  getSubscriptionCount Z "lab.metrics" (session twoSubscriptions) = 2%Z
  /\ getSubscriptionCount Z "lab.metrics" (session st1) = 1%Z
  /\ getSubscriptionCount Z "lab.metrics" (session st2) = 0%Z
  /\ subscriptionCounts (session st2) = [].
Proof. repeat split. Qed.

(** The options the connector receives for [nats://demo]. *)
Definition demoOptions : NatsConnectOptions :=
  {| servers := ["nats://demo"]; user := None; pass := None |}.

Definition demoUrl : Parser.URL :=
  {| Parser.protocol := "nats:"; Parser.username := ""; Parser.password := "";
     Parser.hostname := "demo"; Parser.port := ""; Parser.pathname := "" |}.

Definition reconnectFailing : Result nat * State Z :=
  reconnectConnection Z Reference.newURL SessionReference.connectorOnce "nats://demo"
    SessionReference.oneSubscriptionOnce.

(** C2 as stated fails: with one subscription on [nats://demo] and a
    connector that rejects the second call, [reconnectConnection]
    raises the connector's error, and the subscription is still
    registered, still counted, and was never unsubscribed. *)
Lemma connector_failure_leaves_subscription_active :
  fst reconnectFailing = Raise SessionReference.refused
  /\ isSubscribed Z "k1" (session (snd reconnectFailing)) = true
  /\ getSubscriptionCount Z "lab.metrics" (session (snd reconnectFailing)) = 1%Z
  /\ existsb isUnsubscribe (trace (world (snd reconnectFailing))) = false.
Proof. repeat split. Qed.

Lemma reconnect_connector_failure_keeps_contexts_witness :
  exists st1,
    reconnectFailing = (Raise SessionReference.refused, st1)
    /\ session st1 = session SessionReference.oneSubscriptionOnce
    /\ trace (world st1)
       = push (trace (world SessionReference.oneSubscriptionOnce)) (EConnect demoOptions).
Proof.
  apply (reconnect_connector_failure_keeps_contexts Z Reference.newURL
           SessionReference.connectorOnce "nats://demo"
           {| serverKey := "nats://demo"; rawUrl := "nats://demo";
              connection := SessionReference.plainConnection 0;
              markedClosed := false |}
           demoUrl SessionReference.refused SessionReference.oneSubscriptionOnce);
    reflexivity.
Defined.

Definition reconnectWorking : Result nat * State Z :=
  reconnectConnection Z Reference.newURL SessionReference.connector "nats://demo"
    SessionReference.oneSubscription.


Definition isSubscribeOn (id : nat) (event : Event) : bool :=
  match event with ESubscribe c _ _ => Nat.eqb c id | _ => false end.




(** A pull on a connection whose fetch is rejected with "boom". *)
Definition pullFailing : Result unit * State Z :=
  pullJetStream Z Reference.newURL SessionReference.connectorJetStream
    SessionReference.now SessionReference.readMsgHeaders
    "nats://demo" "ORDERS" "worker" {| batchSize := 1; timeoutMs := 1000 |} 7
    (initialState Z).

Lemma pullJetStream_raises_only_before_fetch_witness :
  fst pullFailing = Ok tt
  /\ exists earlier,
       trace (world (snd pullFailing))
       = push earlier
           (EAppendLog 7
              {| meta :=
                   [("timestamp", "2024-01-01T00:00:00.000Z");
                    ("connection", "[client@localhost:4222]");
                    ("stream", "ORDERS"); ("durable", "worker")];
                 items :=
                   [{| title := "Pull error"; body := Some "boom";
                       itemHeaders := None |}] |}
              None).
Proof.
  pose proof (pullJetStream_raises_only_before_fetch Z Reference.newURL
                SessionReference.connectorJetStream SessionReference.now
                SessionReference.readMsgHeaders
                "nats://demo" "ORDERS" "worker" {| batchSize := 1; timeoutMs := 1000 |} 7
                (initialState Z)) as Hpull.
  change (getConnection Z Reference.newURL SessionReference.connectorJetStream
            "nats://demo" (initialState Z))
    with (Ok {| serverKey := "nats://demo"; rawUrl := "nats://demo";
                connection := SessionReference.jetStreamConnection 0;
                markedClosed := false |},
          snd (getConnection Z Reference.newURL SessionReference.connectorJetStream
                 "nats://demo" (initialState Z))) in Hpull.
  cbn [jetstream connection SessionReference.jetStreamConnection] in Hpull.
  destruct Hpull as (st2 & Hrun & Hfailure).
  destruct (Hfailure SessionReference.boom eq_refl) as (earlier & tick & Htrace).
  unfold pullFailing. rewrite Hrun. split; [reflexivity|].
  exists earlier. exact Htrace.
Defined.

End SessionFacts.

(* ================================================================== *)
(** ** Properties of the segments and of the parsed actions *)
(* ================================================================== *)

Module DocumentFacts.
Import JsString Parser.

(** *** The shape of the segments *)

(** A delimiter segment holds a delimiter line; a block holds at least
    one line and no delimiter line. *)
Definition segmentShape (segment : NatsDocumentSegment) : Prop :=
  match segment with
  | delimiter line => BLOCK_DELIMITER (text line) = true
  | block lines =>
      lines <> [] /\ Forall (fun line => BLOCK_DELIMITER (text line) = false) lines
  end.

Definition isBlock (segment : NatsDocumentSegment) : bool :=
  match segment with block _ => true | delimiter _ => false end.

(** Two blocks stand next to each other somewhere in the sequence. *)
Fixpoint adjacentBlocks (segments : list NatsDocumentSegment) : bool :=
  match segments with
  | [] => false
  | segment :: rest =>
      (isBlock segment && match rest with
                          | next :: _ => isBlock next
                          | [] => false
                          end)
      || adjacentBlocks rest
  end.

(** The last segment, when there is one, is a delimiter. *)
Definition endsClosed (segments : list NatsDocumentSegment) : Prop :=
  segments = [] \/ exists front line, segments = push front (delimiter line).

Lemma adjacentBlocks_push_delimiter segments line :
  adjacentBlocks (push segments (delimiter line)) = adjacentBlocks segments.
Proof.
  unfold push. induction segments as [|segment rest IH]; [reflexivity|].
  cbn [app adjacentBlocks]. rewrite IH.
  destruct rest as [|next rest1]; cbn [app isBlock]; [|reflexivity].
  now rewrite andb_false_r.
Qed.

Lemma adjacentBlocks_push_block segments lines :
  endsClosed segments ->
  adjacentBlocks (push segments (block lines)) = adjacentBlocks segments.
Proof.
  intros [->|(front & line & ->)]; [reflexivity|].
  unfold push. rewrite <- app_assoc. cbn [app].
  induction front as [|segment rest IH]; [reflexivity|].
  cbn [app adjacentBlocks]. rewrite IH.
  destruct rest as [|next rest1]; reflexivity.
Qed.

Lemma flushBlock_shape segments current :
  Forall segmentShape segments ->
  Forall (fun line => BLOCK_DELIMITER (text line) = false) current ->
  endsClosed segments ->
  adjacentBlocks segments = false ->
  Forall segmentShape (fst (flushBlock segments current))
  /\ adjacentBlocks (fst (flushBlock segments current)) = false.
Proof.
  intros Hshape Hcurrent Hclosed Hadjacent. unfold flushBlock.
  destruct current as [|line more]; cbn [List.length Nat.ltb Nat.leb fst]; [now split|].
  split.
  - unfold push. apply Forall_app. split; [exact Hshape|].
    constructor; [|constructor]. split; [discriminate | exact Hcurrent].
  - now rewrite adjacentBlocks_push_block.
Qed.

Lemma segmentLoop_shape lines :
  forall index segments current,
    Forall segmentShape segments ->
    Forall (fun line => BLOCK_DELIMITER (text line) = false) current ->
    endsClosed segments ->
    adjacentBlocks segments = false ->
    let out := segmentLoop lines index segments current in
    Forall segmentShape (fst out)
    /\ Forall (fun line => BLOCK_DELIMITER (text line) = false) (snd out)
    /\ endsClosed (fst out)
    /\ adjacentBlocks (fst out) = false.
Proof.
  induction lines as [|raw rest IH];
    intros index segments current Hshape Hcurrent Hclosed Hadjacent;
    cbn [segmentLoop]; [now repeat split|].
  destruct (BLOCK_DELIMITER raw) eqn:Hraw.
  - destruct (flushBlock_shape segments current Hshape Hcurrent Hclosed Hadjacent)
      as [Hshape1 Hadjacent1].
    destruct (flushBlock segments current) as [segments1 current1] eqn:Hflush.
    cbn [fst] in Hshape1, Hadjacent1.
    assert (Hcurrent1 : current1 = []).
    { pose proof (SegmenterFacts.flushBlock_keeps segments current) as [_ Hnil].
      now rewrite Hflush in Hnil. }
    subst current1. apply IH.
    + unfold push. apply Forall_app. split; [exact Hshape1|].
      constructor; [exact Hraw | constructor].
    + constructor.
    + right. now eexists _, _.
    + now rewrite adjacentBlocks_push_delimiter.
  - apply IH; try assumption.
    unfold push. apply Forall_app. split; [exact Hcurrent|].
    constructor; [exact Hraw | constructor].
Qed.

(** X1: a document has at least one segment; every delimiter segment
    holds a delimiter line, every block holds at least one line and no
    delimiter line, and no two blocks are next to each other. *)
Theorem segments_alternate (text : string) :
  Forall segmentShape (segmentNatsDocument text)
  /\ adjacentBlocks (segmentNatsDocument text) = false
  /\ segmentNatsDocument text <> [].
Proof.
  pose proof (SegmenterFacts.segmentNatsDocument_not_synthetic text) as Hreal.
  unfold segmentNatsDocument, segmentLines in *.
  pose proof (segmentLoop_shape (splitLines text) 0 [] []
                (Forall_nil _) (Forall_nil _) (or_introl eq_refl) eq_refl) as Hloop.
  destruct (segmentLoop (splitLines text) 0 [] []) as [segments current].
  cbn [fst snd] in Hloop. destruct Hloop as (Hshape & Hcurrent & Hclosed & Hadjacent).
  pose proof (flushBlock_shape segments current Hshape Hcurrent Hclosed Hadjacent)
    as [Hshape1 Hadjacent1].
  destruct (flushBlock segments current) as [segments1 current1].
  cbn [fst] in Hshape1, Hadjacent1.
  destruct segments1 as [|segment rest]; [now contradiction Hreal|].
  cbn [List.length Nat.eqb]. repeat split; try assumption. discriminate.
Qed.

(** *** The fields of a parsed action *)

Lemma truthy_append_r a b : truthy b = true -> truthy (a ++ b) = true.
Proof. destruct a; [trivial | reflexivity]. Qed.

Lemma buildServerUrl_truthy url : truthy (buildServerUrl url) = true.
Proof. unfold buildServerUrl. now apply truthy_append_r. Qed.

Section AnyPlatform.

Variable newURL : string -> Result URL.
Variable decodeURIComponent : string -> Result string.
Variable randomUUID : nat -> string.

Abbreviation parseBlock := (parseActionFromBlock newURL decodeURIComponent randomUUID).
Abbreviation parseDocument := (parseNatsDocument newURL decodeURIComponent randomUUID).
Abbreviation parseSegs := (parseSegments newURL decodeURIComponent randomUUID).
Abbreviation resolve := (resolveConnection newURL decodeURIComponent).

(** A resolved connection has a server and a subject, both non-empty. *)
Lemma resolveConnection_shape target meta connection :
  resolve target meta = Ok (Some connection) ->
  truthy (connServer connection) = true
  /\ truthyOpt (connSubject connection) = true.
Proof.
  unfold resolveConnection. intros Hresolve.
  repeat (ParserFacts.split_match Hresolve; try discriminate);
    injection Hresolve as <-; cbn [connServer connSubject]; split;
    try apply buildServerUrl_truthy;
    repeat match goal with
           | H : negb _ = false |- _ => apply negb_false_iff in H
           end; assumption.
Qed.

(** What every action carries, and what each kind carries beside. *)
Definition actionShape (action : NatsAction) : Prop :=
  (exists serverText, server action = Some serverText /\ truthy serverText = true)
  /\ match type action with
     | jetstreamPull =>
         stream action = Some (subject action)
         /\ truthy (subject action) = true
         /\ truthyOpt (durable action) = true
         /\ (exists n, batchSize action = Some n /\ (1 <= n)%Z)
         /\ data action = None /\ template action = None
     | reply =>
         truthy (subject action) = true
         /\ stream action = None /\ durable action = None
         /\ batchSize action = None /\ timeoutMs action = None
     | _ =>
         truthy (subject action) = true
         /\ stream action = None /\ durable action = None
         /\ batchSize action = None /\ template action = None
     end.

Lemma parseActionFromBlock_shape lines calls action calls1 :
  parseBlock lines calls = Ok (Some action, calls1) -> actionShape action.
Proof.
  intros Hparse. unfold parseActionFromBlock in Hparse.
  ParserFacts.run_parser Hparse;
    injection Hparse as Haction _; subst;
    match goal with
    | H : match ?resolved with Ok _ => _ | Raise _ => _ end = Ok (Some _, _) |- _ =>
        destruct resolved as [[connection|]|] eqn:Hresolve; try discriminate;
        injection H as ? ?; subst;
        destruct (resolveConnection_shape _ _ _ Hresolve) as [Hserver Hsubject]
    end;
    (split; [eexists; split; [reflexivity | exact Hserver]|]);
    cbn [type subject stream durable batchSize timeoutMs data template];
    repeat match goal with
           | H : _ || _ = false |- _ => apply orb_false_elim in H; destruct H
           | H : negb _ = false |- _ => apply negb_false_iff in H
           end.
  all: try (repeat split; assumption).
  all: try (match goal with
            | H : truthyOpt (JsMap.get ?m "nats-stream") = true |- _ =>
                destruct (JsMap.get m "nats-stream") as [streamText|];
                [|discriminate]
            end;
            repeat split; try assumption; eexists; split; [reflexivity | lia]).
  all: repeat split; try assumption; eexists; split; [reflexivity | lia].
Qed.

(** What holds of every action a block yields holds of every action of
    the document. *)
Lemma parseSegments_Forall (P : NatsAction -> Prop) segments :
  (forall lines calls action calls1,
     In (block lines) segments ->
     parseBlock lines calls = Ok (Some action, calls1) -> P action) ->
  forall actions calls result calls1,
    Forall P actions ->
    parseSegs segments actions calls = Ok (result, calls1) ->
    Forall P result.
Proof.
  induction segments as [|segment rest IH]; intros Hblock actions calls result calls1 Hacc Hrun.
  - cbn in Hrun. now injection Hrun as <- _.
  - assert (Hrest : forall lines calls action calls1,
              In (block lines) rest ->
              parseBlock lines calls = Ok (Some action, calls1) -> P action)
      by (intros; eapply Hblock; [right|]; eauto).
    destruct segment as [line|lines]; cbn [parseSegments] in Hrun.
    + eapply IH; eauto.
    + unfold bind in Hrun.
      destruct (parseBlock lines calls) as [[[action|] calls2]|e] eqn:Hparse;
        try discriminate.
      * eapply (IH Hrest); [|exact Hrun].
        unfold push. apply Forall_app. split; [exact Hacc|].
        constructor; [|constructor]. eapply Hblock; [now left | exact Hparse].
      * eapply IH; eauto.
Qed.

Lemma parseNatsDocument_Forall (P : NatsAction -> Prop) text :
  (forall lines calls action calls1,
     In (block lines) (segmentNatsDocument text) ->
     parseBlock lines calls = Ok (Some action, calls1) -> P action) ->
  forall calls result calls1,
    parseDocument text calls = Ok (result, calls1) -> Forall P result.
Proof.
  intros Hblock calls result calls1. unfold parseNatsDocument.
  apply parseSegments_Forall; [exact Hblock | constructor].
Qed.

(** *** The line of an action *)

Lemma parseActionFromBlock_line lines calls action calls1 :
  parseBlock lines calls = Ok (Some action, calls1) ->
  exists commandLine,
    In commandLine lines
    /\ rawLineNumber commandLine = lineNumber action
    /\ mapKeyword (firstToken (trim (text commandLine))) = Some (type action).
Proof.
  intros Hparse. unfold parseActionFromBlock in Hparse.
  ParserFacts.run_parser Hparse;
    injection Hparse as Haction _; subst;
    match goal with
    | H : nth_error _ _ = Some ?line |- _ =>
        exists line; split; [eapply nth_error_In; exact H|]
    end;
    (split; [reflexivity | assumption]).
Qed.

Lemma numbered_In line lines :
  forall index,
    In line (numbered index lines) ->
    index <= rawLineNumber line
    /\ nth_error lines (rawLineNumber line - index) = Some (text line).
Proof.
  induction lines as [|raw rest IH]; intros index Hin; cbn [numbered] in Hin.
  - contradiction.
  - destruct Hin as [<-|Hin]; cbn [rawLineNumber text].
    + rewrite Nat.sub_diag. split; [lia | reflexivity].
    + apply IH in Hin as [Hle Hnth]. split; [lia|].
      replace (rawLineNumber line - index) with (S (rawLineNumber line - S index)) by lia.
      exact Hnth.
Qed.

(** The lines of a block of a document are lines of the document, at
    the positions they carry. *)
Lemma block_line_position document lines line :
  In (block lines) (segmentNatsDocument document) ->
  In line lines ->
  nth_error (splitLines document) (rawLineNumber line) = Some (text line).
Proof.
  intros Hblock Hline.
  assert (Hin : In line (rejoin (segmentNatsDocument document))).
  { unfold rejoin. apply in_flat_map. exists (block lines). now split. }
  rewrite SegmenterFacts.segmentNatsDocument_lines in Hin.
  apply numbered_In in Hin as [_ Hnth]. now rewrite Nat.sub_0_r in Hnth.
Qed.

(** The line an action names starts with the keyword of the action. *)
Definition onCommandLine (document : string) (action : NatsAction) : Prop :=
  exists line,
    nth_error (splitLines document) (lineNumber action) = Some line
    /\ mapKeyword (firstToken (trim line)) = Some (type action).

(** *** Forwarded headers and metadata *)

(** No key of the forwarded headers is a metadata header, and every key
    of the metadata map is one. *)
Definition partitioned (acc : JsMap.t string * JsMap.t string) : Prop :=
  (forall k, In k (JsMap.keys (fst acc)) -> setHas META_HEADERS (toLowerCase k) = false)
  /\ (forall k, In k (JsMap.keys (snd acc)) -> setHas META_HEADERS k = true).

Lemma partitionStep_partitioned acc entry :
  partitioned acc -> partitioned (partitionStep acc entry).
Proof.
  destruct acc as [forwarded meta]. intros [Hforwarded Hmeta]. unfold partitionStep.
  destruct (setHas META_HEADERS (toLowerCase (key entry))) eqn:Hkind;
    split; cbn [fst snd] in *; intros k Hin; try (now auto);
    apply JsMapFacts.keys_set in Hin as [->|Hin]; auto.
Qed.

Lemma fold_partitioned entries :
  forall acc, partitioned acc -> partitioned (fold_left partitionStep entries acc).
Proof.
  induction entries as [|entry rest IH]; intros acc Hacc; [exact Hacc|].
  cbn [fold_left]. apply IH. now apply partitionStep_partitioned.
Qed.

Lemma partitionHeaders_partitioned entries forwarded meta :
  partitionHeaders entries = (Some forwarded, meta) ->
  forwarded <> []
  /\ (forall k, In k (JsMap.keys forwarded) ->
        setHas META_HEADERS (toLowerCase k) = false).
Proof.
  unfold partitionHeaders.
  destruct (List.length entries =? 0)%nat; [discriminate|].
  pose proof (fold_partitioned entries (JsMap.empty, JsMap.empty)) as Hfold.
  destruct (fold_left partitionStep entries (JsMap.empty, JsMap.empty)) as [h m].
  destruct (0 <? JsMap.size h)%nat eqn:Hsize; [|discriminate].
  intros [= <- <-]. split.
  - intros ->. discriminate.
  - apply Hfold. split; intros k [].
Qed.

Lemma parseActionFromBlock_headers lines calls action calls1 forwarded :
  parseBlock lines calls = Ok (Some action, calls1) ->
  headers action = Some forwarded ->
  forwarded <> []
  /\ (forall k, In k (JsMap.keys forwarded) ->
        setHas META_HEADERS (toLowerCase k) = false).
Proof.
  intros Hparse Hheaders. unfold parseActionFromBlock in Hparse.
  ParserFacts.run_parser Hparse;
    injection Hparse as Haction _; subst; cbn [headers] in Hheaders; subst;
    match goal with
    | H : partitionHeaders _ = (Some _, _) |- _ =>
        exact (partitionHeaders_partitioned _ _ _ H)
    end.
Qed.

(** *** The body *)

Definition blank (line : string) : bool := (String.length (trim line) =? 0)%nat.

Lemma shiftBlank_head bodyLines first more :
  shiftBlank bodyLines = first :: more -> blank first = false.
Proof.
  induction bodyLines as [|l rest IH]; cbn [shiftBlank]; [discriminate|].
  fold (blank l). destruct (blank l) eqn:Hblank; [exact IH|].
  now intros [= <- _].
Qed.

Lemma popBlank_head bodyLines first more :
  popBlank bodyLines = first :: more -> exists rest, bodyLines = first :: rest.
Proof.
  destruct bodyLines as [|l rest]; cbn [popBlank]; [discriminate|].
  destruct (popBlank rest).
  - destruct (String.length (trim l) =? 0)%nat; [discriminate|].
    intros [= <- _]. now exists rest.
  - intros [= <- _]. now exists rest.
Qed.

Lemma blank_empty : blank "" = true.
Proof. reflexivity. Qed.

Lemma join_head_nonempty sep first more : first <> "" -> join sep (first :: more) <> "".
Proof.
  intros Hfirst. destruct first as [|c first]; [contradiction|].
  destruct more; cbn [join]; discriminate.
Qed.

Lemma sanitizeLoop_nonempty value calls :
  value <> "" -> fst (sanitizeLoop randomUUID value 0 calls) <> "".
Proof.
  destruct value as [|c rest]; [contradiction|]. intros _. cbn [sanitizeLoop].
  destruct (matchesRandomId (String c rest)).
  - destruct (sanitizeLoop randomUUID rest 9 (S calls)). discriminate.
  - destruct (sanitizeLoop randomUUID rest 0 calls). discriminate.
Qed.

(** A body is absent or has a character: never the empty string. *)
Lemma collectBody_nonempty lines startIndex calls body calls1 :
  collectBody randomUUID lines startIndex calls = Ok (Some body, calls1) ->
  body <> "".
Proof.
  unfold collectBody.
  destruct (List.length lines <=? startIndex)%nat; [discriminate|].
  destruct (popBlank (shiftBlank (map text (skipn startIndex lines))))
    as [|first more] eqn:Hbody; [discriminate|].
  cbn [List.length Nat.eqb]. unfold bind, sanitizeRandomIds, ret.
  pose proof (sanitizeLoop_nonempty
                (join (String LF EmptyString) (first :: more)) calls) as Hsanitized.
  destruct (sanitizeLoop randomUUID _ 0 calls) as [out calls2].
  intros [= <- _]. apply Hsanitized. apply join_head_nonempty.
  apply popBlank_head in Hbody as [rest Hshift].
  apply shiftBlank_head in Hshift. intros ->. now rewrite blank_empty in Hshift.
Qed.

Lemma parseActionFromBlock_body lines calls action calls1 :
  parseBlock lines calls = Ok (Some action, calls1) ->
  data action <> Some "" /\ template action <> Some "".
Proof.
  intros Hparse. unfold parseActionFromBlock in Hparse.
  ParserFacts.run_parser Hparse;
    injection Hparse as Haction _; subst; cbn [data template];
    (split; try discriminate);
    match goal with
    | H : collectBody _ _ _ _ = Ok (?b, _) |- _ =>
        destruct b as [bodyText|]; [|discriminate];
        intros [= ->]; now apply collectBody_nonempty in H
    end.
Qed.

(** *** Exceptions *)

Lemma resolveConnection_raise target meta error :
  resolve target meta = Raise error ->
  exists escaped, decodeURIComponent escaped = Raise error.
Proof.
  unfold resolveConnection. intros Hresolve.
  destruct (tryParseUrl newURL _) as [url|].
  - unfold decodeSubject in Hresolve.
    match type of Hresolve with
    | context [decodeURIComponent ?escaped] =>
        destruct (decodeURIComponent escaped) as [decoded|raised] eqn:Hdecode
    end.
    + destruct (negb _); discriminate.
    + injection Hresolve as <-. eauto.
  - destruct (JsMap.get meta "nats-server") as [serverText|]; [|discriminate].
    destruct (negb (truthy serverText)); [discriminate|].
    destruct (negb _); discriminate.
Qed.

Lemma parseActionFromBlock_raise lines calls error :
  parseBlock lines calls = Raise error ->
  exists escaped, decodeURIComponent escaped = Raise error.
Proof.
  intros Hparse. unfold parseActionFromBlock in Hparse.
  destruct (List.length lines =? 0)%nat; [discriminate|].
  destruct (findRequestLineIndex lines) as [requestIndex|] eqn:Hfind; [|discriminate].
  apply ParserFacts.findRequestLineLoop_in_range in Hfind. destruct Hfind as [line Hline].
  rewrite Nat.sub_0_r in Hline. rewrite Hline in Hparse.
  destruct (mapKeyword _) as [kind|]; [|discriminate].
  unfold bind, parseHeaders in Hparse.
  destruct (ParserFacts.parseHeadersLoop_returns randomUUID
              (skipn (S requestIndex) lines) (S requestIndex) [] calls)
    as [[headerResult calls2] Hheaders].
  rewrite Hheaders in Hparse.
  destruct (partitionHeaders (fst headerResult)) as [forwarded meta].
  destruct (ParserFacts.collectBody_returns randomUUID lines (snd headerResult) calls2)
    as [[body calls3] Hbody].
  rewrite Hbody in Hparse. unfold lift in Hparse.
  match type of Hparse with
  | context [resolveConnection ?a ?b ?c ?d] =>
      destruct (resolveConnection a b c d) as [connection|raised] eqn:Hresolve
  end.
  - unfold ret in Hparse.
    repeat (ParserFacts.split_match Hparse; try discriminate).
  - injection Hparse as <-. eapply resolveConnection_raise; eauto.
Qed.

Lemma parseSegments_raise segments :
  forall actions calls error,
    parseSegs segments actions calls = Raise error ->
    exists escaped, decodeURIComponent escaped = Raise error.
Proof.
  induction segments as [|segment rest IH]; intros actions calls error Hrun.
  - discriminate.
  - destruct segment as [line|lines]; cbn [parseSegments] in Hrun; [eauto|].
    unfold bind in Hrun.
    destruct (parseBlock lines calls) as [[[action|] calls2]|raised] eqn:Hparse; eauto.
    injection Hrun as <-. eapply parseActionFromBlock_raise; eauto.
Qed.

(** *** Document order *)

Definition increasing (numbers : list nat) : Prop := StronglySorted lt numbers.

Lemma increasing_app_inv front back :
  increasing (front ++ back)%list ->
  increasing back /\ (forall x y, In x front -> In y back -> x < y).
Proof.
  induction front as [|n front IH]; cbn [app]; intros Hsorted.
  - split; [exact Hsorted | intros x y []].
  - apply StronglySorted_inv in Hsorted as [Hrest Hall].
    destruct (IH Hrest) as [Hback Hlt]. split; [exact Hback|].
    intros x y [<-|Hx] Hy; [|now apply Hlt].
    rewrite Forall_forall in Hall. apply Hall, in_or_app. now right.
Qed.

Lemma increasing_push front n :
  increasing front -> (forall x, In x front -> x < n) -> increasing (push front n).
Proof.
  unfold push. induction front as [|m front IH]; cbn [app]; intros Hsorted Hbelow.
  - repeat constructor.
  - apply StronglySorted_inv in Hsorted as [Hrest Hall]. constructor.
    + apply IH; [exact Hrest | intros x Hx; apply Hbelow; now right].
    + apply Forall_app. split; [exact Hall|].
      constructor; [apply Hbelow; now left | constructor].
Qed.

Lemma numbered_increasing lines :
  forall index, increasing (map rawLineNumber (numbered index lines)).
Proof.
  induction lines as [|raw rest IH]; intros index; cbn [numbered map].
  - constructor.
  - constructor; [apply IH|]. apply Forall_forall. intros n Hn.
    apply in_map_iff in Hn as (line & <- & Hline).
    apply numbered_In in Hline as [Hle _]. cbn [rawLineNumber]. lia.
Qed.

Lemma parseSegments_increasing segments :
  forall actions calls result calls1,
    increasing (map rawLineNumber (rejoin segments)) ->
    increasing (map lineNumber actions) ->
    (forall x y, In x (map lineNumber actions) ->
                 In y (map rawLineNumber (rejoin segments)) -> x < y) ->
    parseSegs segments actions calls = Ok (result, calls1) ->
    increasing (map lineNumber result).
Proof.
  induction segments as [|segment rest IH];
    intros actions calls result calls1 Hlines Hactions Hbelow Hrun.
  - cbn in Hrun. now injection Hrun as <- _.
  - unfold rejoin in Hlines, Hbelow. cbn [flat_map] in Hlines, Hbelow.
    rewrite map_app in Hlines, Hbelow. fold (rejoin rest) in Hlines, Hbelow.
    destruct (increasing_app_inv _ _ Hlines) as [Hrest Hacross].
    destruct segment as [line|lines]; cbn [parseSegments] in Hrun.
    + apply (IH actions calls result calls1); auto.
      intros x y Hx Hy. apply Hbelow; [exact Hx | apply in_or_app; now right].
    + unfold bind in Hrun. cbn [segmentRawLines] in *.
      destruct (parseBlock lines calls) as [[[action|] calls2]|raised] eqn:Hparse;
        [| |discriminate].
      * destruct (parseActionFromBlock_line _ _ _ _ Hparse)
          as (commandLine & Hin & Hnumber & _).
        assert (Hhere : In (lineNumber action) (map rawLineNumber lines)).
        { rewrite <- Hnumber. now apply in_map. }
        apply (IH (push actions action) calls2 result calls1); auto.
        -- unfold push. rewrite map_app. cbn [map].
           apply increasing_push; [exact Hactions|].
           intros x Hx. apply Hbelow; [exact Hx | apply in_or_app; now left].
        -- unfold push. rewrite map_app. cbn [map]. intros x y Hx Hy.
           apply in_app_or in Hx as [Hx|[<-|[]]].
           ++ apply Hbelow; [exact Hx | apply in_or_app; now right].
           ++ now apply Hacross.
      * apply (IH actions calls2 result calls1); auto.
        intros x y Hx Hy. apply Hbelow; [exact Hx | apply in_or_app; now right].
Qed.

Lemma parseNatsDocument_increasing document calls actions calls1 :
  parseDocument document calls = Ok (actions, calls1) ->
  increasing (map lineNumber actions).
Proof.
  unfold parseNatsDocument. apply parseSegments_increasing.
  - rewrite SegmenterFacts.segmentNatsDocument_lines. apply numbered_increasing.
  - constructor.
  - intros x y [].
Qed.

End AnyPlatform.

(** *** Lookup by line *)

Lemma find_increasing (actions : list NatsAction) (kind : option NatsActionType) action :
  increasing (map lineNumber actions) ->
  In action actions ->
  match kind with None => True | Some wanted => wanted = type action end ->
  Actions.findActionNearestLine actions (lineNumber action) kind = Some action.
Proof.
  unfold Actions.findActionNearestLine.
  induction actions as [|first rest IH]; intros Hsorted Hin Hkind; [contradiction|].
  cbn [map] in Hsorted. apply StronglySorted_inv in Hsorted as [Hrest Hall].
  cbn [find]. destruct Hin as [->|Hin].
  - rewrite Nat.eqb_refl. destruct kind as [wanted|]; [|reflexivity].
    subst wanted. now rewrite String.eqb_refl.
  - rewrite Forall_forall in Hall.
    assert (Hlt : lineNumber first < lineNumber action) by (apply Hall; now apply in_map).
    replace (lineNumber first =? lineNumber action)%nat with false
      by (symmetry; apply Nat.eqb_neq; lia).
    cbn [andb]. now apply IH.
Qed.

(** A document with a comment, then three commands between delimiters. *)
Definition demoDocument : string :=
  join (String LF EmptyString)
    [ "# orders";
      "SUBSCRIBE nats://demo/orders.created";
      "###";
      "JETSTREAM nats://demo/ORDERS";
      "NATS-Stream: ORDERS";
      "NATS-Durable: worker";
      "NATS-Batch: 0";
      "###";
      "PUBLISH nats://demo/orders.created";
      "Trace-Id: abc";
      "NATS-Timeout: 500";
      "";
      "{}" ].

Definition demoSubscribe : NatsAction :=
  {| type := subscribe; subject := "orders.created"; lineNumber := 1;
     server := Some "nats://demo"; data := None; template := None;
     stream := None; durable := None; batchSize := None; timeoutMs := None;
     headers := None |}.

Definition demoPull : NatsAction :=
  {| type := jetstreamPull; subject := "ORDERS"; lineNumber := 3;
     server := Some "nats://demo"; data := None; template := None;
     stream := Some "ORDERS"; durable := Some "worker"; batchSize := Some 1%Z;
     timeoutMs := None; headers := None |}.

Definition demoPublish : NatsAction :=
  {| type := publish; subject := "orders.created"; lineNumber := 8;
     server := Some "nats://demo"; data := Some "{}"; template := None;
     stream := None; durable := None; batchSize := None;
     timeoutMs := Some 500%Z; headers := Some [("Trace-Id", "abc")] |}.

Definition demoActions : list NatsAction := [demoSubscribe; demoPull; demoPublish].

Lemma demoDocument_parses :
  Reference.parseNatsDocument demoDocument = Ok (demoActions, 0).
Proof. reflexivity. Qed.

(** X2: every action [parseNatsDocument] returns is complete for its
    type. It names a server and a subject that are not empty. A JetStream
    pull has its stream as subject, a durable name that is not empty and
    a batch size of at least 1, and carries no payload; a Reply carries
    no stream, durable, batch size or timeout; the other types carry no
    stream, durable, batch size or template. *)
Theorem parsed_actions_are_complete
    newURL decodeURIComponent randomUUID document calls actions calls1 :
  parseNatsDocument newURL decodeURIComponent randomUUID document calls
    = Ok (actions, calls1) ->
  Forall actionShape actions.
Proof.
  apply parseNatsDocument_Forall. intros lines calls2 action calls3 _.
  apply parseActionFromBlock_shape.
Qed.

Lemma parsed_actions_are_complete_witness :
  Reference.parseNatsDocument demoDocument = Ok (demoActions, 0)
  /\ Forall actionShape demoActions.
Proof.
  split; [reflexivity|].
  apply (parsed_actions_are_complete Reference.newURL Reference.decodeURIComponent
           Reference.randomUUID demoDocument 0 demoActions 0).
  reflexivity.
Defined.

(** X3: the line number of every action [parseNatsDocument] returns is
    the index of a line of the document, and that line, trimmed, starts
    with the keyword of the action's type. *)
Theorem parsed_actions_name_command_lines
    newURL decodeURIComponent randomUUID document calls actions calls1 :
  parseNatsDocument newURL decodeURIComponent randomUUID document calls
    = Ok (actions, calls1) ->
  Forall (onCommandLine document) actions.
Proof.
  apply parseNatsDocument_Forall. intros lines calls2 action calls3 Hblock Hparse.
  destruct (parseActionFromBlock_line _ _ _ _ _ _ _ Hparse)
    as (commandLine & Hin & Hnumber & Hkeyword).
  exists (text commandLine). split; [|exact Hkeyword].
  rewrite <- Hnumber. now apply (block_line_position document lines).
Qed.

Lemma parsed_actions_name_command_lines_witness :
  Reference.parseNatsDocument demoDocument = Ok (demoActions, 0)
  /\ Forall (onCommandLine demoDocument) demoActions.
Proof.
  split; [reflexivity|].
  apply (parsed_actions_name_command_lines Reference.newURL
           Reference.decodeURIComponent Reference.randomUUID demoDocument 0
           demoActions 0).
  reflexivity.
Defined.

(** X4: [parseNatsDocument] returns the actions in document order: their
    line numbers increase strictly, so no two actions share a line. *)
Theorem parsed_actions_in_document_order
    newURL decodeURIComponent randomUUID document calls actions calls1 :
  parseNatsDocument newURL decodeURIComponent randomUUID document calls
    = Ok (actions, calls1) ->
  StronglySorted lt (map lineNumber actions).
Proof. apply parseNatsDocument_increasing. Qed.

Lemma parsed_actions_in_document_order_witness :
  Reference.parseNatsDocument demoDocument = Ok (demoActions, 0)
  /\ StronglySorted lt (map lineNumber demoActions).
Proof.
  split; [reflexivity|].
  apply (parsed_actions_in_document_order Reference.newURL
           Reference.decodeURIComponent Reference.randomUUID demoDocument 0
           demoActions 0).
  reflexivity.
Defined.

(** X5: looking up an action of a parsed document by its own line number
    finds that action, without a type and with the action's type. *)
Theorem findActionNearestLine_finds_parsed_action
    newURL decodeURIComponent randomUUID document calls actions calls1 action :
  parseNatsDocument newURL decodeURIComponent randomUUID document calls
    = Ok (actions, calls1) ->
  In action actions ->
  Actions.findActionNearestLine actions (lineNumber action) None = Some action
  /\ Actions.findActionNearestLine actions (lineNumber action) (Some (type action))
     = Some action.
Proof.
  intros Hparse Hin. apply parseNatsDocument_increasing in Hparse.
  split; apply find_increasing; cbn; auto.
Qed.

Lemma findActionNearestLine_finds_parsed_action_witness :
  Reference.parseNatsDocument demoDocument = Ok (demoActions, 0)
  /\ In demoPull demoActions
  /\ Actions.findActionNearestLine demoActions 3 None = Some demoPull
  /\ Actions.findActionNearestLine demoActions 3 (Some jetstreamPull) = Some demoPull.
Proof.
  split; [reflexivity|]. split; [right; left; reflexivity|].
  apply (findActionNearestLine_finds_parsed_action Reference.newURL
           Reference.decodeURIComponent Reference.randomUUID demoDocument 0
           demoActions 0 demoPull).
  - reflexivity.
  - right; left; reflexivity.
Defined.

(** The forwarded headers of an action, when present, have a key, and no
    key is a metadata header in any letter case. *)
Definition forwardsNoMetadata (action : NatsAction) : Prop :=
  forall forwarded,
    headers action = Some forwarded ->
    forwarded <> []
    /\ (forall k, In k (JsMap.keys forwarded) ->
          setHas META_HEADERS (toLowerCase k) = false).

(** X6: the headers of a parsed action never contain a NATS-* metadata
    header (NATS-Server, NATS-Timeout, NATS-Stream, NATS-Durable,
    NATS-Batch, NATS-Reply-Mode, NATS-Subject, in any letter case), and
    they are absent rather than an object without keys. *)
Theorem parsed_headers_exclude_metadata
    newURL decodeURIComponent randomUUID document calls actions calls1 :
  parseNatsDocument newURL decodeURIComponent randomUUID document calls
    = Ok (actions, calls1) ->
  Forall forwardsNoMetadata actions.
Proof.
  apply parseNatsDocument_Forall. intros lines calls2 action calls3 _ Hparse forwarded.
  now apply (parseActionFromBlock_headers _ _ _ _ _ _ _ _ Hparse).
Qed.

Lemma parsed_headers_exclude_metadata_witness :
  Reference.parseNatsDocument demoDocument = Ok (demoActions, 0)
  /\ Forall forwardsNoMetadata demoActions.
Proof.
  split; [reflexivity|].
  apply (parsed_headers_exclude_metadata Reference.newURL
           Reference.decodeURIComponent Reference.randomUUID demoDocument 0
           demoActions 0).
  reflexivity.
Defined.

(** X7: the payload and the template of a parsed action are absent or
    have a character: a body of blank lines only is no body. *)
Theorem parsed_bodies_are_not_empty
    newURL decodeURIComponent randomUUID document calls actions calls1 :
  parseNatsDocument newURL decodeURIComponent randomUUID document calls
    = Ok (actions, calls1) ->
  Forall (fun action => data action <> Some "" /\ template action <> Some "") actions.
Proof.
  apply parseNatsDocument_Forall. intros lines calls2 action calls3 _.
  apply parseActionFromBlock_body.
Qed.

Lemma parsed_bodies_are_not_empty_witness :
  Reference.parseNatsDocument demoDocument = Ok (demoActions, 0)
  /\ Forall (fun action => data action <> Some "" /\ template action <> Some "")
       demoActions.
Proof.
  split; [reflexivity|].
  apply (parsed_bodies_are_not_empty Reference.newURL
           Reference.decodeURIComponent Reference.randomUUID demoDocument 0
           demoActions 0).
  reflexivity.
Defined.

(** X8: an exception of [parseNatsDocument] is an exception that
    [decodeURIComponent] threw on some text: the parser throws nothing of
    its own, and an invalid URL is caught. *)
Theorem parseNatsDocument_raises_only_decode_errors
    newURL decodeURIComponent randomUUID document calls error :
  parseNatsDocument newURL decodeURIComponent randomUUID document calls
    = Raise error ->
  exists escaped, decodeURIComponent escaped = Raise error.
Proof. apply parseSegments_raise. Qed.

Lemma parseNatsDocument_raises_only_decode_errors_witness :
  Reference.parseNatsDocument "SUBSCRIBE nats://demo/%zz" = Raise Reference.URIError
  /\ exists escaped, Reference.decodeURIComponent escaped = Raise Reference.URIError.
Proof.
  split; [reflexivity|].
  apply (parseNatsDocument_raises_only_decode_errors Reference.newURL
           Reference.decodeURIComponent Reference.randomUUID
           "SUBSCRIBE nats://demo/%zz" 0 Reference.URIError).
  reflexivity.
Defined.

End DocumentFacts.

(* ================================================================== *)
(** ** Facts: the [$msg] tokens of a reply template *)
(* ================================================================== *)

Module InterpolationFacts.
Import JsString JsStringFacts NatsTypes Template.

(** No character of the text is a dollar sign. *)
Definition noDollar (s : string) : bool :=
  forallChars (fun c => negb (Ascii.eqb "$" c)) s.

Lemma noDollar_append s1 s2 :
  noDollar s1 = true -> noDollar s2 = true -> noDollar (s1 ++ s2) = true.
Proof.
  unfold noDollar. intros H1 H2. induction s1 as [|c s1 IH]; cbn [append forallChars] in *.
  - exact H2.
  - apply andb_prop in H1 as [Hc H1]. rewrite Hc. now apply IH.
Qed.

Lemma getSubstitution_noDollar replacement before matched after :
  noDollar replacement = true ->
  getSubstitution replacement before matched after = replacement.
Proof.
  unfold noDollar. induction replacement as [|c rest IH]; intros Hplain; [reflexivity|].
  cbn [forallChars] in Hplain. apply andb_prop in Hplain as [Hc Hrest].
  assert (Hstep : getSubstitution (String c rest) before matched after
                  = String c (getSubstitution rest before matched after)).
  { destruct c as [[] [] [] [] [] [] [] []]; try reflexivity. discriminate. }
  rewrite Hstep. now rewrite IH.
Qed.

Section AnyPattern.

(** A pattern that starts with a dollar sign, as the four patterns of
    [interpolateTemplate] do. *)
Variable tail : string.
Variable keyChar : option (ascii -> bool).
Variable replacer : string -> string -> string -> string -> string.

Abbreviation loop := (replaceLoop (String "$" tail) keyChar replacer).

Lemma loop_skip s1 :
  forall s2 before,
    loop before (s1 ++ s2) (String.length s1) = loop (before ++ s1) s2 0.
Proof.
  induction s1 as [|c s1 IH]; intros s2 before.
  - now rewrite append_nil_r.
  - cbn [append String.length replaceLoop]. rewrite IH.
    now rewrite append_assoc.
Qed.

(** Text without a dollar sign is copied. *)
Lemma loop_plain pre :
  noDollar pre = true ->
  forall rest before,
    loop before (pre ++ rest) 0 = pre ++ loop (before ++ pre) rest 0.
Proof.
  unfold noDollar. induction pre as [|c pre IH]; intros Hplain rest before.
  - now rewrite append_nil_r.
  - cbn [forallChars] in Hplain. apply andb_prop in Hplain as [Hc Hpre].
    cbn [append replaceLoop]. unfold matchAt. cbn [startsWith].
    apply negb_true_iff in Hc. rewrite Hc. cbn [andb]. f_equal.
    rewrite IH by exact Hpre. now rewrite append_assoc.
Qed.

Lemma loop_noDollar s before : noDollar s = true -> loop before s 0 = s.
Proof.
  intros Hplain. rewrite <- (append_nil_r s) at 1.
  rewrite loop_plain by exact Hplain. cbn [replaceLoop]. apply append_nil_r.
Qed.

(** A dollar sign where the pattern does not match is copied. *)
Lemma loop_other rest before :
  matchAt (String "$" tail) keyChar (String "$" rest) = None ->
  loop before (String "$" rest) 0 = String "$" (loop (before ++ "$") rest 0).
Proof. intros Hmatch. cbn [replaceLoop]. now rewrite Hmatch. Qed.

(** A match is replaced, and the pass goes on behind it. *)
Lemma loop_match key post before :
  matchAt (String "$" tail) keyChar (String "$" (tail ++ key ++ post)) = Some key ->
  loop before (String "$" (tail ++ key ++ post)) 0
  = replacer before (String "$" tail ++ key) key
      (sliceFrom (String.length (String "$" tail ++ key)) (String "$" (tail ++ key ++ post)))
    ++ loop (before ++ "$" ++ tail ++ key) post 0.
Proof.
  intros Hmatch. cbn [replaceLoop]. rewrite Hmatch. f_equal.
  replace (String.length (String "$" tail ++ key) - 1) with (String.length (tail ++ key))
    by (cbn [append String.length]; lia).
  rewrite <- (append_assoc tail key post), loop_skip. f_equal.
  now rewrite append_assoc.
Qed.

End AnyPattern.

Lemma startsWith_append p : forall s, startsWith (p ++ s) p = true.
Proof.
  induction p as [|c p IH]; intros s; [reflexivity|].
  cbn [append startsWith]. now rewrite Ascii.eqb_refl, IH.
Qed.

(** One token of a pattern without group, between texts without dollar. *)
Lemma replaceAllWithString_token tail replacement pre post :
  noDollar pre = true -> noDollar post = true -> noDollar replacement = true ->
  replaceAllWithString (String "$" tail) replacement (pre ++ String "$" tail ++ post)
  = pre ++ replacement ++ post.
Proof.
  intros Hpre Hpost Hreplacement. unfold replaceAllWithString, replaceAll.
  rewrite loop_plain by exact Hpre. f_equal.
  pose proof (loop_match tail None
                (fun before matched _ after => getSubstitution replacement before matched after)
                "" post ("" ++ pre)) as Hmatch.
  cbn [append] in Hmatch |- *. rewrite !append_nil_r in Hmatch.
  rewrite Hmatch.
  - rewrite getSubstitution_noDollar by exact Hreplacement. f_equal.
    now apply loop_noDollar.
  - unfold matchAt.
    change (String "$" (tail ++ post)) with (String "$" tail ++ post).
    now rewrite startsWith_append.
Qed.

(** One token of a pattern with a group, between texts without dollar. *)
Lemma replaceAllWithFunction_token tail inClass callback pre key post :
  noDollar pre = true -> noDollar post = true ->
  key <> "" -> forallChars inClass key = true ->
  TemplateFacts.stopsClass inClass post = true ->
  replaceAllWithFunction (String "$" tail) inClass callback
    (pre ++ String "$" tail ++ key ++ post)
  = pre ++ callback key ++ post.
Proof.
  intros Hpre Hpost Hne Hkey Hstop. unfold replaceAllWithFunction, replaceAll.
  rewrite loop_plain by exact Hpre. f_equal.
  pose proof (loop_match tail (Some inClass) (fun _ _ found _ => callback found)
                key post ("" ++ pre)) as Hmatch.
  cbn [append] in Hmatch |- *.
  rewrite Hmatch.
  - f_equal. now apply loop_noDollar.
  - unfold matchAt.
    change (String "$" (tail ++ key ++ post)) with (String "$" tail ++ key ++ post).
    rewrite startsWith_append, sliceFrom_append.
    rewrite TemplateFacts.takeWhile_append_stop by assumption.
    destruct key; [contradiction | reflexivity].
Qed.

(** A text whose only dollar sign starts no match is copied. *)
Lemma replaceAll_unmatched tail keyChar replacer pre rest :
  noDollar pre = true -> noDollar rest = true ->
  matchAt (String "$" tail) keyChar (String "$" rest) = None ->
  replaceAll (String "$" tail) keyChar replacer (pre ++ String "$" rest)
  = pre ++ String "$" rest.
Proof.
  intros Hpre Hrest Hmatch. unfold replaceAll.
  rewrite loop_plain by exact Hpre. f_equal.
  rewrite loop_other by exact Hmatch. f_equal. now apply loop_noDollar.
Qed.

Lemma isHeaderNameChar_not_dollar c :
  isHeaderNameChar c = true -> negb (Ascii.eqb "$" c) = true.
Proof.
  destruct (Ascii.eqb "$" c) eqn:Hc; [|reflexivity].
  apply Ascii.eqb_eq in Hc. subst c. discriminate.
Qed.

Lemma headerName_noDollar key :
  forallChars isHeaderNameChar key = true -> noDollar key = true.
Proof.
  unfold noDollar. induction key as [|c key IH]; cbn [forallChars]; [reflexivity|].
  intros Hkey. apply andb_prop in Hkey as [Hc Hkey].
  now rewrite (isHeaderNameChar_not_dollar c Hc), IH.
Qed.

Section AnyJson.

Variable number : Type.
Variable numberToString : number -> string.
Variable numberOfNat : nat -> number.
Variable inheritedJson : JsonValue number -> string -> option (option string).

Abbreviation interpolate :=
  (interpolateTemplate number numberToString numberOfNat inheritedJson).
Abbreviation response := (safeStringResponse number numberToString).

Lemma interpolateTemplate_plain template msg :
  noDollar template = true -> interpolate template msg = template.
Proof.
  intros Hplain.
  unfold interpolateTemplate, jsonPass, msgPasses, replaceAllWithString,
    replaceAllWithFunction, replaceAll.
  now rewrite !(loop_noDollar _ _ _ template) by exact Hplain.
Qed.

Lemma interpolateTemplate_data pre post msg :
  noDollar pre = true -> noDollar post = true -> noDollar (response msg) = true ->
  interpolate (pre ++ "$msg.data" ++ post) msg = pre ++ response msg ++ post.
Proof.
  intros Hpre Hpost Hresponse.
  assert (Hout : noDollar (pre ++ response msg ++ post) = true)
    by (repeat apply noDollar_append; assumption).
  unfold interpolateTemplate, jsonPass, msgPasses.
  rewrite (replaceAllWithString_token "msg.data") by assumption.
  unfold replaceAllWithString, replaceAllWithFunction, replaceAll.
  now rewrite !(loop_noDollar _ _ _ (pre ++ response msg ++ post)) by exact Hout.
Qed.

Lemma interpolateTemplate_subject pre post msg :
  noDollar pre = true -> noDollar post = true -> noDollar (msgSubject msg) = true ->
  interpolate (pre ++ "$msg.subject" ++ post) msg = pre ++ msgSubject msg ++ post.
Proof.
  intros Hpre Hpost Hsubject.
  assert (Hout : noDollar (pre ++ msgSubject msg ++ post) = true)
    by (repeat apply noDollar_append; assumption).
  unfold interpolateTemplate, jsonPass, msgPasses.
  unfold replaceAllWithString at 2.
  change ("$msg.subject" ++ post) with (String "$" ("msg.subject" ++ post)).
  rewrite (replaceAll_unmatched "msg.data");
    [| assumption | now apply (noDollar_append "msg.subject") | reflexivity].
  change (String "$" ("msg.subject" ++ post)) with ("$msg.subject" ++ post).
  rewrite (replaceAllWithString_token "msg.subject") by assumption.
  unfold replaceAllWithFunction, replaceAll.
  now rewrite !(loop_noDollar _ _ _ (pre ++ msgSubject msg ++ post)) by exact Hout.
Qed.

Lemma interpolateTemplate_header pre key post msg :
  noDollar pre = true -> noDollar post = true ->
  key <> "" -> forallChars isHeaderNameChar key = true ->
  TemplateFacts.stopsClass isHeaderNameChar post = true ->
  noDollar (headerCallback number msg key) = true ->
  interpolate (pre ++ "$msg.headers." ++ key ++ post) msg
  = pre ++ headerCallback number msg key ++ post.
Proof.
  intros Hpre Hpost Hne Hkey Hstop Hvalue.
  assert (Hout : noDollar (pre ++ headerCallback number msg key ++ post) = true)
    by (repeat apply noDollar_append; assumption).
  assert (Hrest : noDollar ("msg.headers." ++ key ++ post) = true).
  { apply (noDollar_append "msg.headers."); [reflexivity|].
    apply noDollar_append; [now apply headerName_noDollar | exact Hpost]. }
  unfold interpolateTemplate, jsonPass, msgPasses.
  unfold replaceAllWithString.
  change ("$msg.headers." ++ key ++ post)
    with (String "$" ("msg.headers." ++ key ++ post)).
  rewrite (replaceAll_unmatched "msg.data"); [| assumption | assumption | reflexivity].
  rewrite (replaceAll_unmatched "msg.subject"); [| assumption | assumption | reflexivity].
  change (String "$" ("msg.headers." ++ key ++ post))
    with ("$msg.headers." ++ key ++ post).
  rewrite (replaceAllWithFunction_token "msg.headers.") by assumption.
  unfold replaceAllWithFunction, replaceAll.
  now rewrite !(loop_noDollar _ _ _ (pre ++ headerCallback number msg key ++ post))
    by exact Hout.
Qed.

End AnyJson.

(** X9: a template without a dollar sign is the reply as it stands,
    whatever the message. *)
Theorem interpolateTemplate_keeps_plain_text
    number numberToString numberOfNat inheritedJson template
    (msg : MsgLike number) :
  noDollar template = true ->
  interpolateTemplate number numberToString numberOfNat inheritedJson template msg
  = template.
Proof. apply interpolateTemplate_plain. Qed.

Lemma interpolateTemplate_keeps_plain_text_witness :
  noDollar "pong" = true
  /\ TemplateReference.interpolateTemplate "pong" TemplateReference.valueMessage = "pong".
Proof.
  split; [reflexivity|].
  apply (interpolateTemplate_keeps_plain_text Z TemplateReference.numberToString
           TemplateReference.numberOfNat TemplateReference.inheritedJson "pong"
           TemplateReference.valueMessage).
  reflexivity.
Defined.

(** X10: between texts without a dollar sign, the token [$msg.data] is
    replaced by the body of the message, re-encoded as JSON when it
    decodes and as received otherwise, provided that text has no dollar
    sign itself. *)
Theorem interpolateTemplate_data_token
    number numberToString numberOfNat inheritedJson pre post
    (msg : MsgLike number) :
  noDollar pre = true -> noDollar post = true ->
  noDollar (safeStringResponse number numberToString msg) = true ->
  interpolateTemplate number numberToString numberOfNat inheritedJson
    (pre ++ "$msg.data" ++ post) msg
  = pre ++ safeStringResponse number numberToString msg ++ post.
Proof. apply interpolateTemplate_data. Qed.

Lemma interpolateTemplate_data_token_witness :
  noDollar "Got " = true /\ noDollar "!" = true
  /\ noDollar (safeStringResponse Z TemplateReference.numberToString
                 TemplateReference.valueMessage) = true
  /\ TemplateReference.interpolateTemplate "Got $msg.data!" TemplateReference.valueMessage
     = "Got " ++ safeStringResponse Z TemplateReference.numberToString
                   TemplateReference.valueMessage ++ "!".
Proof.
  repeat (split; [reflexivity|]).
  apply (interpolateTemplate_data_token Z TemplateReference.numberToString
           TemplateReference.numberOfNat TemplateReference.inheritedJson "Got " "!"
           TemplateReference.valueMessage); reflexivity.
Defined.

(** X11: between texts without a dollar sign, the token [$msg.subject]
    is replaced by the subject of the message, provided the subject has
    no dollar sign. *)
Theorem interpolateTemplate_subject_token
    number numberToString numberOfNat inheritedJson pre post
    (msg : MsgLike number) :
  noDollar pre = true -> noDollar post = true ->
  noDollar (msgSubject msg) = true ->
  interpolateTemplate number numberToString numberOfNat inheritedJson
    (pre ++ "$msg.subject" ++ post) msg
  = pre ++ msgSubject msg ++ post.
Proof. apply interpolateTemplate_subject. Qed.

Lemma interpolateTemplate_subject_token_witness :
  noDollar "on " = true /\ noDollar "." = true
  /\ noDollar (msgSubject TemplateReference.valueMessage) = true
  /\ TemplateReference.interpolateTemplate "on $msg.subject." TemplateReference.valueMessage
     = "on lab.value.".
Proof.
  repeat (split; [reflexivity|]).
  apply (interpolateTemplate_subject_token Z TemplateReference.numberToString
           TemplateReference.numberOfNat TemplateReference.inheritedJson "on " "."
           TemplateReference.valueMessage); reflexivity.
Defined.

(** X12: between texts without a dollar sign, a token
    [$msg.headers.<name>] whose name ends where the text after it starts
    is replaced by the value of that header of the message, and by
    nothing when the message has no headers or no such header, provided
    the value has no dollar sign. *)
Theorem interpolateTemplate_header_token
    number numberToString numberOfNat inheritedJson pre key post
    (msg : MsgLike number) :
  noDollar pre = true -> noDollar post = true ->
  key <> "" -> forallChars isHeaderNameChar key = true ->
  TemplateFacts.stopsClass isHeaderNameChar post = true ->
  noDollar (headerCallback number msg key) = true ->
  interpolateTemplate number numberToString numberOfNat inheritedJson
    (pre ++ "$msg.headers." ++ key ++ post) msg
  = pre ++ match msgHeaders msg with
           | None => ""
           | Some h => match get h key with Some v => v | None => "" end
           end ++ post.
Proof. apply interpolateTemplate_header. Qed.

Lemma interpolateTemplate_header_token_witness :
  noDollar "id=" = true /\ noDollar ";" = true
  /\ "requestId" <> "" /\ forallChars isHeaderNameChar "requestId" = true
  /\ TemplateFacts.stopsClass isHeaderNameChar ";" = true
  /\ noDollar (headerCallback Z TemplateReference.valueMessage "requestId") = true
  /\ TemplateReference.interpolateTemplate "id=$msg.headers.requestId;"
       TemplateReference.valueMessage
     = "id=123;".
Proof.
  split; [reflexivity|]. split; [reflexivity|]. split; [discriminate|].
  repeat (split; [reflexivity|]).
  apply (interpolateTemplate_header_token Z TemplateReference.numberToString
           TemplateReference.numberOfNat TemplateReference.inheritedJson "id=" "requestId"
           ";" TemplateReference.valueMessage); try reflexivity. discriminate.
Defined.

End InterpolationFacts.

(* ================================================================== *)
(** ** Facts: keywords, type names and random identifiers *)
(* ================================================================== *)

Module KeywordFacts.
Import JsString Parser Actions.

Lemma upperChar_lowerChar c : upperChar (lowerChar c) = upperChar c.
Proof. destruct c as [[] [] [] [] [] [] [] []]; reflexivity. Qed.

Lemma upperChar_upperChar c : upperChar (upperChar c) = upperChar c.
Proof. destruct c as [[] [] [] [] [] [] [] []]; reflexivity. Qed.

Lemma toUpperCase_toLowerCase s : toUpperCase (toLowerCase s) = toUpperCase s.
Proof.
  unfold toUpperCase, toLowerCase.
  induction s as [|c s IH]; cbn [mapChars]; [reflexivity|].
  now rewrite upperChar_lowerChar, IH.
Qed.

Lemma toUpperCase_toUpperCase s : toUpperCase (toUpperCase s) = toUpperCase s.
Proof.
  unfold toUpperCase.
  induction s as [|c s IH]; cbn [mapChars]; [reflexivity|].
  now rewrite upperChar_upperChar, IH.
Qed.

(** X13: [mapKeyword] reads a keyword in any letter case: it answers for
    a word what it answers for the word in upper and in lower case. *)
Theorem mapKeyword_ignores_case (keyword : string) :
  mapKeyword (toUpperCase keyword) = mapKeyword keyword
  /\ mapKeyword (toLowerCase keyword) = mapKeyword keyword.
Proof.
  unfold mapKeyword. cbv zeta.
  now rewrite toUpperCase_toUpperCase, toUpperCase_toLowerCase.
Qed.

(** X14: [mapKeyword] inverts the table [actionKeywords]: a word maps to
    a type exactly when, in upper case, it is the keyword of that type.
    So the five keywords map to five different types, and nothing else
    maps to a type. *)
Theorem mapKeyword_inverts_actionKeywords
    (keyword : string) (kind : NatsActionType) :
  mapKeyword keyword = Some kind <-> toUpperCase keyword = actionKeywords kind.
Proof.
  unfold mapKeyword. cbv zeta. split.
  - repeat match goal with
           | |- (if String.eqb ?upper ?word then _ else _) = _ -> _ =>
               destruct (String.eqb upper word) eqn:?;
               [ intros [= <-]; apply String.eqb_eq; assumption |]
           end.
    intros Hnone. discriminate Hnone.
  - intros ->. now destruct kind.
Qed.

(** X15: [isActionType] accepts exactly the names of the five action
    types. *)
Theorem isActionType_accepts_type_names (name : string) :
  isActionType name = true <-> exists kind, typeName kind = name.
Proof.
  unfold isActionType. split.
  - intros Hname.
    repeat (apply orb_prop in Hname as [Hname|Hname]);
      apply String.eqb_eq in Hname; subst name;
      [ exists subscribe | exists request | exists publish | exists reply
      | exists jetstreamPull ]; reflexivity.
  - intros [kind <-]. now destruct kind.
Qed.

Section AnyGenerator.

Variable randomUUID : nat -> string.

(** No occurrence of [randomId()] starts anywhere in the text. *)
Definition noPlaceholder (value : string) : Prop :=
  forall start, matchesRandomId (sliceFrom start value) = false.

Lemma sanitizeLoop_unchanged value :
  noPlaceholder value ->
  forall calls, sanitizeLoop randomUUID value 0 calls = (value, calls).
Proof.
  induction value as [|c rest IH]; intros Hnone calls; [reflexivity|].
  cbn [sanitizeLoop]. rewrite (Hnone 0 : matchesRandomId (String c rest) = false).
  rewrite IH; [reflexivity|]. intros start. exact (Hnone (S start)).
Qed.

(** The identifiers drawn are numbered from [calls] on, one by one. *)
Lemma sanitizeLoop_counts value :
  forall skip calls, calls <= snd (sanitizeLoop randomUUID value skip calls).
Proof.
  induction value as [|c rest IH]; intros skip calls; cbn [sanitizeLoop snd]; [lia|].
  destruct skip as [|k]; [|apply IH].
  destruct (matchesRandomId (String c rest)).
  - pose proof (IH 9 (S calls)) as Hrest.
    destruct (sanitizeLoop randomUUID rest 9 (S calls)). cbn [snd] in *. lia.
  - pose proof (IH 0 calls) as Hrest.
    destruct (sanitizeLoop randomUUID rest 0 calls). exact Hrest.
Qed.

End AnyGenerator.

(** X16: [sanitizeRandomIds] returns a text without [randomId()] (in any
    letter case) as it is, and draws no identifier for it. *)
Theorem sanitizeRandomIds_keeps_text_without_placeholder
    (randomUUID : nat -> string) (value : string) (calls : nat) :
  noPlaceholder value ->
  sanitizeRandomIds randomUUID value calls = Ok (value, calls).
Proof.
  intros Hnone. unfold sanitizeRandomIds. now rewrite sanitizeLoop_unchanged.
Qed.

Lemma noPlaceholder_short value :
  String.length value < 10 -> noPlaceholder value.
Proof.
  intros Hshort start. unfold matchesRandomId.
  destruct (startsWith (toLowerCase (sliceFrom start value)) "randomid()") eqn:Hstarts;
    [|reflexivity].
  apply JsStringFacts.startsWith_length in Hstarts.
  assert (Hlower : forall s, String.length (toLowerCase s) = String.length s).
  { unfold toLowerCase. induction s as [|c s IH]; cbn; [reflexivity | now rewrite IH]. }
  rewrite Hlower, JsStringFacts.length_sliceFrom in Hstarts. cbn in Hstarts. lia.
Qed.

Lemma sanitizeRandomIds_keeps_text_without_placeholder_witness :
  noPlaceholder "{}"
  /\ sanitizeRandomIds Reference.randomUUID "{}" 0 = Ok ("{}", 0).
Proof.
  assert (Hnone : noPlaceholder "{}") by (apply noPlaceholder_short; cbn; lia).
  split; [exact Hnone|].
  exact (sanitizeRandomIds_keeps_text_without_placeholder Reference.randomUUID "{}" 0 Hnone).
Defined.

End KeywordFacts.

(* ================================================================== *)
(** ** Facts: the session over sequences of calls *)
(* ================================================================== *)

Module SessionInvariants.
Import JsString NatsTypes Session SessionFacts.

Local Notation "x <- m ;; k" := (bind m (fun x => k))
  (at level 61, m at next level, right associativity).
Local Notation "m ;; k" := (bind m (fun _ => k))
  (at level 61, right associativity).




Lemma StoreKind_eq_dec (a b : StoreKind) : {a = b} + {a <> b}.
Proof. decide equality. Defined.

Section AnyCollaborators.

Variable number : Type.
Variable newURL : string -> Result Parser.URL.
Variable connector : nat -> NatsConnectOptions -> Result (NatsConnectionLike number).
Variable now : nat -> string.
Variable readMsgHeaders : option HeadersLike -> option HeaderMap.

Abbreviation startSubscription' := (startSubscription number newURL connector).
Abbreviation startReplyHandler' := (startReplyHandler number newURL connector).
Abbreviation getConnection' := (getConnection number newURL connector).
Abbreviation reconnectConnection' := (reconnectConnection number newURL connector).
Abbreviation pullJetStream' :=
  (pullJetStream number newURL connector now readMsgHeaders).

(** *** Sequences of calls *)

(** A call of a method of the session that writes its state. *)
Inductive Call :=
  | CallStartSubscription (serverUrl subjectText : string) (sinkId : LogSink)
      (key : string)
  | CallStopSubscription (key : string)
  | CallStartReplyHandler (serverUrl subjectText : string)
      (templateText payloadText : option string) (sinkId : LogSink) (key : string)
      (replyHeaders : option HeaderMap)
  | CallStopReplyHandler (key : string)
  | CallPullJetStream (serverUrl streamName durableName : string)
      (options : JetStreamPullOptions) (sinkId : LogSink)
  | CallReset
  | CallMarkConnectionClosed (key : string)
  | CallReconnectConnection (key : string).

(** The state a call leaves, whether it returns or throws. The call
    runs from its start to its completion: no other method of the
    session runs at its await points. *)
Definition perform (call : Call) (st : State number) : State number :=
  match call with
  | CallStartSubscription serverUrl subjectText sinkId key =>
      snd (startSubscription' serverUrl subjectText sinkId key st)
  | CallStopSubscription key => snd (stopSubscription number key st)
  | CallStartReplyHandler serverUrl subjectText templateText payloadText sinkId key
      replyHeaders =>
      snd (startReplyHandler' serverUrl subjectText templateText payloadText sinkId key
             replyHeaders st)
  | CallStopReplyHandler key => snd (stopReplyHandler number key st)
  | CallPullJetStream serverUrl streamName durableName options sinkId =>
      snd (pullJetStream' serverUrl streamName durableName options sinkId st)
  | CallReset => snd (reset number st)
  | CallMarkConnectionClosed key => snd (markConnectionClosed number key st)
  | CallReconnectConnection key => snd (reconnectConnection' key st)
  end.

(** A sequence of calls, each awaited before the next one is made. *)
Definition performAll (calls : list Call) (st : State number) : State number :=
  fold_left (fun current call => perform call current) calls st.

Lemma perform_consistent call st :
  consistent number (session st) -> consistent number (session (perform call st)).
Proof.
  destruct call; cbn [perform].
  - apply keeps_startSubscription.
  - apply keeps_stopContext.
  - apply keeps_startReplyHandler.
  - apply keeps_stopContext.
  - apply frames_keeps, frames_pullJetStream.
  - apply keeps_reset.
  - apply frames_keeps, frames_markConnectionClosed.
  - apply keeps_reconnectConnection.
Qed.

Lemma performAll_consistent calls :
  forall st,
    consistent number (session st) ->
    consistent number (session (performAll calls st)).
Proof.
  induction calls as [|call rest IH]; intros st Hst; [exact Hst|].
  cbn [performAll fold_left]. apply IH. now apply perform_consistent.
Qed.

(** *** Connections *)

Lemma getConnection_again url managed st st1 :
  getConnection' url st = (Ok managed, st1) ->
  getConnection' url st1 = (Ok managed, st1).
Proof.
  unfold getConnection, normalizeServerUrl, buildConnectOptions, installConnection,
    callConnector, bind, await, gets, ret, modify, emit.
  destruct (newURL url) as [parsed|raised]; [|discriminate].
  destruct (JsMap.get (connections (session st)) (serverKeyOfUrl parsed))
    as [existing|] eqn:Hexisting.
  - intros [= <- <-]. now rewrite Hexisting.
  - destruct (connector (connectorCalls (world st)) (optionsOfUrl parsed))
      as [nc|raised]; [|discriminate].
    cbn. intros [= <- <-]. cbn. now rewrite JsMapFacts.get_set_eq.
Qed.

(** *** Starting and stopping a subscription *)

Lemma bind_Ok A B (m : Op number A) (k : A -> Op number B) st b st2 :
  bind m k st = (Ok b, st2) ->
  exists a st1, m st = (Ok a, st1) /\ k a st1 = (Ok b, st2).
Proof.
  unfold bind. destruct (m st) as [[a|raised] st1]; [|discriminate].
  intros Hrest. now exists a, st1.
Qed.

Definition newContext (managed : ManagedConnection number) (subjectText : string)
    (sinkId : LogSink) (id : nat) : SubscriptionContext :=
  {| subject := subjectText; server := serverKey managed;
     subscription := {| subscriptionId := id |}; sink := sinkId;
     template := None; payload := None; headers := None |}.

Lemma startSubscription_fresh serverUrl subjectText sinkId key st st1 :
  JsMap.has (subscriptions (session st)) key = false ->
  startSubscription' serverUrl subjectText sinkId key st = (Ok tt, st1) ->
  exists managed connected,
    getConnection' serverUrl st = (Ok managed, connected)
    /\ session st1
       = setCounts subscriptionStore
           (incrementCount (subscriptionCounts (session connected))
              (serverKey managed) subjectText)
           (setStore subscriptionStore
              (JsMap.set (subscriptions (session connected)) key
                 (newContext managed subjectText sinkId (subscribeCalls (world connected))))
              (session connected))
    /\ trace (world st1)
       = push (trace (world connected))
           (ESubscribe (connectionId (connection managed)) subjectText
              (subscribeCalls (world connected))).
Proof.
  intros Hfresh. unfold startSubscription.
  unfold bind at 1, gets at 1. cbn [session]. rewrite Hfresh.
  unfold bind at 1.
  destruct (getConnection' serverUrl st) as [[managed|raised] connected]; [|discriminate].
  unfold bind, subscribe, modify. cbn. intros [= <-].
  exists managed, connected. repeat split.
Qed.

Lemma collectCount_incrementCount counts serverText subjectText :
  collectCount (incrementCount counts serverText subjectText) subjectText
  = (collectCount counts subjectText + 1)%Z.
Proof.
  unfold incrementCount.
  destruct (JsMap.get counts (subjectKey serverText subjectText)) as [n|] eqn:Hget.
  - rewrite (collectCount_set _ _ n) by exact Hget.
    unfold share. rewrite endsWith_subjectKey. cbn [orZero]. lia.
  - rewrite collectCount_set_new by exact Hget.
    unfold share. rewrite endsWith_subjectKey. cbn [orZero]. lia.
Qed.



(** *** Reset *)

Lemma stopContext_other kind other key st :
  other <> kind ->
  getStore other (session (snd (stopContext number kind key st)))
  = getStore other (session st)
  /\ getCounts other (session (snd (stopContext number kind key st)))
     = getCounts other (session st).
Proof.
  intros Hother.
  destruct (JsMap.get (getStore kind (session st)) key) as [context|] eqn:Hget.
  - rewrite (stopContext_session number kind key context st Hget).
    destruct kind, other; try contradiction; split; reflexivity.
  - rewrite (stopContext_absent number kind key st Hget). split; reflexivity.
Qed.

(** Stopping the keys of a store one by one empties it. *)
Lemma forEach_stopContext_empties kind :
  forall store st,
    getStore kind (session st) = store ->
    exists st1,
      forEach (JsMap.keys store) (stopContext number kind) st = (Ok tt, st1)
      /\ getStore kind (session st1) = []
      /\ (forall other, other <> kind ->
            getStore other (session st1) = getStore other (session st)
            /\ getCounts other (session st1) = getCounts other (session st))
      /\ tearsDown number st st1.
Proof.
  induction store as [|[key context] rest IH]; intros st Hstore.
  - exists st. cbn. repeat split; try assumption. apply tearsDown_refl.
  - assert (Hget : JsMap.get (getStore kind (session st)) key = Some context).
    { rewrite Hstore. cbn. now rewrite String.eqb_refl. }
    destruct (stopContext_registered number kind key context st Hget)
      as (stopped & Hstop & Hdeleted & _).
    destruct (stopContext_tearsDown number kind key st) as (stopped' & Hstop' & Hdown).
    rewrite Hstop in Hstop'. injection Hstop' as <-.
    assert (Hrest : getStore kind (session stopped) = rest).
    { rewrite Hdeleted, Hstore. cbn. now rewrite String.eqb_refl. }
    destruct (IH stopped Hrest) as (st1 & Hrun & Hempty & Hothers & Hdown1).
    exists st1. cbn [JsMap.keys map fst forEach]. unfold bind. rewrite Hstop.
    split; [exact Hrun|]. split; [exact Hempty|]. split.
    + intros other Hother. destruct (Hothers other Hother) as [Hs Hc].
      pose proof (stopContext_other kind other key st Hother) as [Hs0 Hc0].
      rewrite Hstop in Hs0, Hc0. cbn [snd] in Hs0, Hc0.
      split; congruence.
    + eapply tearsDown_trans; eassumption.
Qed.

Lemma stopAll_empties kind st :
  exists st1,
    stopAll number kind st = (Ok tt, st1)
    /\ getStore kind (session st1) = []
    /\ (forall other, other <> kind ->
          getStore other (session st1) = getStore other (session st)
          /\ getCounts other (session st1) = getCounts other (session st))
    /\ tearsDown number st st1.
Proof.
  unfold stopAll, bind, gets. cbn [session].
  now apply forEach_stopContext_empties.
Qed.

Lemma counted_nil counts : counted (@nil (string * SubscriptionContext)) counts -> counts = [].
Proof.
  intros (_ & _ & Hcounts). destruct counts as [|[pair n] rest]; [reflexivity|].
  specialize (Hcounts pair). cbn in Hcounts. rewrite String.eqb_refl in Hcounts.
  discriminate.
Qed.

Definition closeEvent (entry : string * ManagedConnection number) : Event :=
  EClose (connectionId (connection (snd entry))).

Lemma forEach_close (table : JsMap.t (ManagedConnection number)) :
  forall st : State number,
    exists st1,
      forEach (map snd table)
        (fun entry => emit (EClose (connectionId (connection entry)))) st = (Ok tt, st1)
      /\ session st1 = session st
      /\ trace (world st1) = (trace (world st) ++ map closeEvent table)%list.
Proof.
  induction table as [|entry rest IH]; intros st.
  - exists st. cbn. now rewrite app_nil_r.
  - cbn [map forEach]. unfold bind at 1, emit at 1.
    match goal with
    | |- context [forEach _ _ ?next] => destruct (IH next) as (st1 & Hrun & Hsession & Htrace)
    end.
    exists st1. split; [exact Hrun|]. split; [exact Hsession|].
    rewrite Htrace. cbn. unfold push. now rewrite <- app_assoc.
Qed.

Lemma reset_outcome_any st :
  exists st1, reset number st = (Ok tt, st1) /\ connections (session st1) = [].
Proof.
  unfold reset.
  destruct (stopAll_empties subscriptionStore st) as (st1 & Hrun1 & _).
  destruct (stopAll_empties replyStore st1) as (st2 & Hrun2 & _).
  destruct (forEach_close (connections (session st2)) st2) as (st3 & Hrun3 & _).
  eexists. split.
  - unfold bind at 1. rewrite Hrun1. unfold bind at 1. rewrite Hrun2.
    unfold bind at 1, gets at 1. unfold bind at 1. rewrite Hrun3. reflexivity.
  - reflexivity.
Qed.

Lemma reset_outcome st :
  consistent number (session st) ->
  exists st1 unsubscribes,
    reset number st = (Ok tt, st1)
    /\ session st1 = emptySession number
    /\ forallb isUnsubscribe unsubscribes = true
    /\ trace (world st1)
       = (trace (world st) ++ unsubscribes
          ++ map closeEvent (connections (session st)))%list.
Proof.
  intros Hconsistent. unfold reset.
  destruct (stopAll_empties subscriptionStore st)
    as (st1 & Hrun1 & Hempty1 & Hothers1 & (events1 & Htrace1 & Hevents1 & Htable1)).
  destruct (stopAll_empties replyStore st1)
    as (st2 & Hrun2 & Hempty2 & Hothers2 & (events2 & Htrace2 & Hevents2 & Htable2)).
  assert (Hkept : consistent number (session st2)).
  { pose proof (keeps_stopAll number subscriptionStore st Hconsistent) as H1.
    rewrite Hrun1 in H1. cbn [snd] in H1.
    pose proof (keeps_stopAll number replyStore st1 H1) as H2.
    now rewrite Hrun2 in H2. }
  destruct (Hothers2 subscriptionStore) as [Hsubs2 Hcounts2]; [discriminate|].
  cbn [getStore getCounts] in *.
  destruct Hkept as [Hsubscriptions Hreplies].
  rewrite Hsubs2, Hempty1 in Hsubscriptions. rewrite Hempty2 in Hreplies.
  apply counted_nil in Hsubscriptions, Hreplies.
  destruct (forEach_close (connections (session st2)) st2)
    as (st3 & Hrun3 & Hsession3 & Htrace3).
  exists {| session := setConnections JsMap.empty (session st3); world := world st3 |},
    (events1 ++ events2)%list.
  split.
  - unfold bind at 1. rewrite Hrun1. unfold bind at 1. rewrite Hrun2.
    unfold bind at 1, gets at 1. unfold bind at 1. rewrite Hrun3.
    reflexivity.
  - cbn [session world]. split; [|split].
    + rewrite Hsession3. unfold setConnections, emptySession. cbn.
      rewrite Hempty2, Hsubs2, Hempty1, Hsubscriptions, Hreplies. reflexivity.
    + rewrite forallb_app, Hevents1, Hevents2. reflexivity.
    + rewrite Htrace3, Htrace2, Htrace1, Htable2, Htable1.
      now rewrite <- !app_assoc.
Qed.

(** *** What a pull writes *)

(** Every event the operation appends to the trace is an allowed one. *)
Definition emitsOnly (allowed : Event -> bool) {A : Type} (op : Op number A) : Prop :=
  forall st,
    exists events,
      trace (world (snd (op st))) = (trace (world st) ++ events)%list
      /\ forallb allowed events = true.

Lemma emitsOnly_silent allowed A (op : Op number A) :
  (forall st, trace (world (snd (op st))) = trace (world st)) ->
  emitsOnly allowed op.
Proof. intros Hsilent st. exists []. now rewrite app_nil_r, Hsilent. Qed.

Lemma emitsOnly_emit allowed event :
  allowed event = true -> emitsOnly allowed (@emit number event).
Proof. intros Hallowed st. exists [event]. cbn. now rewrite Hallowed. Qed.

Lemma emitsOnly_callConnector allowed options :
  allowed (EConnect options) = true ->
  emitsOnly allowed (callConnector number connector options).
Proof. intros Hallowed st. exists [EConnect options]. cbn. now rewrite Hallowed. Qed.

Lemma emitsOnly_bind allowed A B (m : Op number A) (k : A -> Op number B) :
  emitsOnly allowed m -> (forall a, emitsOnly allowed (k a)) -> emitsOnly allowed (bind m k).
Proof.
  intros Hm Hk st. unfold bind. destruct (Hm st) as (events & Htrace & Hallowed).
  destruct (m st) as [[a|raised] st1]; cbn [snd] in *.
  - destruct (Hk a st1) as (events1 & Htrace1 & Hallowed1).
    exists (events ++ events1)%list. rewrite Htrace1, Htrace, <- app_assoc.
    now rewrite forallb_app, Hallowed, Hallowed1.
  - now exists events.
Qed.

Lemma emitsOnly_forEach allowed A (items : list A) (step : A -> Op number unit) :
  (forall item, emitsOnly allowed (step item)) -> emitsOnly allowed (forEach items step).
Proof.
  intros Hstep. induction items as [|item rest IH]; cbn [forEach].
  - now apply emitsOnly_silent.
  - apply emitsOnly_bind; [apply Hstep | intros _; exact IH].
Qed.

Lemma emitsOnly_tryCatch allowed A (body : Op number A) (handler : JsError -> Op number A) :
  emitsOnly allowed body -> (forall error, emitsOnly allowed (handler error)) ->
  emitsOnly allowed (tryCatch body handler).
Proof.
  intros Hbody Hhandler st. unfold tryCatch.
  destruct (Hbody st) as (events & Htrace & Hallowed).
  destruct (body st) as [[a|raised] st1]; cbn [snd] in *.
  - now exists events.
  - destruct (Hhandler raised st1) as (events1 & Htrace1 & Hallowed1).
    exists (events ++ events1)%list. rewrite Htrace1, Htrace, <- app_assoc.
    now rewrite forallb_app, Hallowed, Hallowed1.
Qed.

Ltac emits_steps :=
  repeat first
    [ apply emitsOnly_bind; [|intros ?]
    | apply emitsOnly_forEach; intros ?
    | apply emitsOnly_tryCatch; [|intros ?]
    | apply emitsOnly_emit; reflexivity
    | apply emitsOnly_callConnector; reflexivity
    | (apply emitsOnly_silent; intros ?; reflexivity)
    | match goal with
      | |- emitsOnly _ (match ?x with _ => _ end) => destruct x
      | |- emitsOnly _ (if ?x then _ else _) => destruct x
      end ].

(** The events of a pull: connecting, the write of the connection
    table, and records for the sink of the pull. *)
Definition pullEvent (sinkId : LogSink) (event : Event) : bool :=
  match event with
  | EConnect _ | EInstall _ _ => true
  | EAppendLog target _ _ => Nat.eqb target sinkId
  | _ => false
  end.

Lemma emitsOnly_await allowed A (outcome : Result A) :
  emitsOnly allowed (@await number A outcome).
Proof. now apply emitsOnly_silent. Qed.

Lemma emitsOnly_getConnection sinkId url :
  emitsOnly (pullEvent sinkId) (getConnection' url).
Proof.
  unfold getConnection, normalizeServerUrl, buildConnectOptions, installConnection.
  emits_steps.
Qed.

Lemma emitsOnly_appendLogBlock sinkId block separator :
  emitsOnly (pullEvent sinkId) (appendLogBlock number sinkId block separator).
Proof.
  unfold appendLogBlock. apply emitsOnly_emit. cbn. apply Nat.eqb_refl.
Qed.

Lemma emitsOnly_pullMessage sinkId managed prefix streamName durableName msg :
  emitsOnly (pullEvent sinkId)
    (pullMessage number now readMsgHeaders managed prefix streamName durableName
       sinkId msg).
Proof.
  unfold pullMessage, markConnectionClosed, timestamp.
  repeat first
    [ apply emitsOnly_appendLogBlock
    | progress emits_steps ].
Qed.

Lemma emitsOnly_pullJetStream serverUrl streamName durableName options sinkId :
  emitsOnly (pullEvent sinkId)
    (pullJetStream' serverUrl streamName durableName options sinkId).
Proof.
  unfold pullJetStream. apply emitsOnly_bind; [apply emitsOnly_getConnection|].
  intros managed. destruct (jetstream (connection managed)) as [js|];
    [|now apply emitsOnly_silent].
  apply emitsOnly_tryCatch.
  - unfold pullBody.
    apply emitsOnly_bind; [apply emitsOnly_await|]. intros consumer.
    apply emitsOnly_bind; [apply emitsOnly_await|]. intros iterator.
    apply emitsOnly_bind.
    + apply emitsOnly_forEach. intros msg. apply emitsOnly_pullMessage.
    + intros _. destruct (failure iterator); [now apply emitsOnly_silent|].
      destruct (List.length (delivered iterator) =? 0)%nat;
        [|now apply emitsOnly_silent].
      apply emitsOnly_bind; [now apply emitsOnly_silent|].
      intros stamp. apply emitsOnly_appendLogBlock.
  - intros error. apply emitsOnly_bind; [now apply emitsOnly_silent|].
    intros stamp. apply emitsOnly_appendLogBlock.
Qed.

(** *** What a reconnection keeps *)

(** The operation leaves an active key of the store active. *)
Definition retains (kind : StoreKind) (key : string) {A : Type} (op : Op number A) : Prop :=
  forall st,
    JsMap.has (getStore kind (session st)) key = true ->
    JsMap.has (getStore kind (session (snd (op st)))) key = true.

Lemma retains_frames kind key A (op : Op number A) : frames number op -> retains kind key op.
Proof. intros Hframes st Hactive. now rewrite (proj1 (Hframes st kind)). Qed.

Lemma retains_bind kind key A B (m : Op number A) (k : A -> Op number B) :
  retains kind key m -> (forall a, retains kind key (k a)) -> retains kind key (bind m k).
Proof.
  intros Hm Hk st Hactive. unfold bind. specialize (Hm st Hactive).
  destruct (m st) as [[a|raised] st1]; cbn [snd] in *; [now apply Hk | exact Hm].
Qed.

Lemma retains_forEach kind key A (items : list A) (step : A -> Op number unit) :
  (forall item, In item items -> retains kind key (step item)) ->
  retains kind key (forEach items step).
Proof.
  induction items as [|item rest IH]; intros Hstep; cbn [forEach].
  - intros st Hactive. exact Hactive.
  - apply retains_bind; [apply Hstep; now left|].
    intros _. apply IH. intros other Hother. apply Hstep. now right.
Qed.

Lemma has_set_other {V : Type} (m : JsMap.t V) key other value :
  JsMap.has m other = true -> JsMap.has (JsMap.set m key value) other = true.
Proof.
  unfold JsMap.has. destruct (String.eqb_spec key other) as [->|Hne].
  - now rewrite JsMapFacts.get_set_eq.
  - now rewrite JsMapFacts.get_set_ne.
Qed.

Lemma retains_startSubscription kind key serverUrl subjectText sinkId started :
  retains kind key (startSubscription' serverUrl subjectText sinkId started).
Proof.
  intros st Hactive. unfold startSubscription.
  unfold bind at 1, gets at 1. cbn [session].
  destruct (JsMap.has (subscriptions (session st)) started); [exact Hactive|].
  unfold bind at 1.
  pose proof (frames_getConnection number newURL connector serverUrl st kind) as [Hstore _].
  destruct (getConnection' serverUrl st) as [[managed|raised] connected];
    cbn [snd] in *; [|now rewrite Hstore].
  unfold bind, subscribe, modify. cbn. rewrite <- Hstore in Hactive.
  destruct kind; cbn in *; [now apply has_set_other | exact Hactive].
Qed.

Lemma retains_startReplyHandler kind key serverUrl subjectText templateText
    payloadText sinkId started replyHeaders :
  retains kind key
    (startReplyHandler' serverUrl subjectText templateText payloadText sinkId started
       replyHeaders).
Proof.
  intros st Hactive. unfold startReplyHandler.
  unfold bind at 1, gets at 1. cbn [session].
  destruct (JsMap.has (replies (session st)) started); [exact Hactive|].
  unfold bind at 1.
  pose proof (frames_getConnection number newURL connector serverUrl st kind) as [Hstore _].
  destruct (getConnection' serverUrl st) as [[managed|raised] connected];
    cbn [snd] in *; [|now rewrite Hstore].
  unfold bind, subscribe, modify. cbn. rewrite <- Hstore in Hactive.
  destruct kind; cbn in *; [exact Hactive | now apply has_set_other].
Qed.

Lemma retains_stopContext kind key stopped stoppedKey :
  stopped <> kind \/ stoppedKey <> key ->
  retains kind key (stopContext number stopped stoppedKey).
Proof.
  intros Hother st Hactive.
  destruct (StoreKind_eq_dec stopped kind) as [->|Hkind].
  - destruct Hother as [Hkind|Hkey]; [contradiction|].
    destruct (JsMap.get (getStore kind (session st)) stoppedKey) as [context|] eqn:Hget.
    + destruct (stopContext_registered number kind stoppedKey context st Hget)
        as (st1 & Hstop & Hstore & _).
      rewrite Hstop. cbn [snd]. rewrite Hstore. unfold JsMap.has in *.
      now rewrite JsMapFacts.get_delete_ne.
    + now rewrite (stopContext_absent number kind stoppedKey st Hget).
  - now rewrite (proj1 (stopContext_other stopped kind stoppedKey st
                          (fun Hsame => Hkind (eq_sym Hsame)))).
Qed.

Lemma startReplyHandler_registers serverUrl subjectText templateText payloadText
    sinkId key replyHeaders (st st1 : State number) :
  startReplyHandler' serverUrl subjectText templateText payloadText sinkId key
    replyHeaders st = (Ok tt, st1) ->
  JsMap.has (replies (session st1)) key = true.
Proof.
  unfold startReplyHandler. unfold bind at 1, gets at 1. cbn [session].
  destruct (JsMap.has (replies (session st)) key) eqn:Hactive.
  - now intros [= <-].
  - unfold bind at 1.
    destruct (getConnection' serverUrl st) as [[managed|raised] connected];
      [|discriminate].
    unfold bind, subscribe, modify. cbn. intros [= <-]. cbn.
    unfold JsMap.has. now rewrite JsMapFacts.get_set_eq.
Qed.

(** The restarts of [reconnectConnection], when all return, leave every
    key of the list active. *)
Lemma restartSubscriptions_register url (items : list (string * SubscriptionContext)) :
  forall st st1 key,
    forEach items
      (fun sub =>
         startSubscription' url (subject (snd sub)) (sink (snd sub)) (fst sub)) st
    = (Ok tt, st1) ->
    In key (map fst items) ->
    JsMap.has (subscriptions (session st1)) key = true.
Proof.
  induction items as [|item rest IH]; intros st st1 key Hrun Hin; [contradiction|].
  cbn [forEach] in Hrun. apply bind_Ok in Hrun as ([] & started & Hstart & Hrest).
  destruct (in_dec string_dec key (map fst rest)) as [Hlater|Hnot].
  - now apply (IH started st1 key).
  - destruct Hin as [<-|Hin]; [|contradiction].
    apply startSubscription_registers in Hstart.
    pose proof (retains_forEach subscriptionStore (fst item) _ rest
                  (fun sub =>
                     startSubscription' url (subject (snd sub)) (sink (snd sub)) (fst sub))
                  (fun sub _ => retains_startSubscription _ _ _ _ _ _) started Hstart)
      as Hkept.
    now rewrite Hrest in Hkept.
Qed.

Lemma restartReplyHandlers_register url (items : list (string * SubscriptionContext)) :
  forall st st1 key,
    forEach items
      (fun reply =>
         startReplyHandler' url (subject (snd reply)) (template (snd reply))
           (payload (snd reply)) (sink (snd reply)) (fst reply) (headers (snd reply))) st
    = (Ok tt, st1) ->
    In key (map fst items) ->
    JsMap.has (replies (session st1)) key = true.
Proof.
  induction items as [|item rest IH]; intros st st1 key Hrun Hin; [contradiction|].
  cbn [forEach] in Hrun. apply bind_Ok in Hrun as ([] & started & Hstart & Hrest).
  destruct (in_dec string_dec key (map fst rest)) as [Hlater|Hnot].
  - now apply (IH started st1 key).
  - destruct Hin as [<-|Hin]; [|contradiction].
    apply startReplyHandler_registers in Hstart.
    pose proof (retains_forEach replyStore (fst item) _ rest
                  (fun reply =>
                     startReplyHandler' url (subject (snd reply)) (template (snd reply))
                       (payload (snd reply)) (sink (snd reply)) (fst reply)
                       (headers (snd reply)))
                  (fun reply _ => retains_startReplyHandler _ _ _ _ _ _ _ _ _)
                  started Hstart)
      as Hkept.
    now rewrite Hrest in Hkept.
Qed.

Lemma retains_run kind key A (op : Op number A) st outcome st1 :
  retains kind key op ->
  op st = (outcome, st1) ->
  JsMap.has (getStore kind (session st)) key = true ->
  JsMap.has (getStore kind (session st1)) key = true.
Proof. intros Hretains Hrun Hactive. specialize (Hretains st Hactive). now rewrite Hrun in Hretains. Qed.

Lemma retains_stopContexts kind key stopped (items : list (string * SubscriptionContext)) :
  stopped <> kind \/ ~ In key (map fst items) ->
  retains kind key
    (forEach items (fun item => stopContext number stopped (fst item))).
Proof.
  intros Hother. apply retains_forEach. intros item Hitem.
  apply retains_stopContext. destruct Hother as [Hkind|Hnot]; [now left | right].
  intros Hsame. apply Hnot. rewrite <- Hsame. now apply in_map.
Qed.

Lemma reconnectConnection_retains key count st st1 :
  reconnectConnection' key st = (Ok count, st1) ->
  (forall kind active,
     JsMap.has (getStore kind (session st)) active = true ->
     JsMap.has (getStore kind (session st1)) active = true)
  /\ count
     = List.length (contextsOf key (subscriptions (session st)))
       + List.length (contextsOf key (replies (session st))).
Proof.
  unfold reconnectConnection. intros Hrun.
  apply bind_Ok in Hrun as (found & s0 & Hfound & Hrun).
  unfold gets in Hfound. injection Hfound as <- <-.
  destruct (JsMap.get (connections (session st)) key) as [existing|]; [|discriminate].
  apply bind_Ok in Hrun as (subs & s1 & Hsubs & Hrun).
  unfold gets in Hsubs. injection Hsubs as <- <-.
  apply bind_Ok in Hrun as (handlers & s2 & Hhandlers & Hrun).
  unfold gets in Hhandlers. injection Hhandlers as <- <-.
  remember (contextsOf key (subscriptions (session st))) as subs eqn:Hsubs.
  remember (contextsOf key (replies (session st))) as handlers eqn:Hhandlers.
  apply bind_Ok in Hrun as (options & s3 & Hoptions & Hrun).
  assert (Hs3 : s3 = st).
  { unfold buildConnectOptions, bind, await, ret in Hoptions.
    destruct (newURL (rawUrl existing)); [|discriminate]. now injection Hoptions as _ <-. }
  subst s3. clear Hoptions.
  apply bind_Ok in Hrun as (newConnection & s4 & Hconnect & Hrun).
  apply bind_Ok in Hrun as ([] & s5 & Hstop1 & Hrun).
  apply bind_Ok in Hrun as ([] & s6 & Hstop2 & Hrun).
  apply bind_Ok in Hrun as ([] & s7 & Hemit & Hrun).
  apply bind_Ok in Hrun as ([] & s8 & Hawait & Hrun).
  apply bind_Ok in Hrun as ([] & s9 & Hinstall & Hrun).
  apply bind_Ok in Hrun as ([] & s10 & Hstart1 & Hrun).
  apply bind_Ok in Hrun as ([] & s11 & Hstart2 & Hrun).
  unfold ret in Hrun. injection Hrun as <- <-.
  split; [|reflexivity].
  assert (Hrestart1 : forall kind active,
            JsMap.has (getStore kind (session s9)) active = true ->
            JsMap.has (getStore kind (session s10)) active = true).
  { intros kind active Hactive.
    eapply (retains_run kind active); [|exact Hstart1|exact Hactive].
    apply retains_forEach. intros sub _. apply retains_startSubscription. }
  assert (Hrestart2 : forall kind active,
            JsMap.has (getStore kind (session s10)) active = true ->
            JsMap.has (getStore kind (session s11)) active = true).
  { intros kind active Hactive.
    eapply (retains_run kind active); [|exact Hstart2|exact Hactive].
    apply retains_forEach. intros reply _. apply retains_startReplyHandler. }
  assert (Hquiet : forall kind,
            getStore kind (session s9) = getStore kind (session s6)
            /\ getStore kind (session s4) = getStore kind (session st)).
  { intros kind.
    unfold emit in Hemit. injection Hemit as <-.
    unfold await in Hawait. injection Hawait as _ <-.
    unfold installConnection, bind, modify, emit in Hinstall. injection Hinstall as <-.
    unfold callConnector in Hconnect. injection Hconnect as _ <-.
    split; destruct kind; reflexivity. }
  intros kind active Hactive.
  assert (Hlisted :
    In active (map fst (match kind with
                        | subscriptionStore => subs
                        | replyStore => handlers
                        end))
    -> JsMap.has (getStore kind (session s11)) active = true).
  { destruct kind; intros Hin.
    - apply Hrestart2. cbn [getStore].
      now apply (restartSubscriptions_register (rawUrl existing) subs s9 s10).
    - cbn [getStore].
      now apply (restartReplyHandlers_register (rawUrl existing) handlers s10 s11). }
  destruct (in_dec string_dec active
              (map fst (match kind with
                        | subscriptionStore => subs
                        | replyStore => handlers
                        end))) as [Hin|Hnot]; [now apply Hlisted|].
  apply Hrestart2, Hrestart1. rewrite (proj1 (Hquiet kind)).
  eapply (retains_run kind active); [|exact Hstop2|].
  { apply retains_stopContexts. destruct kind; [left; discriminate | now right]. }
  eapply (retains_run kind active); [|exact Hstop1|].
  { apply retains_stopContexts. destruct kind; [now right | left; discriminate]. }
  now rewrite (proj2 (Hquiet kind)).
Qed.

(** *** Where a reconnection binds the contexts *)

Lemma getConnection_found url parsed managed st :
  newURL url = Ok parsed ->
  JsMap.get (connections (session st)) (serverKeyOfUrl parsed) = Some managed ->
  getConnection' url st = (Ok managed, st).
Proof.
  intros Hurl Hfound.
  unfold getConnection, normalizeServerUrl, bind, await, gets, ret.
  now rewrite Hurl, Hfound.
Qed.

(** From [st] to [st1] the connection table and the number of connector
    calls stay, and what is called is [subscribe] on the connection. *)
Definition rebound (managed : ManagedConnection number) (st st1 : State number) : Prop :=
  connections (session st1) = connections (session st)
  /\ connectorCalls (world st1) = connectorCalls (world st)
  /\ exists events,
       trace (world st1) = (trace (world st) ++ events)%list
       /\ forallb (isSubscribeOn (connectionId (connection managed))) events = true.

Lemma rebound_refl managed st : rebound managed st st.
Proof. repeat split. exists []. now rewrite app_nil_r. Qed.

Lemma rebound_trans managed st st1 st2 :
  rebound managed st st1 -> rebound managed st1 st2 -> rebound managed st st2.
Proof.
  intros (Htable & Hcalls & events & Htrace & Hevents)
         (Htable1 & Hcalls1 & events1 & Htrace1 & Hevents1).
  split; [congruence|]. split; [congruence|].
  exists (events ++ events1)%list. rewrite Htrace1, Htrace, <- app_assoc.
  now rewrite forallb_app, Hevents, Hevents1.
Qed.

Lemma startSubscription_rebound url parsed managed subjectText sinkId key st :
  newURL url = Ok parsed ->
  JsMap.get (connections (session st)) (serverKeyOfUrl parsed) = Some managed ->
  exists st1,
    startSubscription' url subjectText sinkId key st = (Ok tt, st1)
    /\ rebound managed st st1.
Proof.
  intros Hurl Hfound. unfold startSubscription.
  unfold bind at 1, gets at 1. cbn [session].
  destruct (JsMap.has (subscriptions (session st)) key).
  - exists st. split; [reflexivity | apply rebound_refl].
  - unfold bind at 1. rewrite (getConnection_found url parsed managed st Hurl Hfound).
    unfold bind, subscribe, modify. cbn. eexists. split; [reflexivity|].
    repeat split. cbn. eexists. split; [reflexivity|]. cbn. now rewrite Nat.eqb_refl.
Qed.

Lemma startReplyHandler_rebound url parsed managed subjectText templateText payloadText
    sinkId key replyHeaders st :
  newURL url = Ok parsed ->
  JsMap.get (connections (session st)) (serverKeyOfUrl parsed) = Some managed ->
  exists st1,
    startReplyHandler' url subjectText templateText payloadText sinkId key replyHeaders st
    = (Ok tt, st1)
    /\ rebound managed st st1.
Proof.
  intros Hurl Hfound. unfold startReplyHandler.
  unfold bind at 1, gets at 1. cbn [session].
  destruct (JsMap.has (replies (session st)) key).
  - exists st. split; [reflexivity | apply rebound_refl].
  - unfold bind at 1. rewrite (getConnection_found url parsed managed st Hurl Hfound).
    unfold bind, subscribe, modify. cbn. eexists. split; [reflexivity|].
    repeat split. cbn. eexists. split; [reflexivity|]. cbn. now rewrite Nat.eqb_refl.
Qed.

Lemma forEach_rebound url parsed managed A (items : list A) (step : A -> Op number unit) :
  newURL url = Ok parsed ->
  (forall item st,
     JsMap.get (connections (session st)) (serverKeyOfUrl parsed) = Some managed ->
     exists st1, step item st = (Ok tt, st1) /\ rebound managed st st1) ->
  forall st,
    JsMap.get (connections (session st)) (serverKeyOfUrl parsed) = Some managed ->
    exists st1, forEach items step st = (Ok tt, st1) /\ rebound managed st st1.
Proof.
  intros Hurl Hstep. induction items as [|item rest IH]; intros st Hfound.
  - exists st. split; [reflexivity | apply rebound_refl].
  - destruct (Hstep item st Hfound) as (st1 & Hrun & Hbound).
    assert (Hfound1 :
      JsMap.get (connections (session st1)) (serverKeyOfUrl parsed) = Some managed)
      by now rewrite (proj1 Hbound).
    destruct (IH st1 Hfound1) as (st2 & Hrest & Hbound1).
    exists st2. cbn [forEach]. unfold bind. rewrite Hrun.
    split; [exact Hrest | eapply rebound_trans; eassumption].
Qed.

Lemma stopContext_calls kind key st :
  connectorCalls (world (snd (stopContext number kind key st)))
  = connectorCalls (world st).
Proof.
  unfold stopContext, bind, gets, emit, modify. cbn [session].
  now destruct (JsMap.get (getStore kind (session st)) key).
Qed.

Lemma forEach_stopContext_calls kind (items : list (string * SubscriptionContext)) :
  forall st,
    connectorCalls
      (world (snd (forEach items (fun item => stopContext number kind (fst item)) st)))
    = connectorCalls (world st).
Proof.
  induction items as [|item rest IH]; intros st; [reflexivity|].
  cbn [forEach]. unfold bind.
  pose proof (stopContext_calls kind (fst item) st) as Hstep.
  destruct (stopContext_tearsDown number kind (fst item) st) as (st1 & Hstop & _).
  rewrite Hstop in Hstep |- *. cbn [snd] in Hstep. now rewrite IH.
Qed.

Lemma reconnectConnection_rebinds key existing parsed newConnection st :
  JsMap.get (connections (session st)) key = Some existing ->
  newURL (rawUrl existing) = Ok parsed ->
  serverKeyOfUrl parsed = key ->
  connector (connectorCalls (world st)) (optionsOfUrl parsed) = Ok newConnection ->
  close (connection existing) = Ok tt ->
  exists st1 unsubscribes subscribes,
    reconnectConnection' key st
    = (Ok (List.length (contextsOf key (subscriptions (session st)))
           + List.length (contextsOf key (replies (session st)))), st1)
    /\ trace (world st1)
       = (trace (world st)
          ++ EConnect (optionsOfUrl parsed)
             :: unsubscribes
             ++ EClose (connectionId (connection existing))
                :: EInstall key (connectionId newConnection) :: subscribes)%list
    /\ forallb isUnsubscribe unsubscribes = true
    /\ forallb (isSubscribeOn (connectionId newConnection)) subscribes = true
    /\ connectorCalls (world st1) = S (connectorCalls (world st))
    /\ JsMap.get (connections (session st1)) key
       = Some {| serverKey := key; rawUrl := rawUrl existing;
                 connection := newConnection; markedClosed := false |}.
Proof.
  intros Hexisting Hurl Hkey Hconnect Hclose.
  rewrite (reconnect_until_connector number newURL connector key existing parsed st
             Hexisting Hurl), Hconnect.
  set (st0 := afterConnect number connector (optionsOfUrl parsed) st).
  assert (Htrace0 : trace (world st0)
                    = (trace (world st) ++ [EConnect (optionsOfUrl parsed)])%list)
    by reflexivity.
  assert (Hcalls0 : connectorCalls (world st0) = S (connectorCalls (world st)))
    by reflexivity.
  clearbody st0.
  set (managed := {| serverKey := key; rawUrl := rawUrl existing;
                     connection := newConnection; markedClosed := false |}).
  unfold bind at 1.
  pose proof (forEach_stopContext_calls subscriptionStore
                (contextsOf key (subscriptions (session st))) st0) as Hcalls1.
  destruct (forEach_stopContext_tearsDown number subscriptionStore
              (contextsOf key (subscriptions (session st))) st0)
    as (st1 & Hstop1 & (e1 & T1 & U1 & C1)).
  rewrite Hstop1 in Hcalls1 |- *. cbn [snd] in Hcalls1.
  unfold bind at 1.
  pose proof (forEach_stopContext_calls replyStore
                (contextsOf key (replies (session st))) st1) as Hcalls2.
  destruct (forEach_stopContext_tearsDown number replyStore
              (contextsOf key (replies (session st))) st1)
    as (st2 & Hstop2 & (e2 & T2 & U2 & C2)).
  rewrite Hstop2 in Hcalls2 |- *. cbn [snd] in Hcalls2.
  unfold bind at 1, emit at 1. unfold bind at 1, await at 1. rewrite Hclose.
  unfold bind at 1, installConnection at 1.
  unfold bind at 1, modify at 1, emit at 1. cbn [session world trace serverKey connection].
  match goal with
  | |- context [bind _ _ ?installed] => set (st3 := installed)
  end.
  assert (Hfound :
    JsMap.get (connections (session st3)) (serverKeyOfUrl parsed) = Some managed).
  { rewrite Hkey. subst st3. cbn. apply JsMapFacts.get_set_eq. }
  destruct (forEach_rebound (rawUrl existing) parsed managed _
              (contextsOf key (subscriptions (session st)))
              (fun sub =>
                 startSubscription' (rawUrl existing) (subject (snd sub))
                   (sink (snd sub)) (fst sub))
              Hurl
              (fun sub current =>
                 startSubscription_rebound _ _ _ _ _ _ current Hurl)
              st3 Hfound)
    as (st4 & Hstart1 & (C4 & N4 & e4 & T4 & S4)).
  assert (Hfound4 :
    JsMap.get (connections (session st4)) (serverKeyOfUrl parsed) = Some managed)
    by now rewrite C4.
  destruct (forEach_rebound (rawUrl existing) parsed managed _
              (contextsOf key (replies (session st)))
              (fun reply =>
                 startReplyHandler' (rawUrl existing) (subject (snd reply))
                   (template (snd reply)) (payload (snd reply)) (sink (snd reply))
                   (fst reply) (headers (snd reply)))
              Hurl
              (fun reply current =>
                 startReplyHandler_rebound _ _ _ _ _ _ _ _ _ current Hurl)
              st4 Hfound4)
    as (st5 & Hstart2 & (C5 & N5 & e5 & T5 & S5)).
  exists st5, (e1 ++ e2)%list, (e4 ++ e5)%list.
  split.
  - unfold bind at 1. rewrite Hstart1. unfold bind at 1. rewrite Hstart2. reflexivity.
  - split; [|split; [|split; [|split]]].
    + rewrite T5, T4. subst st3. cbn [trace world]. unfold push.
      rewrite T2, T1, Htrace0. rewrite <- ?app_assoc. cbn [app].
      rewrite <- ?app_assoc. reflexivity.
    + now rewrite forallb_app, U1, U2.
    + change (connectionId (connection managed)) with (connectionId newConnection)
        in S4, S5.
      now rewrite forallb_app, S4, S5.
    + rewrite N5, N4. subst st3. cbn [connectorCalls world]. congruence.
    + rewrite C5, C4, <- Hkey. exact Hfound.
Qed.

(** *** The connection table *)

(** Every entry of the connection table stands under the identity of its
    own URL: the key is the [serverKey] of the entry and what
    [normalizeServerUrl] makes of its [rawUrl]. *)
Definition keyed (s : NatsSession number) : Prop :=
  forall key managed,
    JsMap.get (connections s) key = Some managed ->
    serverKey managed = key
    /\ exists parsed,
         newURL (rawUrl managed) = Ok parsed /\ serverKeyOfUrl parsed = key.

Definition keepsTable {A : Type} (op : Op number A) : Prop :=
  forall st, keyed (session st) -> keyed (session (snd (op st))).

Lemma keepsTable_same A (op : Op number A) :
  (forall st, connections (session (snd (op st))) = connections (session st)) ->
  keepsTable op.
Proof. intros Hsame st Hkeyed key managed. rewrite Hsame. apply Hkeyed. Qed.

Lemma keepsTable_bind A B (m : Op number A) (k : A -> Op number B) :
  keepsTable m -> (forall a, keepsTable (k a)) -> keepsTable (bind m k).
Proof.
  intros Hm Hk st Hkeyed. unfold bind. specialize (Hm st Hkeyed).
  destruct (m st) as [[a|raised] st1]; cbn [snd] in *; [now apply Hk | exact Hm].
Qed.

Lemma keepsTable_forEach A (items : list A) (step : A -> Op number unit) :
  (forall item, keepsTable (step item)) -> keepsTable (forEach items step).
Proof.
  intros Hstep. induction items as [|item rest IH]; cbn [forEach].
  - now apply keepsTable_same.
  - apply keepsTable_bind; [apply Hstep | intros _; exact IH].
Qed.

Lemma keepsTable_tryCatch A (body : Op number A) (handler : JsError -> Op number A) :
  keepsTable body -> (forall error, keepsTable (handler error)) ->
  keepsTable (tryCatch body handler).
Proof.
  intros Hbody Hhandler st Hkeyed. unfold tryCatch. specialize (Hbody st Hkeyed).
  destruct (body st) as [[a|raised] st1]; cbn [snd] in *;
    [exact Hbody | now apply Hhandler].
Qed.

Lemma keyed_set (s : NatsSession number) key managed parsed :
  keyed s ->
  serverKey managed = key ->
  newURL (rawUrl managed) = Ok parsed ->
  serverKeyOfUrl parsed = key ->
  keyed (setConnections (JsMap.set (connections s) key managed) s).
Proof.
  intros Hkeyed Hserver Hurl Hkey other found. cbn.
  destruct (String.eqb_spec key other) as [<-|Hne].
  - rewrite JsMapFacts.get_set_eq. intros [= <-]. split; [exact Hserver|]. eauto.
  - rewrite JsMapFacts.get_set_ne by exact Hne. apply Hkeyed.
Qed.

Lemma keepsTable_getConnection url : keepsTable (getConnection' url).
Proof.
  intros st Hkeyed.
  unfold getConnection, normalizeServerUrl, buildConnectOptions, installConnection,
    callConnector, bind, await, gets, ret, modify, emit.
  destruct (newURL url) as [parsed|raised] eqn:Hurl; [|exact Hkeyed].
  destruct (JsMap.get (connections (session st)) (serverKeyOfUrl parsed));
    [exact Hkeyed|].
  cbn. destruct (connector (connectorCalls (world st)) (optionsOfUrl parsed));
    [|exact Hkeyed].
  cbn. now apply (keyed_set (session st) _ _ parsed).
Qed.

Lemma keepsTable_markConnectionClosed key : keepsTable (markConnectionClosed number key).
Proof.
  intros st Hkeyed. unfold markConnectionClosed, bind, gets, modify. cbn [session].
  destruct (JsMap.get (connections (session st)) key) as [managed|] eqn:Hfound;
    [|exact Hkeyed].
  cbn. destruct (Hkeyed key managed Hfound) as (Hserver & parsed & Hurl & Hkey).
  now apply (keyed_set (session st) _ _ parsed).
Qed.

Lemma keepsTable_stopContext kind key : keepsTable (stopContext number kind key).
Proof.
  apply keepsTable_same. intros st.
  destruct (stopContext_tearsDown number kind key st) as (st1 & Hstop & _ & _ & _ & Htable).
  now rewrite Hstop.
Qed.

Lemma keepsTable_startSubscription serverUrl subjectText sinkId key :
  keepsTable (startSubscription' serverUrl subjectText sinkId key).
Proof.
  unfold startSubscription.
  apply keepsTable_bind; [now apply keepsTable_same|]. intros [|].
  - now apply keepsTable_same.
  - apply keepsTable_bind; [apply keepsTable_getConnection|]. intros managed.
    now apply keepsTable_same.
Qed.

Lemma keepsTable_startReplyHandler serverUrl subjectText templateText payloadText
    sinkId key replyHeaders :
  keepsTable
    (startReplyHandler' serverUrl subjectText templateText payloadText sinkId key
       replyHeaders).
Proof.
  unfold startReplyHandler.
  apply keepsTable_bind; [now apply keepsTable_same|]. intros [|].
  - now apply keepsTable_same.
  - apply keepsTable_bind; [apply keepsTable_getConnection|]. intros managed.
    now apply keepsTable_same.
Qed.

Ltac table_steps :=
  repeat first
    [ apply keepsTable_getConnection
    | apply keepsTable_markConnectionClosed
    | apply keepsTable_stopContext
    | apply keepsTable_startSubscription
    | apply keepsTable_startReplyHandler
    | apply keepsTable_forEach; intros ?
    | apply keepsTable_tryCatch; [|intros ?]
    | apply keepsTable_bind; [|intros ?]
    | (apply keepsTable_same; intros ?; reflexivity)
    | match goal with
      | |- keepsTable (match ?x with _ => _ end) => destruct x
      | |- keepsTable (if ?x then _ else _) => destruct x
      end ].

Lemma keepsTable_pullJetStream serverUrl streamName durableName options sinkId :
  keepsTable (pullJetStream' serverUrl streamName durableName options sinkId).
Proof.
  unfold pullJetStream, pullBody, pullMessage, appendLogBlock, timestamp. table_steps.
Qed.

Lemma keepsTable_reset : keepsTable (reset number).
Proof.
  intros st _. destruct (reset_outcome_any st) as [st1 [Hrun Htable]].
  rewrite Hrun. cbn [snd]. intros key managed. rewrite Htable. discriminate.
Qed.

Lemma keepsTable_reconnectConnection key : keepsTable (reconnectConnection' key).
Proof.
  intros st Hkeyed. unfold reconnectConnection.
  unfold bind at 1, gets at 1. cbn [session].
  destruct (JsMap.get (connections (session st)) key) as [existing|] eqn:Hexisting;
    [|exact Hkeyed].
  destruct (Hkeyed key existing Hexisting) as (Hserver & parsed & Hurl & Hkey).
  revert st Hkeyed Hexisting.
  match goal with
  | |- forall st, _ -> _ -> keyed (session (snd (?op st))) =>
      enough (Hop : keepsTable op) by (intros st Hkeyed _; now apply Hop)
  end.
  apply keepsTable_bind; [now apply keepsTable_same|]. intros subs.
  apply keepsTable_bind; [now apply keepsTable_same|]. intros handlers.
  apply keepsTable_bind.
  { unfold buildConnectOptions. table_steps. }
  intros options.
  apply keepsTable_bind; [now apply keepsTable_same|]. intros newConnection.
  apply keepsTable_bind; [table_steps|]. intros _.
  apply keepsTable_bind; [table_steps|]. intros _.
  apply keepsTable_bind; [now apply keepsTable_same|]. intros _.
  apply keepsTable_bind; [now apply keepsTable_same|]. intros _.
  apply keepsTable_bind.
  { intros st Hkeyed. unfold installConnection, bind, modify, emit. cbn.
    now apply (keyed_set (session st) _ _ parsed). }
  intros _. table_steps.
Qed.

Lemma perform_keyed call st :
  keyed (session st) ->
  keyed (session (perform call st)).
Proof.
  destruct call; cbn [perform].
  - apply keepsTable_startSubscription.
  - apply keepsTable_stopContext.
  - apply keepsTable_startReplyHandler.
  - apply keepsTable_stopContext.
  - apply keepsTable_pullJetStream.
  - apply keepsTable_reset.
  - apply keepsTable_markConnectionClosed.
  - apply keepsTable_reconnectConnection.
Qed.

Lemma performAll_keyed calls :
  forall st, keyed (session st) -> keyed (session (performAll calls st)).
Proof.
  induction calls as [|call rest IH]; intros st Hst; [exact Hst|].
  cbn [performAll fold_left]. apply IH. now apply perform_keyed.
Qed.

End AnyCollaborators.

(** X17: when every call is awaited before the next one is made, the
    counters agree with the contexts after any sequence of calls on a
    new session, whichever of the calls returned and whichever threw: in
    both stores, the counter of a pair of server and subject is the
    number of active contexts of the pair, and is absent when there is
    none. The calls are startSubscription, stopSubscription,
    startReplyHandler, stopReplyHandler, pullJetStream, reset,
    markConnectionClosed and reconnectConnection. Calls that overlap are
    outside the statement: a second start of a key that runs while the
    first one awaits its connection passes the same guard. *)
Theorem counters_match_contexts_after_any_calls
    number newURL connector now readMsgHeaders
    (calls : list Call) :
  consistent number
    (session (performAll number newURL connector now readMsgHeaders calls
                (initialState number))).
Proof. apply performAll_consistent, consistent_initial. Qed.

(** X18: a connection is made once for a server: after [getConnection]
    returned a connection for a URL, a second call for the URL returns
    the same connection and changes nothing, so it does not call the
    connector. *)
Theorem getConnection_reuses_connection
    number newURL connector url managed (st st1 : State number) :
  getConnection number newURL connector url st = (Ok managed, st1) ->
  getConnection number newURL connector url st1 = (Ok managed, st1).
Proof. apply getConnection_again. Qed.

Definition demoManaged : ManagedConnection Z :=
  {| serverKey := "nats://demo"; rawUrl := "nats://demo";
     connection := SessionReference.plainConnection 0; markedClosed := false |}.

Definition demoConnected : State Z :=
  snd (getConnection Z Reference.newURL SessionReference.connector "nats://demo"
         (initialState Z)).

Lemma getConnection_reuses_connection_witness :
  getConnection Z Reference.newURL SessionReference.connector "nats://demo"
    (initialState Z) = (Ok demoManaged, demoConnected)
  /\ getConnection Z Reference.newURL SessionReference.connector "nats://demo"
       demoConnected = (Ok demoManaged, demoConnected).
Proof.
  split; [reflexivity|].
  apply (getConnection_reuses_connection Z Reference.newURL SessionReference.connector
           "nats://demo" demoManaged (initialState Z) demoConnected).
  reflexivity.
Defined.

(** X19: [startSubscription] under a key that is not active, when it
    returns, has registered the key, has raised the subscription count of
    the subject by one, and has left the other subscriptions, the reply
    handlers and their counters as they were. *)
Theorem startSubscription_registers_new_key
    number newURL connector serverUrl subjectText sinkId key (st st1 : State number) :
  JsMap.has (subscriptions (session st)) key = false ->
  startSubscription number newURL connector serverUrl subjectText sinkId key st
    = (Ok tt, st1) ->
  isSubscribed number key (session st1) = true
  /\ getSubscriptionCount number subjectText (session st1)
     = (getSubscriptionCount number subjectText (session st) + 1)%Z
  /\ (forall other, other <> key ->
        JsMap.get (subscriptions (session st1)) other
        = JsMap.get (subscriptions (session st)) other)
  /\ replies (session st1) = replies (session st)
  /\ replyCounts (session st1) = replyCounts (session st).
Proof.
  intros Hfresh Hstart.
  destruct (startSubscription_fresh _ _ _ _ _ _ _ _ _ Hfresh Hstart)
    as (managed & connected & Hconnect & Hsession & _).
  pose proof (frames_getConnection number newURL connector serverUrl st) as Hframe.
  rewrite Hconnect in Hframe. cbn [snd] in Hframe.
  destruct (Hframe subscriptionStore) as [Hsubs Hcounts].
  destruct (Hframe replyStore) as [Hreplies HreplyCounts].
  cbn [getStore getCounts] in *.
  unfold isSubscribed, getSubscriptionCount. rewrite Hsession. cbn.
  unfold JsMap.has. rewrite JsMapFacts.get_set_eq.
  rewrite collectCount_incrementCount, Hcounts, Hsubs.
  repeat split; try assumption.
  intros other Hother. apply JsMapFacts.get_set_ne. congruence.
Qed.

Lemma startSubscription_registers_new_key_witness :
  JsMap.has (subscriptions (session SessionReference.oneSubscription)) "k2" = false
  /\ SessionReference.start SessionReference.connector "k2"
       SessionReference.oneSubscription = (Ok tt, twoSubscriptions)
  /\ isSubscribed Z "k2" (session twoSubscriptions) = true
  /\ getSubscriptionCount Z "lab.metrics" (session twoSubscriptions)
     = (getSubscriptionCount Z "lab.metrics" (session SessionReference.oneSubscription)
        + 1)%Z.
Proof.
  split; [reflexivity|]. split; [reflexivity|].
  destruct (startSubscription_registers_new_key Z Reference.newURL
              SessionReference.connector "nats://demo" "lab.metrics" 7 "k2"
              SessionReference.oneSubscription twoSubscriptions)
    as (Hactive & Hcount & _); [reflexivity | reflexivity |].
  split; [exact Hactive | exact Hcount].
Defined.



(** X21: [reset] on a session whose counters agree with its contexts
    returns and leaves the five maps empty. What it calls on the way is
    [unsubscribe] on subscriptions, and after that [close] on each
    connection of the table, in the order of the table. *)
Theorem reset_empties_session number (st : State number) :
  consistent number (session st) ->
  exists st1 unsubscribes,
    reset number st = (Ok tt, st1)
    /\ session st1 = emptySession number
    /\ forallb isUnsubscribe unsubscribes = true
    /\ trace (world st1)
       = (trace (world st) ++ unsubscribes
          ++ map (closeEvent number) (connections (session st)))%list.
Proof. apply reset_outcome. Qed.

Lemma reset_empties_session_witness :
  consistent Z (session twoSubscriptions)
  /\ exists st1 unsubscribes,
       reset Z twoSubscriptions = (Ok tt, st1)
       /\ session st1 = emptySession Z
       /\ forallb isUnsubscribe unsubscribes = true
       /\ trace (world st1)
          = (trace (world twoSubscriptions) ++ unsubscribes
             ++ map (closeEvent Z) (connections (session twoSubscriptions)))%list.
Proof.
  split; [exact twoSubscriptions_consistent|].
  exact (reset_empties_session Z twoSubscriptions twoSubscriptions_consistent).
Defined.

(** X22: [pullJetStream] stays within its own business: whether it
    returns or throws, the subscriptions, the reply handlers and both
    counters are as before, and all it did is connect (when the server
    had no connection) and append records to the sink it was given; it
    subscribes to nothing, unsubscribes nothing, closes nothing and
    writes to no other sink. *)
Theorem pullJetStream_is_isolated
    number newURL connector now readMsgHeaders serverUrl streamName durableName
    options sinkId (st : State number) :
  let st1 :=
    snd (pullJetStream number newURL connector now readMsgHeaders serverUrl
           streamName durableName options sinkId st) in
  subscriptions (session st1) = subscriptions (session st)
  /\ replies (session st1) = replies (session st)
  /\ subscriptionCounts (session st1) = subscriptionCounts (session st)
  /\ replyCounts (session st1) = replyCounts (session st)
  /\ exists events,
       trace (world st1) = (trace (world st) ++ events)%list
       /\ forallb (pullEvent sinkId) events = true.
Proof.
  cbn zeta.
  pose proof (frames_pullJetStream number newURL connector now readMsgHeaders
                serverUrl streamName durableName options sinkId st) as Hframe.
  destruct (Hframe subscriptionStore) as [Hsubs Hcounts].
  destruct (Hframe replyStore) as [Hreplies HreplyCounts].
  cbn [getStore getCounts] in *.
  repeat (split; [assumption|]).
  apply emitsOnly_pullJetStream.
Qed.

(** X23: a reconnection that returns loses no registration: every key
    that was subscribed is subscribed afterwards, every reply handler
    that was active is active afterwards, on this server and on the
    others, and the number returned is the number of contexts that were
    bound to the server. *)
Theorem reconnectConnection_keeps_keys_active
    number newURL connector key count (st st1 : State number) :
  reconnectConnection number newURL connector key st = (Ok count, st1) ->
  (forall active,
     isSubscribed number active (session st) = true ->
     isSubscribed number active (session st1) = true)
  /\ (forall active,
        isReplyHandlerActive number active (session st) = true ->
        isReplyHandlerActive number active (session st1) = true)
  /\ count
     = List.length (contextsOf key (subscriptions (session st)))
       + List.length (contextsOf key (replies (session st))).
Proof.
  intros Hrun.
  destruct (reconnectConnection_retains number newURL connector key count st st1 Hrun)
    as [Hkept Hcount].
  split; [|split]; [| |exact Hcount].
  - intros active. apply (Hkept subscriptionStore).
  - intros active. apply (Hkept replyStore).
Qed.

Lemma reconnectConnection_keeps_keys_active_witness :
  reconnectWorking = (Ok 1, snd reconnectWorking)
  /\ isSubscribed Z "k1" (session SessionReference.oneSubscription) = true
  /\ isSubscribed Z "k1" (session (snd reconnectWorking)) = true.
Proof.
  split; [reflexivity|]. split; [reflexivity|].
  destruct (reconnectConnection_keeps_keys_active Z Reference.newURL
              SessionReference.connector "nats://demo" 1
              SessionReference.oneSubscription (snd reconnectWorking))
    as (Hkept & _); [reflexivity|].
  apply Hkept. reflexivity.
Defined.

(** X24: a reconnection whose connector call and whose [close] succeed
    returns, for an entry that stands under the identity of its own URL.
    The connector is called once. After the close and the write of the
    table, every call is a [subscribe] on the new connection, so every
    context the reconnection restores is bound to the new connection, and
    the table holds the new connection under the identity. *)
Theorem reconnectConnection_binds_new_connection
    number newURL connector key existing parsed newConnection (st : State number) :
  JsMap.get (connections (session st)) key = Some existing ->
  newURL (rawUrl existing) = Ok parsed ->
  serverKeyOfUrl parsed = key ->
  connector (connectorCalls (world st)) (optionsOfUrl parsed) = Ok newConnection ->
  close (connection existing) = Ok tt ->
  exists st1 unsubscribes subscribes,
    reconnectConnection number newURL connector key st
    = (Ok (List.length (contextsOf key (subscriptions (session st)))
           + List.length (contextsOf key (replies (session st)))), st1)
    /\ trace (world st1)
       = (trace (world st)
          ++ EConnect (optionsOfUrl parsed)
             :: unsubscribes
             ++ EClose (connectionId (connection existing))
                :: EInstall key (connectionId newConnection) :: subscribes)%list
    /\ forallb isUnsubscribe unsubscribes = true
    /\ forallb (isSubscribeOn (connectionId newConnection)) subscribes = true
    /\ connectorCalls (world st1) = S (connectorCalls (world st))
    /\ JsMap.get (connections (session st1)) key
       = Some {| serverKey := key; rawUrl := rawUrl existing;
                 connection := newConnection; markedClosed := false |}.
Proof. apply reconnectConnection_rebinds. Qed.

Lemma reconnectConnection_binds_new_connection_witness :
  (JsMap.get (connections (session SessionReference.oneSubscription)) "nats://demo"
   = Some demoManaged
   /\ Reference.newURL (rawUrl demoManaged) = Ok demoUrl
   /\ serverKeyOfUrl demoUrl = "nats://demo"
   /\ SessionReference.connector
        (connectorCalls (world SessionReference.oneSubscription))
        (optionsOfUrl demoUrl)
      = Ok (SessionReference.plainConnection 1)
   /\ close (connection demoManaged) = Ok tt)
  /\ exists st1 unsubscribes subscribes,
       reconnectWorking = (Ok 1, st1)
       /\ trace (world st1)
          = (trace (world SessionReference.oneSubscription)
             ++ EConnect (optionsOfUrl demoUrl)
                :: unsubscribes ++ EClose 0 :: EInstall "nats://demo" 1 :: subscribes)%list
       /\ forallb isUnsubscribe unsubscribes = true
       /\ forallb (isSubscribeOn 1) subscribes = true.
Proof.
  split; [repeat split|].
  destruct (reconnectConnection_binds_new_connection Z Reference.newURL
              SessionReference.connector "nats://demo" demoManaged demoUrl
              (SessionReference.plainConnection 1) SessionReference.oneSubscription)
    as (st1 & unsubscribes & subscribes & Hrun & Htrace & Hunsubscribes & Hsubscribes & _);
    try reflexivity.
  exists st1, unsubscribes, subscribes. repeat split; assumption.
Defined.

(** X25: after any sequence of calls on a new session, every entry of
    the connection table stands under the identity of its own URL: its
    key is its [serverKey] and is what [normalizeServerUrl] makes of its
    [rawUrl]. So a later call for that URL finds the entry. *)
Theorem connection_table_is_keyed_after_any_calls
    number newURL connector now readMsgHeaders (calls : list Call) :
  keyed number newURL
    (session (performAll number newURL connector now readMsgHeaders calls
                (initialState number))).
Proof. apply performAll_keyed. intros key managed Hfound. discriminate Hfound. Qed.

End SessionInvariants.

(* ================================================================== *)
(** ** Facts: the consume loop *)
(* ================================================================== *)

Module ConsumerFacts.
Import JsString NatsTypes Session Consumer.

Section AnyCollaborators.

Variable number : Type.
Variable numberToString : number -> string.
Variable numberOfNat : nat -> number.
Variable inheritedJson : JsonValue number -> string -> option (option string).
Variable now : nat -> string.
Variable readMsgHeaders : option HeadersLike -> option HeaderMap.
Variable MsgHdrs : Type.
Variable buildMsgHeaders : option HeaderMap -> option MsgHdrs.

Abbreviation Effect' := (Effect number MsgHdrs).
Abbreviation handleReply' :=
  (handleReply number numberToString numberOfNat inheritedJson readMsgHeaders
     MsgHdrs buildMsgHeaders).
Abbreviation consumeLoop' :=
  (consumeLoop number numberToString numberOfNat inheritedJson now readMsgHeaders
     MsgHdrs buildMsgHeaders).

(** The responses among the effects, and the sinks of the records. *)
Definition responses (effects : list Effect') : list Effect' :=
  filter (fun effect => match effect with Respond _ _ _ => true | _ => false end) effects.

Definition recordSinks (effects : list Effect') : list LogSink :=
  flat_map (fun effect =>
              match effect with Append sinkId _ _ => [sinkId] | _ => [] end) effects.

Lemma responses_app a b : responses (a ++ b)%list = (responses a ++ responses b)%list.
Proof. apply filter_app. Qed.

Lemma recordSinks_app a b :
  recordSinks (a ++ b)%list = (recordSinks a ++ recordSinks b)%list.
Proof. apply flat_map_app. Qed.

(** The text a reply handler answers with: the template, interpolated,
    when there is one, and else the payload. *)
Definition replyText (msg : MsgLike number) (templateText payloadText : option string)
  : option string :=
  if truthyOpt templateText then
    option_map
      (fun templateBody =>
         Template.interpolateTemplate number numberToString numberOfNat inheritedJson
           templateBody msg)
      templateText
  else if truthyOpt payloadText then payloadText
  else None.

Lemma handleReply_effects msg subjectText sinkId stamp prefix templateText payloadText
    replyHeaders :
  let effects :=
    handleReply' msg subjectText sinkId stamp prefix templateText payloadText
      replyHeaders in
  recordSinks effects = [sinkId]
  /\ responses effects
     = match replyText msg templateText payloadText with
       | Some text =>
           if truthyOpt (msgReply msg)
           then [Respond msg text (buildMsgHeaders replyHeaders)]
           else []
       | None => []
       end.
Proof.
  cbn zeta. unfold handleReply, replyText.
  destruct (truthyOpt (msgReply msg));
    destruct templateText as [templateBody|], payloadText as [payloadBody|];
    cbn [negb truthyOpt option_map];
    try destruct (truthy templateBody); try destruct (truthy payloadBody);
    split; reflexivity.
Qed.

Lemma consumeMessage_effects prefix subjectText sinkId isReply templateText payloadText
    replyHeaders clock msg :
  let effects :=
    consumeMessage number numberToString numberOfNat inheritedJson now readMsgHeaders
      MsgHdrs buildMsgHeaders prefix subjectText sinkId isReply templateText
      payloadText replyHeaders clock msg in
  recordSinks effects = [sinkId]
  /\ List.length (responses effects) <= 1
  /\ (isReply = false \/ truthyOpt (msgReply msg) = false -> responses effects = []).
Proof.
  cbn zeta. unfold consumeMessage. destruct isReply.
  - destruct (handleReply_effects msg subjectText sinkId (now clock) prefix templateText
                payloadText replyHeaders) as [Hsinks Hresponses].
    split; [exact Hsinks|]. rewrite Hresponses.
    destruct (replyText msg templateText payloadText), (truthyOpt (msgReply msg));
      cbn; (split; [lia|]); intros [Hcase|Hcase]; try discriminate; reflexivity.
  - cbn. split; [reflexivity|]. split; [lia | reflexivity].
Qed.

Lemma consumeLoop_effects prefix subjectText sinkId isReply templateText payloadText
    replyHeaders msgs :
  forall clock,
    let out :=
      consumeLoop' prefix subjectText sinkId isReply templateText payloadText
        replyHeaders msgs clock in
    recordSinks (fst out) = repeat sinkId (List.length msgs)
    /\ List.length (responses (fst out)) <= List.length msgs
    /\ (isReply = false -> responses (fst out) = [])
    /\ snd out = List.length msgs + clock.
Proof.
  induction msgs as [|msg rest IH]; intros clock; cbn zeta.
  - cbn. repeat split; lia.
  - cbn [consumeLoop]. specialize (IH (S clock)). cbn zeta in IH.
    destruct (consumeLoop' prefix subjectText sinkId isReply templateText payloadText
                replyHeaders rest (S clock)) as [later clock1].
    cbn [fst snd] in *. destruct IH as (Hsinks & Hcount & Hplain & Hclock).
    destruct (consumeMessage_effects prefix subjectText sinkId isReply templateText
                payloadText replyHeaders clock msg) as (Hsink & Hone & Hnone).
    rewrite recordSinks_app, responses_app, Hsink, Hsinks, length_app.
    cbn [List.length repeat app]. repeat split; try lia.
    intros Hmode. rewrite (Hplain Hmode), (Hnone (or_introl Hmode)). reflexivity.
Qed.

End AnyCollaborators.

(** X26: a reply handler answers a message at most once, and only a
    message that has a reply address: with the template, interpolated,
    when a template is set, and else with the payload, when one is set.
    The headers of the response are those built from the headers of the
    handler. Whatever the case, it appends one record, to its own sink. *)
Theorem handleReply_answers_once
    number numberToString numberOfNat inheritedJson readMsgHeaders MsgHdrs
    buildMsgHeaders (msg : MsgLike number) subjectText sinkId stamp prefix
    templateText payloadText replyHeaders :
  let effects :=
    handleReply number numberToString numberOfNat inheritedJson readMsgHeaders
      MsgHdrs buildMsgHeaders msg subjectText sinkId stamp prefix templateText
      payloadText replyHeaders in
  recordSinks number MsgHdrs effects = [sinkId]
  /\ responses number MsgHdrs effects
     = match replyText number numberToString numberOfNat inheritedJson msg
               templateText payloadText with
       | Some text =>
           if truthyOpt (msgReply msg)
           then [Respond msg text (buildMsgHeaders replyHeaders)]
           else []
       | None => []
       end.
Proof. apply handleReply_effects. Qed.

(** X27: the consume loop appends one record for each message the
    subscription yields, and one more when the iteration fails, all to
    the sink of the context. It sends at most one response for a message,
    and none at all for a plain subscription. It reads the clock once for
    each record. *)
Theorem consumeSubscription_records_every_message
    number numberToString numberOfNat inheritedJson now readMsgHeaders MsgHdrs
    buildMsgHeaders (nc : NatsConnectionLike number) subscription subjectText sinkId
    isReply templateText payloadText replyHeaders clock :
  let out :=
    consumeSubscription number numberToString numberOfNat inheritedJson now
      readMsgHeaders MsgHdrs buildMsgHeaders nc subscription subjectText sinkId
      isReply templateText payloadText replyHeaders clock in
  let records :=
    List.length (delivered subscription)
    + match failure subscription with Some _ => 1 | None => 0 end in
  recordSinks number MsgHdrs (fst out) = repeat sinkId records
  /\ List.length (responses number MsgHdrs (fst out))
     <= List.length (delivered subscription)
  /\ (isReply = false -> responses number MsgHdrs (fst out) = [])
  /\ snd out = records + clock.
Proof.
  cbn zeta. unfold consumeSubscription.
  pose proof (consumeLoop_effects number numberToString numberOfNat inheritedJson now
                readMsgHeaders MsgHdrs buildMsgHeaders
                (connectionInfo number nc) subjectText sinkId isReply templateText
                payloadText replyHeaders (delivered subscription) clock) as Hloop.
  cbn zeta in Hloop.
  destruct (consumeLoop number numberToString numberOfNat inheritedJson now
              readMsgHeaders MsgHdrs buildMsgHeaders (connectionInfo number nc)
              subjectText sinkId isReply templateText payloadText replyHeaders
              (delivered subscription) clock) as [effects clock1].
  cbn [fst snd] in Hloop. destruct Hloop as (Hsinks & Hcount & Hplain & Hclock).
  destruct (failure subscription) as [error|]; cbn [fst snd].
  - unfold push. rewrite recordSinks_app, responses_app, Hsinks. cbn.
    rewrite app_nil_r. repeat split; try lia.
    + rewrite Nat.add_1_r. cbn [repeat]. symmetry. apply repeat_cons.
    + exact Hplain.
  - rewrite Nat.add_0_r. repeat split; assumption.
Qed.

End ConsumerFacts.
